(** * Treat-planner: recording lifecycle, submission/poll pipeline and
      planning proxy, embedded from the JavaScript sources.

    Sources embedded here:
    - [public/app.js]              the plain-script recorder UI      ([Module App])
    - [pages/index.js]             the React recorder UI             ([Module Index])
    - [pages/api/treatment-plans]  the planning proxy handler        ([Module Planner])

    JavaScript is single threaded: a handler runs to its next [await] without
    interleaving.  Every handler is therefore a function on an explicit state
    record; what the platform decides (permission for the microphone, recorder
    events, HTTP responses, the clock) is an argument of the function or an
    event of the step function. *)

From stdpp Require Import base list strings gmap pretty.

Open Scope Z_scope.

(** ** JavaScript values *)

Module JS.

(** The scalar values a JSON field can hold, plus [undefined] for an absent
    property.  Numbers are the integral ones. *)
Inductive jsval :=
  | VUndefined
  | VNull
  | VBool (b : bool)
  | VNum (n : Z)
  | VStr (s : string).

#[global] Instance jsval_eq_dec : EqDecision jsval.
Proof. solve_decision. Defined.

(** ToBoolean. *)
Definition truthy (v : jsval) : bool :=
  match v with
  | VUndefined | VNull => false
  | VBool b => b
  | VNum n => negb (n =? 0)
  | VStr s => negb (String.eqb s "")
  end.

(** [a || b] on values. *)
Definition js_or (a b : jsval) : jsval := if truthy a then a else b.

(** [v === "s"]. *)
Definition strict_eq_str (v : jsval) (s : string) : bool :=
  match v with
  | VStr t => String.eqb t s
  | _ => false
  end.

(** ToString, as used by [new Error(v)] and template literals, for the
    integers that JavaScript prints in full (those below 10^21 in magnitude). *)
Definition ToString (v : jsval) : string :=
  match v with
  | VUndefined => "undefined"
  | VNull => "null"
  | VBool true => "true"
  | VBool false => "false"
  | VNum n => pretty n
  | VStr s => s
  end.


(** A parsed JSON object; an absent property reads as [undefined]. *)
Abbreviation jsobj := (gmap string jsval).

Definition get_field (o : jsobj) (k : string) : jsval :=
  default VUndefined (o !! k).

(** [JSON.stringify] of an object literal leaves out the properties whose
    value is [undefined]. *)
Definition json_fields (l : list (string * jsval)) : list (string * jsval) :=
  filter (λ kv, kv.2 ≠ VUndefined) l.

(** [String.prototype.toLowerCase] on the Latin letters (no other character
    lower-cases to one of the letters of the word looked for below). *)
Definition lower_ascii (c : Ascii.ascii) : Ascii.ascii :=
  let n := Ascii.N_of_ascii c in
  if ((65 <=? n) && (n <=? 90))%N then Ascii.ascii_of_N (n + 32) else c.

Fixpoint toLowerCase (s : string) : string :=
  match s with
  | EmptyString => EmptyString
  | String c r => String (lower_ascii c) (toLowerCase r)
  end.

(** [s.includes(sub)]. *)
Fixpoint includes (s sub : string) : bool :=
  String.prefix sub s ||
  match s with
  | EmptyString => false
  | String _ r => includes r sub
  end.

End JS.
Export JS.

(** ** The planning proxy: [pages/api] handler for treatment plans *)

Module Planner.

(** Data carried by an upstream response: a scalar, or an object/array kept
    as its JSON text (always truthy). *)
Inductive jsdata :=
  | JScalar (v : jsval)
  | JObject (json : string).

Definition data_truthy (d : jsdata) : bool :=
  match d with
  | JScalar v => truthy v
  | JObject _ => true
  end.

(** A property of the parsed body of a request: a scalar, or an array or an
    object.  An array or an object is always truthy and is kept as its JSON
    text, together with what the planning handler observes of it:
    [preview_throws] tells whether
    [text.length > 400 ? `${text.slice(0, 400)}...` : text] throws for it, as
    it does for an object whose [length] is a number above 400 (an object has
    no [slice] method), and does not for an object without [length] or an
    array of at most 400 items. *)
Inductive field :=
  | Scalar (v : jsval)
  | Compound (json : string) (preview_throws : bool).

Coercion Scalar : jsval >-> field.

#[global] Instance field_eq_dec : EqDecision field.
Proof. solve_decision. Defined.

(** ToBoolean. *)
Definition field_truthy (f : field) : bool :=
  match f with
  | Scalar v => truthy v
  | Compound _ _ => true
  end.

(** A request with a parsed body, by the properties of the body.  The
    planning handler is modelled for properties of any kind ([field]), the
    other handlers for scalar ones ([jsval]). *)
Record Request (A : Type) := {
  method : string;
  body : option (gmap string A)          (* [req.body]; [None] when falsy *)
}.

Arguments method {A} _.
Arguments body {A} _.
Arguments Build_Request {A} _ _.

(** [BUncaught]: the handler threw; the framework answers in its place, with
    status 500 and a text of its own. *)
Inductive ResBody :=
  | BError (error : string)
  | BFailure (error : string) (details : option jsdata)
  | BData (data : jsdata)
  | BUncaught.

Record Response := { status : Z; json : ResBody }.

(** What [axios.post] rejects with. *)
Record AxiosError := {
  code : option string;
  message : option string;
  response_data : option jsdata     (* [error.response?.data] *)
}.

(** The outcome of an [axios.post] made without [validateStatus]: it
    resolves, with the data of the answer, exactly for an answer with a 2xx
    status, and rejects for any other answer and for a failed request. *)
Inductive AxiosResult :=
  | Resolved (data : jsdata)
  | Rejected (error : AxiosError).

(** The gateway, as seen by the handler: the result of the n-th post. *)
Definition Upstream := nat → AxiosResult.

Record Payload := {
  session_id : field;
  user_id : field;
  slot_id : field;
  treatment_planner_text : field
}.


(** Observable actions of the handler towards the gateway and the clock.
    Console output is not modelled. *)
Inductive Effect :=
  | Post (attempt : nat) (timeout_ms : Z) (p : Payload)
  | Sleep (ms : Z).

Definition maxAttempts : nat := 2.

Definition code_is (e : AxiosError) (c : string) : bool :=
  match code e with
  | Some c' => String.eqb c' c
  | None => false
  end.

Definition timeoutLike (error : AxiosError) : bool :=
  code_is error "ECONNABORTED" ||
  code_is error "ETIMEDOUT" ||
  match message error with
  | Some m => includes (toLowerCase m) "timeout"
  | None => false
  end.

(** [error.message || "Failed to generate treatment plans"] *)
Definition message_or_default (error : AxiosError) : jsdata :=
  match message error with
  | Some m =>
      if String.eqb m "" then JScalar (VStr "Failed to generate treatment plans")
      else JScalar (VStr m)
  | None => JScalar (VStr "Failed to generate treatment plans")
  end.

(** [error.response?.data || error.message || "Failed to generate treatment plans"] *)
Definition details_of (error : AxiosError) : jsdata :=
  match response_data error with
  | Some d => if data_truthy d then d else message_or_default error
  | None => message_or_default error
  end.

(** The [for (let attempt = 1; attempt <= maxAttempts; attempt++)] loop, over
    the attempt numbers still to run. *)
Fixpoint attempt_loop (range : list nat) (lastError : option AxiosError)
    (p : Payload) (up : Upstream) : list Effect * Response :=
  match range with
  | [] =>
      (* Fallback (should not reach here). *)
      ([], {| status := 500;
              json := BFailure "Failed to generate treatment plans"
                        (match lastError with
                         | Some e => JScalar ∘ VStr <$> message e
                         | None => None
                         end) |})
  | attempt :: rest =>
      match up attempt with
      | Resolved data =>
          ([Post attempt 180000 p], {| status := 200; json := BData data |})
      | Rejected error =>
          if (attempt <? maxAttempts)%nat && timeoutLike error then
            let '(tr, r) := attempt_loop rest (Some error) p up in
            (Post attempt 180000 p :: Sleep 2000 :: tr, r)
          else
            ([Post attempt 180000 p],
             {| status := if timeoutLike error then 504 else 500;
                json := BFailure "Failed to generate treatment plans"
                          (Some (details_of error)) |})
      end
  end.

(** [const { session_id, user_id, slot_id, treatment_planner_text } = req.body || {}] *)
Definition fields_of (req : Request field) : Payload :=
  let b := default ∅ (body req) in
  let property k := default (Scalar VUndefined) (b !! k) in
  {| session_id := property "session_id";
     user_id := property "user_id";
     slot_id := property "slot_id";
     treatment_planner_text := property "treatment_planner_text" |}.

(** The text is shortened for the log, by
    [text.length > 400 ? `${text.slice(0, 400)}... [truncated ...]` : text]
    with [text] the [treatment_planner_text]: whether that throws.  A string
    has [length] and [slice], a number or a boolean has no [length] and is
    kept as it is: for a scalar nothing is thrown.  The log itself is not
    modelled. *)
Definition truncation_throws (treatment_planner_text : field) : bool :=
  match treatment_planner_text with
  | Compound _ preview_throws => preview_throws
  | Scalar _ => false
  end.

Definition handler (req : Request field) (up : Upstream) : list Effect * Response :=
  if negb (String.eqb (method req) "POST") then
    ([], {| status := 405; json := BError "Method not allowed" |})
  else
    let p := fields_of req in
    if negb (field_truthy (session_id p)) || negb (field_truthy (treatment_planner_text p)) then
      ([], {| status := 400;
              json := BError "session_id and treatment_planner_text are required" |})
    else if truncation_throws (treatment_planner_text p) then
      (* thrown outside the [try]: nothing is sent *)
      ([], {| status := 500; json := BUncaught |})
    else
      attempt_loop (seq 1 maxAttempts) None p up.

Definition is_post (e : Effect) : bool :=
  match e with
  | Post _ _ _ => true
  | Sleep _ => false
  end.

(** Number of requests sent to the gateway. *)
Definition posts (tr : list Effect) : nat := length (List.filter is_post tr).

End Planner.


(** ** The browser: capture devices, MediaRecorder objects, timers *)

Module Media.

(** A Blob is its content; [new Blob(parts)] concatenates the parts. *)
Definition Blob := list Byte.byte.

Definition new_Blob (parts : list Blob) : Blob := concat parts.

(** [MediaRecorder.state] *)
Inductive RecorderState := inactive | recording | paused.

#[global] Instance RecorderState_eq_dec : EqDecision RecorderState.
Proof. solve_decision. Defined.

(** A MediaRecorder object.  [stop()] makes it inactive at once and queues
    the task that later fires its [dataavailable] and [stop] events. *)
Record MediaRecorder := {
  rstate : RecorderState;
  rstream : nat;                 (* the stream it was constructed on *)
  stop_queued : bool
}.

Record Browser := {
  streams : list bool;           (* one entry per stream handed out by
                                    getUserMedia: are its tracks still live *)
  recorders : list MediaRecorder;(* every MediaRecorder constructed so far *)
  pending_media : nat;           (* getUserMedia calls not settled yet *)
  intervals : gset nat;          (* live setInterval handles *)
  timeouts : gset nat;           (* live setTimeout handles *)
  next_timer : nat               (* timer handles are positive numbers *)
}.

Definition fresh : Browser :=
  {| streams := []; recorders := []; pending_media := 0%nat;
     intervals := ∅; timeouts := ∅; next_timer := 1%nat |}.

Definition with_streams (v : list bool) (b : Browser) : Browser :=
  {| streams := v; recorders := recorders b; pending_media := pending_media b;
     intervals := intervals b; timeouts := timeouts b; next_timer := next_timer b |}.

Definition with_recorders (v : list MediaRecorder) (b : Browser) : Browser :=
  {| streams := streams b; recorders := v; pending_media := pending_media b;
     intervals := intervals b; timeouts := timeouts b; next_timer := next_timer b |}.

Definition with_pending_media (v : nat) (b : Browser) : Browser :=
  {| streams := streams b; recorders := recorders b; pending_media := v;
     intervals := intervals b; timeouts := timeouts b; next_timer := next_timer b |}.

Definition with_intervals (v : gset nat) (b : Browser) : Browser :=
  {| streams := streams b; recorders := recorders b; pending_media := pending_media b;
     intervals := v; timeouts := timeouts b; next_timer := next_timer b |}.

Definition with_timeouts (v : gset nat) (b : Browser) : Browser :=
  {| streams := streams b; recorders := recorders b; pending_media := pending_media b;
     intervals := intervals b; timeouts := v; next_timer := next_timer b |}.

Definition with_next_timer (v : nat) (b : Browser) : Browser :=
  {| streams := streams b; recorders := recorders b; pending_media := pending_media b;
     intervals := intervals b; timeouts := timeouts b; next_timer := v |}.

(** [navigator.mediaDevices.getUserMedia({ audio: true })] is called. *)
Definition getUserMedia (b : Browser) : Browser :=
  with_pending_media (S (pending_media b)) b.

(** The call settles with a new live stream. *)
Definition media_resolve (b : Browser) : nat * Browser :=
  (length (streams b),
   with_streams (streams b ++ [true]) (with_pending_media (pred (pending_media b)) b)).

(** The call settles with a rejection. *)
Definition media_reject (b : Browser) : Browser :=
  with_pending_media (pred (pending_media b)) b.

(** [new MediaRecorder(stream)] *)
Definition new_MediaRecorder (stream : nat) (b : Browser) : nat * Browser :=
  (length (recorders b),
   with_recorders
     (recorders b ++ [{| rstate := inactive; rstream := stream; stop_queued := false |}]) b).

Definition set_rstate (st : RecorderState) (m : MediaRecorder) : MediaRecorder :=
  {| rstate := st; rstream := rstream m; stop_queued := stop_queued m |}.

(** [r.start()], [r.pause()], [r.resume()]: called by the sources only in the
    recorder states where they do not throw. *)
Definition rec_start (r : nat) (b : Browser) : Browser :=
  with_recorders (alter (set_rstate recording) r (recorders b)) b.

Definition rec_pause (r : nat) (b : Browser) : Browser :=
  with_recorders (alter (set_rstate paused) r (recorders b)) b.

Definition rec_resume (r : nat) (b : Browser) : Browser :=
  with_recorders (alter (set_rstate recording) r (recorders b)) b.

(** [r.stop()] *)
Definition rec_stop (r : nat) (b : Browser) : Browser :=
  with_recorders
    (alter (λ m, {| rstate := inactive; rstream := rstream m; stop_queued := true |})
       r (recorders b)) b.

(** The queued stop task has run. *)
Definition stop_delivered (r : nat) (b : Browser) : Browser :=
  with_recorders
    (alter (λ m, {| rstate := rstate m; rstream := rstream m; stop_queued := false |})
       r (recorders b)) b.

(** [stream.getTracks().forEach(track => track.stop())]: releases the device. *)
Definition stop_tracks (stream : nat) (b : Browser) : Browser :=
  with_streams (<[stream := false]> (streams b)) b.

(** [r.state] of the recorder a variable refers to. *)
Definition state_of (r : nat) (b : Browser) : option RecorderState :=
  rstate <$> recorders b !! r.

Definition setInterval (b : Browser) : nat * Browser :=
  (next_timer b,
   with_intervals ({[next_timer b]} ∪ intervals b) (with_next_timer (S (next_timer b)) b)).

Definition clearInterval (id : nat) (b : Browser) : Browser :=
  with_intervals (intervals b ∖ {[id]}) b.

Definition setTimeout (b : Browser) : nat * Browser :=
  (next_timer b,
   with_timeouts ({[next_timer b]} ∪ timeouts b) (with_next_timer (S (next_timer b)) b)).

Definition clearTimeout (id : nat) (b : Browser) : Browser :=
  with_timeouts (timeouts b ∖ {[id]}) b.

(** A timeout that fires is no longer live. *)
Definition timeout_fired (id : nat) (b : Browser) : Browser :=
  with_timeouts (timeouts b ∖ {[id]}) b.

(** Device handles currently held: streams whose tracks are live. *)
Definition held (b : Browser) : nat := length (List.filter id (streams b)).

(** May recorder [r] fire [dataavailable] / [stop] now? *)
Definition can_deliver_data (r : nat) (b : Browser) : bool :=
  match recorders b !! r with
  | Some m => bool_decide (rstate m ≠ inactive) || stop_queued m
  | None => false
  end.

Definition can_deliver_stop (r : nat) (b : Browser) : bool :=
  match recorders b !! r with
  | Some m => stop_queued m
  | None => false
  end.

End Media.

(** ** The network, as seen by [fetch] *)

Module Net.

(** What [response.json()] gives: a rejection, or the parsed object (a body
    that parses to a string, a number or a boolean reads like an object
    without properties; a body that is [null] is not among these values). *)
Inductive Body :=
  | BadJson (message : string)
  | Json (o : jsobj).

Inductive FetchResult :=
  | NetworkError (message : string)          (* the fetch promise rejects *)
  | HttpResponse (ok : bool) (body : Body).

(** Requests sent and timers armed by the submission pipeline. *)
Inductive Effect :=
  | Fetch (url : string)
  | SetTimeout (ms : Z).

Definition is_fetch (e : Effect) : bool :=
  match e with
  | Fetch _ => true
  | SetTimeout _ => false
  end.

Definition fetches (tr : list Effect) : nat := length (List.filter is_fetch tr).

(** [m || fallback] on strings. *)
Definition or_default (m fallback : string) : string :=
  if String.eqb m "" then fallback else m.

(** The script of a job that is still running. *)
Definition status_response (status : string) : FetchResult :=
  HttpResponse true (Json {[ "status" := VStr status ]}).

Definition completed_response (text : string) : FetchResult :=
  HttpResponse true (Json (<[ "text" := VStr text ]> {[ "status" := VStr "completed" ]})).

End Net.

(** ** [public/app.js]: the plain-script recorder *)

Module App.
Import Media Net.

(** What [transcriptionContent.innerHTML] shows. *)
Inductive Content :=
  | CEmpty
  | CLoading (message : string)
  | CText (text : string)
  | CError (message : string).

(** The module-level variables, the DOM properties the script writes and
    reads (button labels, CSS classes and the timer text are left out), and
    the browser. *)
Record State := {
  mediaRecorder : option nat;
  audioChunks : list Blob;
  audioBlob : option Blob;
  isRecording : bool;
  isPaused : bool;
  startTime : option Z;
  elapsedTime : Z;
  timerInterval : option nat;
  recordBtn_disabled : bool;
  pauseBtn_disabled : bool;
  stopBtn_disabled : bool;
  submitBtn_disabled : bool;
  errorMessage : string;
  showing_transcription : bool;   (* recordingView hidden, transcriptionView active *)
  transcriptionContent : Content;
  browser : Browser
}.

Definition with_mediaRecorder (v : option nat) (s : State) : State :=
  {| mediaRecorder := v; audioChunks := audioChunks s; audioBlob := audioBlob s;
     isRecording := isRecording s; isPaused := isPaused s; startTime := startTime s;
     elapsedTime := elapsedTime s; timerInterval := timerInterval s;
     recordBtn_disabled := recordBtn_disabled s;
     pauseBtn_disabled := pauseBtn_disabled s; stopBtn_disabled := stopBtn_disabled s;
     submitBtn_disabled := submitBtn_disabled s; errorMessage := errorMessage s;
     showing_transcription := showing_transcription s;
     transcriptionContent := transcriptionContent s; browser := browser s |}.

Definition with_audioChunks (v : list Blob) (s : State) : State :=
  {| mediaRecorder := mediaRecorder s; audioChunks := v; audioBlob := audioBlob s;
     isRecording := isRecording s; isPaused := isPaused s; startTime := startTime s;
     elapsedTime := elapsedTime s; timerInterval := timerInterval s;
     recordBtn_disabled := recordBtn_disabled s;
     pauseBtn_disabled := pauseBtn_disabled s; stopBtn_disabled := stopBtn_disabled s;
     submitBtn_disabled := submitBtn_disabled s; errorMessage := errorMessage s;
     showing_transcription := showing_transcription s;
     transcriptionContent := transcriptionContent s; browser := browser s |}.

Definition with_audioBlob (v : option Blob) (s : State) : State :=
  {| mediaRecorder := mediaRecorder s; audioChunks := audioChunks s; audioBlob := v;
     isRecording := isRecording s; isPaused := isPaused s; startTime := startTime s;
     elapsedTime := elapsedTime s; timerInterval := timerInterval s;
     recordBtn_disabled := recordBtn_disabled s;
     pauseBtn_disabled := pauseBtn_disabled s; stopBtn_disabled := stopBtn_disabled s;
     submitBtn_disabled := submitBtn_disabled s; errorMessage := errorMessage s;
     showing_transcription := showing_transcription s;
     transcriptionContent := transcriptionContent s; browser := browser s |}.

Definition with_isRecording (v : bool) (s : State) : State :=
  {| mediaRecorder := mediaRecorder s; audioChunks := audioChunks s;
     audioBlob := audioBlob s; isRecording := v; isPaused := isPaused s;
     startTime := startTime s; elapsedTime := elapsedTime s;
     timerInterval := timerInterval s; recordBtn_disabled := recordBtn_disabled s;
     pauseBtn_disabled := pauseBtn_disabled s; stopBtn_disabled := stopBtn_disabled s;
     submitBtn_disabled := submitBtn_disabled s; errorMessage := errorMessage s;
     showing_transcription := showing_transcription s;
     transcriptionContent := transcriptionContent s; browser := browser s |}.

Definition with_isPaused (v : bool) (s : State) : State :=
  {| mediaRecorder := mediaRecorder s; audioChunks := audioChunks s;
     audioBlob := audioBlob s; isRecording := isRecording s; isPaused := v;
     startTime := startTime s; elapsedTime := elapsedTime s;
     timerInterval := timerInterval s; recordBtn_disabled := recordBtn_disabled s;
     pauseBtn_disabled := pauseBtn_disabled s; stopBtn_disabled := stopBtn_disabled s;
     submitBtn_disabled := submitBtn_disabled s; errorMessage := errorMessage s;
     showing_transcription := showing_transcription s;
     transcriptionContent := transcriptionContent s; browser := browser s |}.

Definition with_startTime (v : option Z) (s : State) : State :=
  {| mediaRecorder := mediaRecorder s; audioChunks := audioChunks s;
     audioBlob := audioBlob s; isRecording := isRecording s; isPaused := isPaused s;
     startTime := v; elapsedTime := elapsedTime s; timerInterval := timerInterval s;
     recordBtn_disabled := recordBtn_disabled s;
     pauseBtn_disabled := pauseBtn_disabled s; stopBtn_disabled := stopBtn_disabled s;
     submitBtn_disabled := submitBtn_disabled s; errorMessage := errorMessage s;
     showing_transcription := showing_transcription s;
     transcriptionContent := transcriptionContent s; browser := browser s |}.

Definition with_elapsedTime (v : Z) (s : State) : State :=
  {| mediaRecorder := mediaRecorder s; audioChunks := audioChunks s;
     audioBlob := audioBlob s; isRecording := isRecording s; isPaused := isPaused s;
     startTime := startTime s; elapsedTime := v; timerInterval := timerInterval s;
     recordBtn_disabled := recordBtn_disabled s;
     pauseBtn_disabled := pauseBtn_disabled s; stopBtn_disabled := stopBtn_disabled s;
     submitBtn_disabled := submitBtn_disabled s; errorMessage := errorMessage s;
     showing_transcription := showing_transcription s;
     transcriptionContent := transcriptionContent s; browser := browser s |}.

Definition with_timerInterval (v : option nat) (s : State) : State :=
  {| mediaRecorder := mediaRecorder s; audioChunks := audioChunks s;
     audioBlob := audioBlob s; isRecording := isRecording s; isPaused := isPaused s;
     startTime := startTime s; elapsedTime := elapsedTime s; timerInterval := v;
     recordBtn_disabled := recordBtn_disabled s;
     pauseBtn_disabled := pauseBtn_disabled s; stopBtn_disabled := stopBtn_disabled s;
     submitBtn_disabled := submitBtn_disabled s; errorMessage := errorMessage s;
     showing_transcription := showing_transcription s;
     transcriptionContent := transcriptionContent s; browser := browser s |}.

Definition with_recordBtn_disabled (v : bool) (s : State) : State :=
  {| mediaRecorder := mediaRecorder s; audioChunks := audioChunks s;
     audioBlob := audioBlob s; isRecording := isRecording s; isPaused := isPaused s;
     startTime := startTime s; elapsedTime := elapsedTime s;
     timerInterval := timerInterval s; recordBtn_disabled := v;
     pauseBtn_disabled := pauseBtn_disabled s; stopBtn_disabled := stopBtn_disabled s;
     submitBtn_disabled := submitBtn_disabled s; errorMessage := errorMessage s;
     showing_transcription := showing_transcription s;
     transcriptionContent := transcriptionContent s; browser := browser s |}.

Definition with_pauseBtn_disabled (v : bool) (s : State) : State :=
  {| mediaRecorder := mediaRecorder s; audioChunks := audioChunks s;
     audioBlob := audioBlob s; isRecording := isRecording s; isPaused := isPaused s;
     startTime := startTime s; elapsedTime := elapsedTime s;
     timerInterval := timerInterval s; recordBtn_disabled := recordBtn_disabled s;
     pauseBtn_disabled := v; stopBtn_disabled := stopBtn_disabled s;
     submitBtn_disabled := submitBtn_disabled s; errorMessage := errorMessage s;
     showing_transcription := showing_transcription s;
     transcriptionContent := transcriptionContent s; browser := browser s |}.

Definition with_stopBtn_disabled (v : bool) (s : State) : State :=
  {| mediaRecorder := mediaRecorder s; audioChunks := audioChunks s;
     audioBlob := audioBlob s; isRecording := isRecording s; isPaused := isPaused s;
     startTime := startTime s; elapsedTime := elapsedTime s;
     timerInterval := timerInterval s; recordBtn_disabled := recordBtn_disabled s;
     pauseBtn_disabled := pauseBtn_disabled s; stopBtn_disabled := v;
     submitBtn_disabled := submitBtn_disabled s; errorMessage := errorMessage s;
     showing_transcription := showing_transcription s;
     transcriptionContent := transcriptionContent s; browser := browser s |}.

Definition with_submitBtn_disabled (v : bool) (s : State) : State :=
  {| mediaRecorder := mediaRecorder s; audioChunks := audioChunks s;
     audioBlob := audioBlob s; isRecording := isRecording s; isPaused := isPaused s;
     startTime := startTime s; elapsedTime := elapsedTime s;
     timerInterval := timerInterval s; recordBtn_disabled := recordBtn_disabled s;
     pauseBtn_disabled := pauseBtn_disabled s; stopBtn_disabled := stopBtn_disabled s;
     submitBtn_disabled := v; errorMessage := errorMessage s;
     showing_transcription := showing_transcription s;
     transcriptionContent := transcriptionContent s; browser := browser s |}.

Definition with_errorMessage (v : string) (s : State) : State :=
  {| mediaRecorder := mediaRecorder s; audioChunks := audioChunks s;
     audioBlob := audioBlob s; isRecording := isRecording s; isPaused := isPaused s;
     startTime := startTime s; elapsedTime := elapsedTime s;
     timerInterval := timerInterval s; recordBtn_disabled := recordBtn_disabled s;
     pauseBtn_disabled := pauseBtn_disabled s; stopBtn_disabled := stopBtn_disabled s;
     submitBtn_disabled := submitBtn_disabled s; errorMessage := v;
     showing_transcription := showing_transcription s;
     transcriptionContent := transcriptionContent s; browser := browser s |}.

Definition with_showing_transcription (v : bool) (s : State) : State :=
  {| mediaRecorder := mediaRecorder s; audioChunks := audioChunks s;
     audioBlob := audioBlob s; isRecording := isRecording s; isPaused := isPaused s;
     startTime := startTime s; elapsedTime := elapsedTime s;
     timerInterval := timerInterval s; recordBtn_disabled := recordBtn_disabled s;
     pauseBtn_disabled := pauseBtn_disabled s; stopBtn_disabled := stopBtn_disabled s;
     submitBtn_disabled := submitBtn_disabled s; errorMessage := errorMessage s;
     showing_transcription := v; transcriptionContent := transcriptionContent s;
     browser := browser s |}.

Definition with_transcriptionContent (v : Content) (s : State) : State :=
  {| mediaRecorder := mediaRecorder s; audioChunks := audioChunks s;
     audioBlob := audioBlob s; isRecording := isRecording s; isPaused := isPaused s;
     startTime := startTime s; elapsedTime := elapsedTime s;
     timerInterval := timerInterval s; recordBtn_disabled := recordBtn_disabled s;
     pauseBtn_disabled := pauseBtn_disabled s; stopBtn_disabled := stopBtn_disabled s;
     submitBtn_disabled := submitBtn_disabled s; errorMessage := errorMessage s;
     showing_transcription := showing_transcription s; transcriptionContent := v;
     browser := browser s |}.

Definition with_browser (v : Browser) (s : State) : State :=
  {| mediaRecorder := mediaRecorder s; audioChunks := audioChunks s;
     audioBlob := audioBlob s; isRecording := isRecording s; isPaused := isPaused s;
     startTime := startTime s; elapsedTime := elapsedTime s;
     timerInterval := timerInterval s; recordBtn_disabled := recordBtn_disabled s;
     pauseBtn_disabled := pauseBtn_disabled s; stopBtn_disabled := stopBtn_disabled s;
     submitBtn_disabled := submitBtn_disabled s; errorMessage := errorMessage s;
     showing_transcription := showing_transcription s;
     transcriptionContent := transcriptionContent s; browser := v |}.

(** State at page load; the four [disabled] attributes come from the page's
    markup. *)
Definition initial (rec_d pause_d stop_d submit_d : bool) : State :=
  {| mediaRecorder := None; audioChunks := []; audioBlob := None;
     isRecording := false; isPaused := false; startTime := None;
     elapsedTime := 0; timerInterval := None;
     recordBtn_disabled := rec_d; pauseBtn_disabled := pause_d;
     stopBtn_disabled := stop_d; submitBtn_disabled := submit_d;
     errorMessage := ""; showing_transcription := false;
     transcriptionContent := CEmpty; browser := fresh |}.

Definition showError (message : string) (s : State) : State :=
  with_errorMessage message s.

Definition showErrorInTranscription (message : string) (s : State) : State :=
  with_transcriptionContent (CError message) s.

Definition updateUI (s : State) : State :=
  if isRecording s && negb (isPaused s) then
    with_stopBtn_disabled false (with_pauseBtn_disabled false (with_recordBtn_disabled true s))
  else if isPaused s then
    with_stopBtn_disabled false (with_recordBtn_disabled false s)
  else
    with_stopBtn_disabled true (with_pauseBtn_disabled true (with_recordBtn_disabled false s)).

Definition startTimer (s : State) : State :=
  let '(id, b) := setInterval (browser s) in
  with_timerInterval (Some id) (with_browser b s).

Definition stopTimer (s : State) : State :=
  match timerInterval s with
  | Some id => with_timerInterval None (with_browser (clearInterval id (browser s)) s)
  | None => s
  end.

(** The interval callback: [elapsedTime = Date.now() - startTime]. *)
Definition tick (now : Z) (s : State) : State :=
  with_elapsedTime (now - default 0 (startTime s)) s.

(** [startRecording], up to its [await]. *)
Definition startRecording_begin (s : State) : State :=
  with_browser (getUserMedia (browser s)) (with_errorMessage "" s).

(** [startRecording], after [getUserMedia] resolved. *)
Definition startRecording_granted (now : Z) (s : State) : State :=
  let '(stream, b1) := media_resolve (browser s) in
  let '(r, b2) := new_MediaRecorder stream b1 in
  let s := with_mediaRecorder (Some r) (with_browser b2 s) in
  let s := with_audioChunks [] s in
  let s := with_elapsedTime 0 s in
  let s := with_browser (rec_start r (browser s)) s in
  let s := with_isRecording true s in
  let s := with_isPaused false s in
  let s := with_startTime (Some now) s in
  startTimer (updateUI s).

(** [startRecording], after [getUserMedia] rejected: the [catch] branch. *)
Definition startRecording_denied (s : State) : State :=
  showError "Failed to start recording. Please check microphone permissions."
    (with_browser (media_reject (browser s)) s).

(** [mediaRecorder.ondataavailable] *)
Definition ondataavailable (data : Blob) (s : State) : State :=
  if (0 <? length data)%nat then with_audioChunks (audioChunks s ++ [data]) s else s.

(** [mediaRecorder.onstop] of the recorder constructed on [stream]. *)
Definition onstop (stream : nat) (s : State) : State :=
  let s := with_audioBlob (Some (new_Blob (audioChunks s))) s in
  let s := with_submitBtn_disabled false s in
  with_browser (stop_tracks stream (browser s)) s.

Definition pauseRecording (now : Z) (s : State) : State :=
  match mediaRecorder s with
  | Some r =>
      match state_of r (browser s) with
      | Some recording =>
          let s := with_browser (rec_pause r (browser s)) s in
          let s := with_isPaused true s in
          updateUI (stopTimer s)
      | Some paused =>
          let s := with_browser (rec_resume r (browser s)) s in
          let s := with_isPaused false s in
          let s := with_startTime (Some (now - elapsedTime s)) s in
          updateUI (startTimer s)
      | _ => s
      end
  | None => s
  end.

Definition stopRecording (s : State) : State :=
  match mediaRecorder s with
  | Some r =>
      match state_of r (browser s) with
      | Some recording | Some paused =>
          let s := with_browser (rec_stop r (browser s)) s in
          let s := with_isRecording false s in
          let s := with_isPaused false s in
          updateUI (stopTimer s)
      | _ => s
      end
  | None => s
  end.

Definition resetView (s : State) : State :=
  let s := with_showing_transcription false s in
  let s := with_audioBlob None s in
  let s := with_submitBtn_disabled true s in
  let s := with_errorMessage "" s in
  with_transcriptionContent CEmpty s.

(** *** Polling *)

Definition maxAttempts : nat := 100.

(** One run of the [poll] closure of [pollTranscription], from the settled
    fetch to its end; [attempts] is the closure's counter.  Gives the state,
    the counter and, when [setTimeout(poll, 3000)] was reached, the timer
    armed and its delay. *)
Definition poll (response : FetchResult) (attempts : nat) (s : State)
    : State * nat * option (nat * Z) :=
  let catch message :=
    showErrorInTranscription (or_default message "Failed to get transcription") s in
  match response with
  | NetworkError message => (catch message, attempts, None)
  | HttpResponse false _ => (catch "Failed to get transcription status", attempts, None)
  | HttpResponse true (BadJson message) => (catch message, attempts, None)
  | HttpResponse true (Json result) =>
      if strict_eq_str (get_field result "status") "completed" then
        (with_transcriptionContent
           (CText (ToString (js_or (get_field result "text")
                                   (VStr "No transcription text available")))) s,
         attempts, None)
      else if strict_eq_str (get_field result "status") "error" then
        (catch (ToString (js_or (get_field result "error") (VStr "Transcription failed"))),
         attempts, None)
      else
        let attempts := S attempts in
        if (maxAttempts <=? attempts)%nat then
          (catch "Transcription timeout. Please try again.", attempts, None)
        else
          let s := with_transcriptionContent
                     (CLoading ("Processing transcription... ("
                                +:+ ToString (get_field result "status") +:+ ")")) s in
          let '(timer, b) := setTimeout (browser s) in
          (with_browser b s, attempts, Some (timer, 3000))
  end.

Definition status_url (transcriptId : jsval) : string :=
  "/api/transcript/" +:+ ToString transcriptId.

(** The poller, driven by the scripted answers to its successive fetches.
    A fetch without an answer in the script stays in flight. *)
Fixpoint poll_loop (script : list FetchResult) (transcriptId : jsval)
    (attempts : nat) (s : State) : list Effect * State :=
  match script with
  | [] => ([Fetch (status_url transcriptId)], s)
  | response :: rest =>
      match poll response attempts s with
      | (s, attempts, Some (timer, delay)) =>
          (* the timer fires after [delay] and runs [poll] again *)
          let s := with_browser (timeout_fired timer (browser s)) s in
          let '(tr, s) := poll_loop rest transcriptId attempts s in
          (Fetch (status_url transcriptId) :: SetTimeout delay :: tr, s)
      | (s, _, None) => ([Fetch (status_url transcriptId)], s)
      end
  end.

Definition pollTranscription (script : list FetchResult) (transcriptId : jsval)
    (s : State) : list Effect * State :=
  poll_loop script transcriptId 0 s.

(** *** Submission *)

(** The answers of the three endpoints during one submission. *)
Record Network := {
  upload : FetchResult;
  transcribe : FetchResult;
  transcript : list FetchResult
}.

(** A POST that must succeed: gives the parsed body, or the message of the
    error thrown. *)
Definition expect_ok (response : FetchResult) (fallback : string) : string + jsobj :=
  match response with
  | NetworkError message => inl message
  | HttpResponse false (BadJson message) => inl message
  | HttpResponse false (Json error) =>
      inl (ToString (js_or (get_field error "error") (VStr fallback)))
  | HttpResponse true (BadJson message) => inl message
  | HttpResponse true (Json o) => inr o
  end.

Definition submitTranscription (net : Network) (s : State) : list Effect * State :=
  match audioBlob s with
  | None => ([], showError "No audio recorded. Please record audio first." s)
  | Some _ =>
      let finally s := with_submitBtn_disabled false s in
      let catch message s :=
        showErrorInTranscription (or_default message "Failed to process transcription") s in
      let s := with_errorMessage "" s in
      let s := with_submitBtn_disabled true s in
      let s := with_showing_transcription true s in
      let s := with_transcriptionContent
                 (CLoading "Uploading audio and processing transcription...") s in
      match expect_ok (upload net) "Failed to upload audio" with
      | inl message => ([Fetch "/api/upload"], finally (catch message s))
      | inr o =>
          match expect_ok (transcribe net) "Failed to start transcription" with
          | inl message =>
              ([Fetch "/api/upload"; Fetch "/api/transcribe"], finally (catch message s))
          | inr o' =>
              let '(tr, s) :=
                pollTranscription (transcript net) (get_field o' "transcriptId") (finally s) in
              (Fetch "/api/upload" :: Fetch "/api/transcribe" :: tr, s)
          end
      end
  end.

(** *** The session as a transition system *)

Inductive Event :=
  | ClickRecord                          (* [startRecording] is invoked *)
  | MediaGranted (now : Z)               (* its [getUserMedia] resolves *)
  | MediaDenied                          (* its [getUserMedia] rejects *)
  | ClickPause (now : Z)                 (* [pauseRecording] *)
  | ClickStop                            (* [stopRecording] *)
  | ClickBack                            (* [resetView] *)
  | DataAvailable (r : nat) (data : Blob)(* recorder [r] fires dataavailable *)
  | StopEvent (r : nat)                  (* recorder [r] fires stop *)
  | Tick (id : nat) (now : Z).           (* interval [id] fires *)

(** The handlers can be invoked in any state; the platform events need
    something pending. *)
Definition enabled (e : Event) (s : State) : bool :=
  match e with
  | MediaGranted _ | MediaDenied => (0 <? pending_media (browser s))%nat
  | DataAvailable r _ => can_deliver_data r (browser s)
  | StopEvent r => can_deliver_stop r (browser s)
  | Tick id _ => bool_decide (id ∈ intervals (browser s))
  | _ => true
  end.

Definition step (e : Event) (s : State) : State :=
  match e with
  | ClickRecord => startRecording_begin s
  | MediaGranted now => startRecording_granted now s
  | MediaDenied => startRecording_denied s
  | ClickPause now => pauseRecording now s
  | ClickStop => stopRecording s
  | ClickBack => resetView s
  | DataAvailable _ data => ondataavailable data s
  | StopEvent r =>
      match recorders (browser s) !! r with
      | Some m => onstop (rstream m) (with_browser (stop_delivered r (browser s)) s)
      | None => s
      end
  | Tick _ now => tick now s
  end.

Fixpoint run (events : list Event) (s : State) : option State :=
  match events with
  | [] => Some s
  | e :: rest => if enabled e s then run rest (step e s) else None
  end.

(** The session state the UI shows ([updateUI]): paused, recording, or
    neither, and then complete when a final blob exists. *)
Inductive SessionState := Idle | Recording | Paused | Complete.

Definition session_state (s : State) : SessionState :=
  if isRecording s && negb (isPaused s) then Recording
  else if isPaused s then Paused
  else match audioBlob s with
       | Some _ => Complete
       | None => Idle
       end.

End App.

(** ** [pages/index.js]: the React recorder *)

Module Index.
Import Media Net.

Inductive RecordingState := idle | recording | paused | stopped.

#[global] Instance RecordingState_eq_dec : EqDecision RecordingState.
Proof. solve_decision. Defined.

Inductive TranscriptionStatus :=
  | t_idle | t_uploading | t_processing | t_completed | t_error.

(** The refs and the state variables of the [Home] component, and the
    browser.  A handler sees the state of the last render. *)
Record State := {
  mediaRecorderRef : option nat;
  audioChunksRef : list Blob;
  audioBlobRef : option Blob;
  timerRef : option nat;
  startTimeRef : option Z;
  pollTimeoutRef : option nat;
  recordingState : RecordingState;
  elapsedMs : Z;
  error : string;
  canSubmit : bool;
  transcriptionStatus : TranscriptionStatus;
  transcriptionText : jsval;
  transcriptionMessage : string;
  planError : string;
  browser : Browser
}.

Definition with_mediaRecorderRef (v : option nat) (s : State) : State :=
  {| mediaRecorderRef := v; audioChunksRef := audioChunksRef s;
     audioBlobRef := audioBlobRef s; timerRef := timerRef s;
     startTimeRef := startTimeRef s; pollTimeoutRef := pollTimeoutRef s;
     recordingState := recordingState s; elapsedMs := elapsedMs s; error := error s;
     canSubmit := canSubmit s; transcriptionStatus := transcriptionStatus s;
     transcriptionText := transcriptionText s;
     transcriptionMessage := transcriptionMessage s; planError := planError s;
     browser := browser s |}.

Definition with_audioChunksRef (v : list Blob) (s : State) : State :=
  {| mediaRecorderRef := mediaRecorderRef s; audioChunksRef := v;
     audioBlobRef := audioBlobRef s; timerRef := timerRef s;
     startTimeRef := startTimeRef s; pollTimeoutRef := pollTimeoutRef s;
     recordingState := recordingState s; elapsedMs := elapsedMs s; error := error s;
     canSubmit := canSubmit s; transcriptionStatus := transcriptionStatus s;
     transcriptionText := transcriptionText s;
     transcriptionMessage := transcriptionMessage s; planError := planError s;
     browser := browser s |}.

Definition with_audioBlobRef (v : option Blob) (s : State) : State :=
  {| mediaRecorderRef := mediaRecorderRef s; audioChunksRef := audioChunksRef s;
     audioBlobRef := v; timerRef := timerRef s; startTimeRef := startTimeRef s;
     pollTimeoutRef := pollTimeoutRef s; recordingState := recordingState s;
     elapsedMs := elapsedMs s; error := error s; canSubmit := canSubmit s;
     transcriptionStatus := transcriptionStatus s;
     transcriptionText := transcriptionText s;
     transcriptionMessage := transcriptionMessage s; planError := planError s;
     browser := browser s |}.

Definition with_timerRef (v : option nat) (s : State) : State :=
  {| mediaRecorderRef := mediaRecorderRef s; audioChunksRef := audioChunksRef s;
     audioBlobRef := audioBlobRef s; timerRef := v; startTimeRef := startTimeRef s;
     pollTimeoutRef := pollTimeoutRef s; recordingState := recordingState s;
     elapsedMs := elapsedMs s; error := error s; canSubmit := canSubmit s;
     transcriptionStatus := transcriptionStatus s;
     transcriptionText := transcriptionText s;
     transcriptionMessage := transcriptionMessage s; planError := planError s;
     browser := browser s |}.

Definition with_startTimeRef (v : option Z) (s : State) : State :=
  {| mediaRecorderRef := mediaRecorderRef s; audioChunksRef := audioChunksRef s;
     audioBlobRef := audioBlobRef s; timerRef := timerRef s; startTimeRef := v;
     pollTimeoutRef := pollTimeoutRef s; recordingState := recordingState s;
     elapsedMs := elapsedMs s; error := error s; canSubmit := canSubmit s;
     transcriptionStatus := transcriptionStatus s;
     transcriptionText := transcriptionText s;
     transcriptionMessage := transcriptionMessage s; planError := planError s;
     browser := browser s |}.

Definition with_pollTimeoutRef (v : option nat) (s : State) : State :=
  {| mediaRecorderRef := mediaRecorderRef s; audioChunksRef := audioChunksRef s;
     audioBlobRef := audioBlobRef s; timerRef := timerRef s;
     startTimeRef := startTimeRef s; pollTimeoutRef := v;
     recordingState := recordingState s; elapsedMs := elapsedMs s; error := error s;
     canSubmit := canSubmit s; transcriptionStatus := transcriptionStatus s;
     transcriptionText := transcriptionText s;
     transcriptionMessage := transcriptionMessage s; planError := planError s;
     browser := browser s |}.

Definition with_recordingState (v : RecordingState) (s : State) : State :=
  {| mediaRecorderRef := mediaRecorderRef s; audioChunksRef := audioChunksRef s;
     audioBlobRef := audioBlobRef s; timerRef := timerRef s;
     startTimeRef := startTimeRef s; pollTimeoutRef := pollTimeoutRef s;
     recordingState := v; elapsedMs := elapsedMs s; error := error s;
     canSubmit := canSubmit s; transcriptionStatus := transcriptionStatus s;
     transcriptionText := transcriptionText s;
     transcriptionMessage := transcriptionMessage s; planError := planError s;
     browser := browser s |}.

Definition with_elapsedMs (v : Z) (s : State) : State :=
  {| mediaRecorderRef := mediaRecorderRef s; audioChunksRef := audioChunksRef s;
     audioBlobRef := audioBlobRef s; timerRef := timerRef s;
     startTimeRef := startTimeRef s; pollTimeoutRef := pollTimeoutRef s;
     recordingState := recordingState s; elapsedMs := v; error := error s;
     canSubmit := canSubmit s; transcriptionStatus := transcriptionStatus s;
     transcriptionText := transcriptionText s;
     transcriptionMessage := transcriptionMessage s; planError := planError s;
     browser := browser s |}.

Definition with_error (v : string) (s : State) : State :=
  {| mediaRecorderRef := mediaRecorderRef s; audioChunksRef := audioChunksRef s;
     audioBlobRef := audioBlobRef s; timerRef := timerRef s;
     startTimeRef := startTimeRef s; pollTimeoutRef := pollTimeoutRef s;
     recordingState := recordingState s; elapsedMs := elapsedMs s; error := v;
     canSubmit := canSubmit s; transcriptionStatus := transcriptionStatus s;
     transcriptionText := transcriptionText s;
     transcriptionMessage := transcriptionMessage s; planError := planError s;
     browser := browser s |}.

Definition with_canSubmit (v : bool) (s : State) : State :=
  {| mediaRecorderRef := mediaRecorderRef s; audioChunksRef := audioChunksRef s;
     audioBlobRef := audioBlobRef s; timerRef := timerRef s;
     startTimeRef := startTimeRef s; pollTimeoutRef := pollTimeoutRef s;
     recordingState := recordingState s; elapsedMs := elapsedMs s; error := error s;
     canSubmit := v; transcriptionStatus := transcriptionStatus s;
     transcriptionText := transcriptionText s;
     transcriptionMessage := transcriptionMessage s; planError := planError s;
     browser := browser s |}.

Definition with_transcriptionStatus (v : TranscriptionStatus) (s : State) : State :=
  {| mediaRecorderRef := mediaRecorderRef s; audioChunksRef := audioChunksRef s;
     audioBlobRef := audioBlobRef s; timerRef := timerRef s;
     startTimeRef := startTimeRef s; pollTimeoutRef := pollTimeoutRef s;
     recordingState := recordingState s; elapsedMs := elapsedMs s; error := error s;
     canSubmit := canSubmit s; transcriptionStatus := v;
     transcriptionText := transcriptionText s;
     transcriptionMessage := transcriptionMessage s; planError := planError s;
     browser := browser s |}.

Definition with_transcriptionText (v : jsval) (s : State) : State :=
  {| mediaRecorderRef := mediaRecorderRef s; audioChunksRef := audioChunksRef s;
     audioBlobRef := audioBlobRef s; timerRef := timerRef s;
     startTimeRef := startTimeRef s; pollTimeoutRef := pollTimeoutRef s;
     recordingState := recordingState s; elapsedMs := elapsedMs s; error := error s;
     canSubmit := canSubmit s; transcriptionStatus := transcriptionStatus s;
     transcriptionText := v; transcriptionMessage := transcriptionMessage s;
     planError := planError s; browser := browser s |}.

Definition with_transcriptionMessage (v : string) (s : State) : State :=
  {| mediaRecorderRef := mediaRecorderRef s; audioChunksRef := audioChunksRef s;
     audioBlobRef := audioBlobRef s; timerRef := timerRef s;
     startTimeRef := startTimeRef s; pollTimeoutRef := pollTimeoutRef s;
     recordingState := recordingState s; elapsedMs := elapsedMs s; error := error s;
     canSubmit := canSubmit s; transcriptionStatus := transcriptionStatus s;
     transcriptionText := transcriptionText s; transcriptionMessage := v;
     planError := planError s; browser := browser s |}.

Definition with_planError (v : string) (s : State) : State :=
  {| mediaRecorderRef := mediaRecorderRef s; audioChunksRef := audioChunksRef s;
     audioBlobRef := audioBlobRef s; timerRef := timerRef s;
     startTimeRef := startTimeRef s; pollTimeoutRef := pollTimeoutRef s;
     recordingState := recordingState s; elapsedMs := elapsedMs s; error := error s;
     canSubmit := canSubmit s; transcriptionStatus := transcriptionStatus s;
     transcriptionText := transcriptionText s;
     transcriptionMessage := transcriptionMessage s; planError := v;
     browser := browser s |}.

Definition with_browser (v : Browser) (s : State) : State :=
  {| mediaRecorderRef := mediaRecorderRef s; audioChunksRef := audioChunksRef s;
     audioBlobRef := audioBlobRef s; timerRef := timerRef s;
     startTimeRef := startTimeRef s; pollTimeoutRef := pollTimeoutRef s;
     recordingState := recordingState s; elapsedMs := elapsedMs s; error := error s;
     canSubmit := canSubmit s; transcriptionStatus := transcriptionStatus s;
     transcriptionText := transcriptionText s;
     transcriptionMessage := transcriptionMessage s; planError := planError s;
     browser := v |}.

Definition initial : State :=
  {| mediaRecorderRef := None; audioChunksRef := []; audioBlobRef := None;
     timerRef := None; startTimeRef := None; pollTimeoutRef := None;
     recordingState := idle; elapsedMs := 0; error := ""; canSubmit := false;
     transcriptionStatus := t_idle; transcriptionText := VStr "";
     transcriptionMessage := "Processing transcription..."; planError := "";
     browser := fresh |}.

Definition startTimer (now : Z) (s : State) : State :=
  let s := with_startTimeRef (Some now) s in
  let s := with_elapsedMs 0 s in
  let '(id, b) := setInterval (browser s) in
  with_timerRef (Some id) (with_browser b s).

Definition stopTimer (s : State) : State :=
  match timerRef s with
  | Some id => with_timerRef None (with_browser (clearInterval id (browser s)) s)
  | None => s
  end.

(** The interval callback: [setElapsedMs(Date.now() - startTimeRef.current)]. *)
Definition tick (now : Z) (s : State) : State :=
  with_elapsedMs (now - default 0 (startTimeRef s)) s.

(** [startRecording], up to its [await]. *)
Definition startRecording_begin (s : State) : State :=
  let s := with_error "" s in
  let s := with_transcriptionStatus t_idle s in
  let s := with_transcriptionText (VStr "") s in
  let s := with_transcriptionMessage "Processing transcription..." s in
  let s := with_audioChunksRef [] s in
  let s := with_audioBlobRef None s in
  let s := with_canSubmit false s in
  with_browser (getUserMedia (browser s)) s.

(** [startRecording], after [getUserMedia] resolved. *)
Definition startRecording_granted (now : Z) (s : State) : State :=
  let '(stream, b1) := media_resolve (browser s) in
  let '(r, b2) := new_MediaRecorder stream b1 in
  let s := with_mediaRecorderRef (Some r) (with_browser b2 s) in
  let s := with_browser (rec_start r (browser s)) s in
  let s := with_recordingState recording s in
  startTimer now s.

(** [startRecording], after [getUserMedia] rejected: the [catch] branch. *)
Definition startRecording_denied (s : State) : State :=
  with_error "Failed to start recording. Please check microphone permissions."
    (with_browser (media_reject (browser s)) s).

(** [recorder.ondataavailable] *)
Definition ondataavailable (data : Blob) (s : State) : State :=
  if (0 <? length data)%nat then with_audioChunksRef (audioChunksRef s ++ [data]) s else s.

(** [recorder.onstop] of the recorder constructed on [stream]. *)
Definition onstop (stream : nat) (s : State) : State :=
  let s := with_audioBlobRef (Some (new_Blob (audioChunksRef s))) s in
  let s := with_canSubmit true s in
  with_browser (stop_tracks stream (browser s)) s.

Definition pauseRecording (now : Z) (s : State) : State :=
  match mediaRecorderRef s with
  | None => s
  | Some r =>
      match state_of r (browser s) with
      | Some Media.recording =>
          let s := with_browser (rec_pause r (browser s)) s in
          let s := with_recordingState paused s in
          stopTimer s
      | Some Media.paused =>
          (* Resume while maintaining elapsed time. *)
          let s := with_startTimeRef (Some (now - elapsedMs s)) s in
          let s := with_browser (rec_resume r (browser s)) s in
          let s := with_recordingState recording s in
          startTimer now s
      | _ => s
      end
  end.

Definition stopRecording (s : State) : State :=
  match mediaRecorderRef s with
  | None => s
  | Some r =>
      match state_of r (browser s) with
      | Some Media.recording | Some Media.paused =>
          let s := with_browser (rec_stop r (browser s)) s in
          let s := with_recordingState stopped s in
          stopTimer s
      | _ => s
      end
  end.

Definition resetView (s : State) : State :=
  let s := stopTimer s in
  let s := match pollTimeoutRef s with
           | Some id => with_browser (clearTimeout id (browser s)) s
           | None => s
           end in
  let s := with_recordingState idle s in
  let s := with_elapsedMs 0 s in
  let s := with_error "" s in
  let s := with_canSubmit false s in
  let s := with_audioChunksRef [] s in
  let s := with_audioBlobRef None s in
  let s := with_transcriptionStatus t_idle s in
  let s := with_transcriptionText (VStr "") s in
  let s := with_transcriptionMessage "Processing transcription..." s in
  with_planError "" s.

(** The effect cleanup run on unmount. *)
Definition unmount (s : State) : State :=
  let s := stopTimer s in
  let s := match pollTimeoutRef s with
           | Some id => with_browser (clearTimeout id (browser s)) s
           | None => s
           end in
  match mediaRecorderRef s with
  | Some r =>
      match state_of r (browser s) with
      | Some Media.recording | Some Media.paused =>
          with_browser (rec_stop r (browser s)) s
      | _ => s
      end
  | None => s
  end.

(** What the render makes of the state. *)
Definition isRecording (s : State) : bool := bool_decide (recordingState s = recording).
Definition isPaused (s : State) : bool := bool_decide (recordingState s = paused).
Definition recordBtn_disabled (s : State) : bool := isRecording s || isPaused s.
Definition pauseBtn_disabled (s : State) : bool := negb (isRecording s) && negb (isPaused s).
Definition stopBtn_disabled (s : State) : bool := negb (isRecording s) && negb (isPaused s).
Definition submitBtn_disabled (s : State) : bool := negb (canSubmit s).

(** *** Polling *)

Definition maxAttempts : nat := 100.
Definition delay : Z := 3000.

(** [executePoll] of [pollTranscription(transcriptId, attempt)], from the
    settled fetch to its end.  Gives the state and, when the next
    [pollTranscription(transcriptId, attempt + 1)] was scheduled, its attempt
    number, timer and delay. *)
Definition executePoll (response : FetchResult) (attempt : nat) (s : State)
    : State * option (nat * nat * Z) :=
  let catch message s :=
    with_transcriptionMessage (or_default message "Failed to get transcription")
      (with_transcriptionStatus t_error s) in
  match response with
  | NetworkError message => (catch message s, None)
  | HttpResponse false _ => (catch "Failed to get transcription status" s, None)
  | HttpResponse true (BadJson message) => (catch message s, None)
  | HttpResponse true (Json result) =>
      if strict_eq_str (get_field result "status") "completed" then
        let s := with_transcriptionStatus t_completed s in
        let s := with_transcriptionText
                   (js_or (get_field result "text")
                          (VStr "No transcription text available.")) s in
        (with_transcriptionMessage "Transcription completed." s, None)
      else if strict_eq_str (get_field result "status") "error" then
        (catch (ToString (js_or (get_field result "error") (VStr "Transcription failed"))) s,
         None)
      else
        let s := with_transcriptionStatus t_processing s in
        let s := with_transcriptionMessage
                   ("Processing transcription... ("
                    +:+ ToString (get_field result "status") +:+ ")") s in
        if (maxAttempts <=? attempt + 1)%nat then
          (catch "Transcription timeout. Please try again." s, None)
        else
          let '(timer, b) := setTimeout (browser s) in
          (with_pollTimeoutRef (Some timer) (with_browser b s),
           Some ((attempt + 1)%nat, timer, delay))
  end.

Definition status_url (transcriptId : jsval) : string :=
  "/api/transcript/" +:+ ToString transcriptId.

(** [pollTranscription(transcriptId, attempt)], driven by the scripted
    answers to its successive fetches.  A fetch without an answer in the
    script stays in flight. *)
Fixpoint pollTranscription (script : list FetchResult) (transcriptId : jsval)
    (attempt : nat) (s : State) : list Effect * State :=
  match script with
  | [] => ([Fetch (status_url transcriptId)], s)
  | response :: rest =>
      match executePoll response attempt s with
      | (s, Some (attempt, timer, delay)) =>
          (* the timer fires after [delay] *)
          let s := with_browser (timeout_fired timer (browser s)) s in
          let '(tr, s) := pollTranscription rest transcriptId attempt s in
          (Fetch (status_url transcriptId) :: SetTimeout delay :: tr, s)
      | (s, None) => ([Fetch (status_url transcriptId)], s)
      end
  end.

(** *** Submission *)

Record Network := {
  upload : FetchResult;
  transcribe : FetchResult;
  transcript : list FetchResult
}.

(** A POST that must succeed: gives the parsed body, or the message of the
    error thrown.  The body of a failed response is read with
    [.json().catch(() => ({}))]. *)
Definition expect_ok (response : FetchResult) (fallback : string) : string + jsobj :=
  match response with
  | NetworkError message => inl message
  | HttpResponse false (BadJson _) => inl fallback
  | HttpResponse false (Json errBody) =>
      inl (ToString (js_or (get_field errBody "error") (VStr fallback)))
  | HttpResponse true (BadJson message) => inl message
  | HttpResponse true (Json o) => inr o
  end.

Definition submitTranscription (net : Network) (s : State) : list Effect * State :=
  match audioBlobRef s with
  | None => ([], with_error "No audio recorded. Please record audio first." s)
  | Some _ =>
      let catch message s :=
        with_transcriptionMessage (or_default message "Failed to process transcription")
          (with_transcriptionStatus t_error s) in
      let s := with_error "" s in
      let s := with_transcriptionStatus t_uploading s in
      let s := with_transcriptionText (VStr "") s in
      let s := with_transcriptionMessage
                 "Uploading audio and processing transcription..." s in
      match expect_ok (upload net) "Failed to upload audio" with
      | inl message => ([Fetch "/api/upload"], catch message s)
      | inr o =>
          match expect_ok (transcribe net) "Failed to start transcription" with
          | inl message => ([Fetch "/api/upload"; Fetch "/api/transcribe"], catch message s)
          | inr o' =>
              let '(tr, s) :=
                pollTranscription (transcript net) (get_field o' "transcriptId") 0 s in
              (Fetch "/api/upload" :: Fetch "/api/transcribe" :: tr, s)
          end
      end
  end.

(** *** The session as a transition system *)

Inductive Event :=
  | ClickRecord                          (* [startRecording] is invoked *)
  | MediaGranted (now : Z)               (* its [getUserMedia] resolves *)
  | MediaDenied                          (* its [getUserMedia] rejects *)
  | ClickPause (now : Z)                 (* [pauseRecording] *)
  | ClickStop                            (* [stopRecording] *)
  | ClickBack                            (* [resetView] *)
  | DataAvailable (r : nat) (data : Blob)(* recorder [r] fires dataavailable *)
  | StopEvent (r : nat)                  (* recorder [r] fires stop *)
  | Tick (id : nat) (now : Z).           (* interval [id] fires *)

Definition enabled (e : Event) (s : State) : bool :=
  match e with
  | MediaGranted _ | MediaDenied => (0 <? pending_media (browser s))%nat
  | DataAvailable r _ => can_deliver_data r (browser s)
  | StopEvent r => can_deliver_stop r (browser s)
  | Tick id _ => bool_decide (id ∈ intervals (browser s))
  | _ => true
  end.

Definition step (e : Event) (s : State) : State :=
  match e with
  | ClickRecord => startRecording_begin s
  | MediaGranted now => startRecording_granted now s
  | MediaDenied => startRecording_denied s
  | ClickPause now => pauseRecording now s
  | ClickStop => stopRecording s
  | ClickBack => resetView s
  | DataAvailable _ data => ondataavailable data s
  | StopEvent r =>
      match recorders (browser s) !! r with
      | Some m => onstop (rstream m) (with_browser (stop_delivered r (browser s)) s)
      | None => s
      end
  | Tick _ now => tick now s
  end.

Fixpoint run (events : list Event) (s : State) : option State :=
  match events with
  | [] => Some s
  | e :: rest => if enabled e s then run rest (step e s) else None
  end.

End Index.

(** ** Vocabulary of the properties *)

Module Props.
Import Media Net.

(** The two status values that end the polling. *)
Definition terminal (status : jsval) : bool :=
  strict_eq_str status "completed" || strict_eq_str status "error".

(** A settled status fetch whose job is neither completed nor failed. *)
Definition in_progress (response : FetchResult) : bool :=
  match response with
  | HttpResponse true (Json result) => negb (terminal (get_field result "status"))
  | _ => false
  end.

(** A fetch that fails at the transport level. *)
Definition transport_failure (response : FetchResult) : bool :=
  match response with
  | NetworkError _ => true
  | HttpResponse ok _ => negb ok
  end.

(** The message shown for a transport failure: the rejection's own message
    (or the default one), or the fixed message of a non-success response. *)
Definition transport_error_message (response : FetchResult) : string :=
  match response with
  | NetworkError message => or_default message "Failed to get transcription"
  | HttpResponse _ _ => "Failed to get transcription status"
  end.

(** [n] fetches of [url], each but the last followed by a timer of 3000 ms. *)
Fixpoint polling_trace (url : string) (n : nat) : list Effect :=
  match n with
  | O => []
  | S O => [Fetch url]
  | S n' => Fetch url :: SetTimeout 3000 :: polling_trace url n'
  end.

(** The requests on which the planning call is made. *)
Definition accepted (req : Planner.Request Planner.field) : Prop :=
  Planner.method req = "POST"
  ∧ Planner.field_truthy (Planner.session_id (Planner.fields_of req)) = true
  ∧ Planner.field_truthy (Planner.treatment_planner_text (Planner.fields_of req)) = true
  ∧ Planner.truncation_throws (Planner.treatment_planner_text (Planner.fields_of req))
    = false.

(** A timeout-class error: a connection abort ([ECONNABORTED]), a timeout
    ([ETIMEDOUT]), or a message that names a timeout. *)
Definition timeout_class (e : Planner.AxiosError) : Prop :=
  Planner.code e = Some "ECONNABORTED"
  ∨ Planner.code e = Some "ETIMEDOUT"
  ∨ ∃ m, Planner.message e = Some m ∧ includes (toLowerCase m) "timeout" = true.

(** The response of a planning call that failed for good. *)
Definition failure (timeout_like : bool) (e : Planner.AxiosError) : Planner.Response :=
  {| Planner.status := if timeout_like then 504 else 500;
     Planner.json :=
       Planner.BFailure "Failed to generate treatment plans" (Some (Planner.details_of e)) |}.

(** *** Statements that the sources do not satisfy as they are worded *)


(** "finalAudio is non-null if and only if the state is Stopped and at least
    one chunk was captured", over the states of [pages/index.js]. *)
Definition final_audio_iff_stopped_with_chunks : Prop :=
  ∀ events s,
    Index.run events Index.initial = Some s →
    (Index.audioBlobRef s ≠ None
     ↔ Index.recordingState s = Index.stopped ∧ Index.audioChunksRef s ≠ []).

(** "From every state reset() yields Idle, a null finalAudio and an empty chunk
    sequence, and releases any capture device still held." *)
Definition reset_clears_and_releases_App : Prop :=
  ∀ events rec_d pause_d stop_d submit_d s,
    App.run events (App.initial rec_d pause_d stop_d submit_d) = Some s →
    let s' := App.resetView s in
    App.session_state s' = App.Idle ∧ App.audioBlob s' = None
    ∧ App.audioChunks s' = [] ∧ held (App.browser s') = 0%nat.

Definition reset_clears_and_releases_Index : Prop :=
  ∀ events s,
    Index.run events Index.initial = Some s →
    let s' := Index.resetView s in
    Index.recordingState s' = Index.idle ∧ Index.audioBlobRef s' = None
    ∧ Index.audioChunksRef s' = [] ∧ held (Index.browser s') = 0%nat.

(** "In Recording or Paused, start() acquires no second device handle: at
    most one handle is ever held." *)
Definition start_never_holds_two : Prop :=
  ∀ events s now,
    Index.run events Index.initial = Some s →
    Index.recordingState s = Index.recording ∨ Index.recordingState s = Index.paused →
    (held (Index.browser
             (Index.startRecording_granted now (Index.startRecording_begin s))) ≤ 1)%nat.

(** "In every state other than Recording, pause() is a no-op." *)
Definition pause_is_noop_outside_recording : Prop :=
  ∀ events s now,
    Index.run events Index.initial = Some s →
    Index.recordingState s ≠ Index.recording →
    Index.pauseRecording now s = s.

(** *** Vocabulary of the amended statements *)

(** Whether a stop callback has run with no [resetView] (and, in
    [pages/index.js], no start of [startRecording]) after it. *)
Definition App_final_audio_after (events : list App.Event) : bool :=
  fold_left (λ acc e, match e with
                      | App.StopEvent _ => true
                      | App.ClickBack => false
                      | _ => acc
                      end) events false.

Definition Index_final_audio_after (events : list Index.Event) : bool :=
  fold_left (λ acc e, match e with
                      | Index.StopEvent _ => true
                      | Index.ClickBack | Index.ClickRecord => false
                      | _ => acc
                      end) events false.

(** The state of the recorder the session refers to, if any. *)
Definition App_recorder (s : App.State) : option RecorderState :=
  App.mediaRecorder s ≫= λ r, state_of r (App.browser s).

Definition Index_recorder (s : Index.State) : option RecorderState :=
  Index.mediaRecorderRef s ≫= λ r, state_of r (Index.browser s).

(** The session state and the recorder agree (a session shown as idle may
    still refer to any recorder). *)
Definition Index_synced (s : Index.State) : Prop :=
  match Index.recordingState s with
  | Index.idle => True
  | Index.recording => Index_recorder s = Some Media.recording
  | Index.paused => Index_recorder s = Some Media.paused
  | Index.stopped => Index_recorder s = Some Media.inactive
  end.

(** The flags, the recorder and the record button agree. *)
Definition App_synced (s : App.State) : Prop :=
  match App_recorder s with
  | Some Media.recording =>
      App.isRecording s = true ∧ App.isPaused s = false ∧ App.recordBtn_disabled s = true
  | Some Media.paused => App.isRecording s = true ∧ App.isPaused s = true
  | Some Media.inactive | None => App.isRecording s = false ∧ App.isPaused s = false
  end.

(** A chunk of recorded audio. *)
Definition one_chunk : Blob := [Byte.x52; Byte.x49].

End Props.

(** ** Field labels of the planner page: [labelize] of [pages/planner.js] *)

Module Label.

(** A string is the sequence of its UTF-16 code units, here those below 256. *)
Definition code (c : Ascii.ascii) : N := Ascii.N_of_ascii c.

(** [\w]: a Latin letter, a digit or the underscore. *)
Definition is_word (c : Ascii.ascii) : bool :=
  ((48 <=? code c) && (code c <=? 57) || (65 <=? code c) && (code c <=? 90)
   || (code c =? 95) || (97 <=? code c) && (code c <=? 122))%N.

(** [\s], the complement of [\S]: tab, line feed, vertical tab, form feed,
    carriage return, space and no-break space are the white space and line
    terminators below 256. *)
Definition is_space (c : Ascii.ascii) : bool :=
  ((9 <=? code c) && (code c <=? 13) || (code c =? 32) || (code c =? 160))%N.

(** [c.toUpperCase()] for a character [c] that matches [\w]. *)
Definition upper (c : Ascii.ascii) : Ascii.ascii :=
  if ((97 <=? code c) && (code c <=? 122))%N then Ascii.ascii_of_N (code c - 32) else c.

(** [s.replace(/_/g, " ")] *)
Fixpoint spaces (s : string) : string :=
  match s with
  | EmptyString => EmptyString
  | String c r => String (if (code c =? 95)%N then Ascii.ascii_of_N 32 else c) (spaces r)
  end.

(** [s.replace(/\w\S*/g, (w) => w.charAt(0).toUpperCase() + w.slice(1))],
    read from left to right: outside a match, a [\w] character starts one and
    is replaced by its upper case, any other character is kept; inside a
    match ([in_match]), every character is kept, and the match goes on up to
    the first white space. *)
Fixpoint capitalize (in_match : bool) (s : string) : string :=
  match s with
  | EmptyString => EmptyString
  | String c r =>
      if in_match then String c (capitalize (negb (is_space c)) r)
      else if is_word c then String (upper c) (capitalize true r)
      else String c (capitalize false r)
  end.

Definition labelize (key : string) : string := capitalize false (spaces key).

(** The characters of a string. *)
Fixpoint chars (s : string) : list Ascii.ascii :=
  match s with
  | EmptyString => []
  | String c r => c :: chars r
  end.

End Label.

(** ** The timer display: [formatTime] of [pages/index.js] and
       [updateTimerDisplay] of [public/app.js] *)

Module Clock.

(** [s.padStart(target, fill)] with a one-character [fill]. *)
Definition padStart (target : nat) (fill : Ascii.ascii) (s : string) : string :=
  String.string_of_list_ascii (replicate (target - String.length s) fill) +:+ s.

(** The text of the timer for an elapsed time in milliseconds.  [Math.floor]
    of a quotient is the floor division, [%] takes the sign of the dividend. *)
Definition formatTime (ms : Z) : string :=
  let totalSeconds := ms `div` 1000 in
  let minutes := totalSeconds `div` 60 in
  let seconds := totalSeconds `rem` 60 in
  padStart 2 (Ascii.ascii_of_N 48) (pretty minutes) +:+ ":" +:+ padStart 2 (Ascii.ascii_of_N 48) (pretty seconds).

(** A decimal digit as a character, and a number below 100 written with two
    digits. *)
Definition digit (d : Z) : Ascii.ascii := Ascii.ascii_of_N (48 + Z.to_N d).

Definition two_digits (n : Z) : string :=
  String (digit (n `div` 10)) (String (digit (n `mod` 10)) "").

End Clock.

(** ** The AssemblyAI proxy handlers of [pages/api]: job start, job status,
       upload *)

Module Api.
Import Media.

(** What the provider does with a request: a 2xx reply with its JSON data
    (the scalar properties), or a rejection of the axios promise. *)
Inductive Provider :=
  | Resolved (data : jsobj)
  | Rejected (error : Planner.AxiosError).

Inductive CallBody :=
  | NoBody
  | JsonBody (fields : list (string * jsval))
  | Bytes (content : Blob).

(** Requests sent to the provider, and sleeps. *)
Inductive Effect :=
  | Call (verb url : string) (body : CallBody) (authorization : string)
  | Sleep (ms : Z).

Definition is_call (e : Effect) : bool :=
  match e with
  | Call _ _ _ _ => true
  | Sleep _ => false
  end.

Definition calls (tr : list Effect) : nat := length (List.filter is_call tr).

Inductive ResBody :=
  | BError (error : string) (details : option Planner.jsdata)
  | BObject (fields : list (string * jsval))
  | BData (data : jsobj).

Record Response := { status : Z; json : ResBody }.

Definition builtin_key : string := "dcdc1cd44c08485789174de212de84c6".

(** [process.env.ASSEMBLYAI_API_KEY || "dcdc…"] *)
Definition apiKey (env : option string) : string :=
  match env with
  | Some k => if String.eqb k "" then builtin_key else k
  | None => builtin_key
  end.

(** [error.response?.data || error.message || fallback]; without a fallback
    the value may be falsy, and [res.json] then leaves the property out or
    sends the falsy scalar. *)
Definition details_or (fallback : option string) (error : Planner.AxiosError)
    : option Planner.jsdata :=
  let of_message :=
    match Planner.message error with
    | Some m => if String.eqb m "" then
                  match fallback with
                  | Some f => Some (Planner.JScalar (VStr f))
                  | None => Some (Planner.JScalar (VStr ""))
                  end
                else Some (Planner.JScalar (VStr m))
    | None => Planner.JScalar ∘ VStr <$> fallback
    end in
  match Planner.response_data error with
  | Some d => if Planner.data_truthy d then Some d else of_message
  | None => of_message
  end.

(** *** Job start: [POST /api/transcribe] *)

Definition transcribe (env : option string) (req : Planner.Request jsval) (up : Provider)
    : list Effect * Response :=
  if negb (String.eqb (Planner.method req) "POST") then
    ([], {| status := 405; json := BError "Method not allowed" None |})
  else
    let apiKey := apiKey env in
    if String.eqb apiKey "" then
      ([], {| status := 500; json := BError "Missing AssemblyAI API key" None |})
    else
      let audioUrl := get_field (default ∅ (Planner.body req)) "audioUrl" in
      if negb (truthy audioUrl) then
        ([], {| status := 400; json := BError "Audio URL is required" None |})
      else
        let call :=
          Call "POST" "https://api.assemblyai.com/v2/transcript"
            (JsonBody (json_fields [("audio_url", audioUrl);
                                    ("speech_model", VStr "universal")]%string))
            apiKey in
        match up with
        | Resolved data =>
            ([call], {| status := 200;
                        json := BObject (json_fields
                                  [("transcriptId", get_field data "id")]%string) |})
        | Rejected error =>
            ([call], {| status := 500;
                        json := BError "Failed to start transcription"
                                  (details_or (Some "Failed to start transcription") error) |})
        end.

(** *** Job status: [GET /api/transcript/[id]] *)

Record StatusRequest := {
  s_method : string;
  id : option string               (* [req.query.id] *)
}.

Definition transcript (env : option string) (req : StatusRequest) (up : Provider)
    : list Effect * Response :=
  if negb (String.eqb (s_method req) "GET") then
    ([], {| status := 405; json := BError "Method not allowed" None |})
  else
    let apiKey := apiKey env in
    if String.eqb apiKey "" then
      ([], {| status := 500; json := BError "Missing AssemblyAI API key" None |})
    else
      match id req with
      | None => ([], {| status := 400; json := BError "Transcript id is required" None |})
      | Some id =>
          if String.eqb id "" then
            ([], {| status := 400; json := BError "Transcript id is required" None |})
          else
            let call := Call "GET" ("https://api.assemblyai.com/v2/transcript/" +:+ id)
                          NoBody apiKey in
            match up with
            | Resolved data => ([call], {| status := 200; json := BData data |})
            | Rejected error =>
                ([call], {| status := 500;
                            json := BError "Failed to get transcription status"
                                      (details_or (Some "Failed to fetch transcription")
                                         error) |})
            end
      end.

(** *** Upload: [POST /api/upload] *)

(** A file as formidable hands it over: where it was stored, and what
    [fs.readFile] gives for that path. *)
Record File := {
  filepath : option string;
  content : Planner.AxiosError + Blob
}.

(** [files.audio]: absent, one file, or an array of files. *)
Inductive FileField :=
  | Absent
  | One (f : File)
  | Many (fs : list File).

Record UploadRequest := {
  u_method : string;
  form : Planner.AxiosError + FileField     (* [form.parse]: error, or the files *)
}.

(** [Array.isArray(file) ? file[0] : file] *)
Definition audioFile (file : FileField) : option File :=
  match file with
  | Absent => None
  | One f => Some f
  | Many fs => head fs
  end.

Definition upload (env : option string) (req : UploadRequest) (up : Provider)
    : list Effect * Response :=
  let failed error :=
    {| status := 500;
       json := BError "Failed to upload audio" (details_or (Some "Upload failed") error) |} in
  if negb (String.eqb (u_method req) "POST") then
    ([], {| status := 405; json := BError "Method not allowed" None |})
  else
    let apiKey := apiKey env in
    if String.eqb apiKey "" then
      ([], {| status := 500; json := BError "Missing AssemblyAI API key" None |})
    else
      match form req with
      | inl error => ([], failed error)
      | inr file =>
          match audioFile file with
          | None => ([], {| status := 400; json := BError "No audio file provided" None |})
          | Some f =>
              match filepath f with
              | None => ([], {| status := 400; json := BError "No audio file provided" None |})
              | Some path =>
                  if String.eqb path "" then
                    ([], {| status := 400; json := BError "No audio file provided" None |})
                  else
                    match content f with
                    | inl error => ([], failed error)
                    | inr fileBuffer =>
                        let call := Call "POST" "https://api.assemblyai.com/v2/upload"
                                      (Bytes fileBuffer) apiKey in
                        match up with
                        | Resolved data =>
                            ([call],
                             {| status := 200;
                                json := BObject (json_fields
                                          [("uploadUrl", get_field data "upload_url")]%string) |})
                        | Rejected error => ([call], failed error)
                        end
                    end
              end
          end
      end.

(** *** What the browser's [fetch] makes of a response *)

(** The parsed body, as far as the pages read it: the properties of an
    object, the [error] of an error body and its [details] when scalar. *)
Definition body_object (b : ResBody) : jsobj :=
  match b with
  | BError error details =>
      <[ "error" := VStr error ]>
        (match details with
         | Some (Planner.JScalar v) => {[ "details" := v ]}
         | _ => ∅
         end)
  | BObject fields => list_to_map fields
  | BData data => data
  end.

(** [response.ok] is a status from 200 to 299. *)
Definition as_fetch (r : Response) : Net.FetchResult :=
  Net.HttpResponse (bool_decide (200 ≤ status r ≤ 299)) (Net.Json (body_object (json r))).

End Api.

(** ** The Express server of [server.js] *)

Module Express.
Import Media.

(** [app.post("/api/transcribe")]: the whole body is inside the [try], so a
    request without a parsed body fails in the destructuring, with the
    engine's message for that TypeError. *)
Definition transcribe (type_error : string) (body : option jsobj) (up : Api.Provider)
    : list Api.Effect * Api.Response :=
  match body with
  | None =>
      ([], {| Api.status := 500;
              Api.json := Api.BError "Failed to start transcription"
                            (Api.details_or None
                               {| Planner.code := None; Planner.message := Some type_error;
                                  Planner.response_data := None |}) |})
  | Some body =>
      let audioUrl := get_field body "audioUrl" in
      if negb (truthy audioUrl) then
        ([], {| Api.status := 400; Api.json := Api.BError "Audio URL is required" None |})
      else
        let call :=
          Api.Call "POST" "https://api.assemblyai.com/v2/transcript"
            (Api.JsonBody (json_fields [("audio_url", audioUrl);
                                        ("speech_model", VStr "universal")]%string))
            "dcdc1cd44c08485789174de212de84c6" in
        match up with
        | Api.Resolved data =>
            ([call], {| Api.status := 200;
                        Api.json := Api.BObject (json_fields
                                      [("transcriptId", get_field data "id")]%string) |})
        | Api.Rejected error =>
            ([call], {| Api.status := 500;
                        Api.json := Api.BError "Failed to start transcription"
                                      (Api.details_or None error) |})
        end
  end.

(** [app.get("/api/transcript/:id")]: the route only matches a non-empty id. *)
Definition transcript (id : string) (up : Api.Provider)
    : list Api.Effect * Api.Response :=
  let call := Api.Call "GET" ("https://api.assemblyai.com/v2/transcript/" +:+ id)
                Api.NoBody "dcdc1cd44c08485789174de212de84c6" in
  match up with
  | Api.Resolved data => ([call], {| Api.status := 200; Api.json := Api.BData data |})
  | Api.Rejected error =>
      ([call], {| Api.status := 500;
                  Api.json := Api.BError "Failed to get transcription status"
                                (Api.details_or None error) |})
  end.

(** [app.post("/api/upload", upload.single("audio"))]: [req.file] is the
    uploaded file held in memory, if any. *)
Definition upload (file : option Blob) (up : Api.Provider)
    : list Api.Effect * Api.Response :=
  match file with
  | None => ([], {| Api.status := 400; Api.json := Api.BError "No audio file provided" None |})
  | Some buffer =>
      let call := Api.Call "POST" "https://api.assemblyai.com/v2/upload"
                    (Api.Bytes buffer) "dcdc1cd44c08485789174de212de84c6" in
      match up with
      | Api.Resolved data =>
          ([call], {| Api.status := 200;
                      Api.json := Api.BObject (json_fields
                                    [("uploadUrl", get_field data "upload_url")]%string) |})
      | Api.Rejected error =>
          ([call], {| Api.status := 500;
                      Api.json := Api.BError "Failed to upload audio"
                                    (Api.details_or None error) |})
      end
  end.

End Express.

(** ** The command-line transcription script *)

Module Cli.

Inductive Outcome :=
  | Printed (text : jsval)          (* [console.log(transcriptionResult.text)] *)
  | Threw (message : string)        (* an error thrown by the script *)
  | Failed (error : Planner.AxiosError)   (* a rejected request, not caught *)
  | Waiting.                        (* a request without an answer yet *)

Definition audioUrl : string := "https://assembly.ai/wildfires.mp3".
Definition key : string := "dcdc1cd44c08485789174de212de84c6".

Definition status_call (transcriptId : jsval) : Api.Effect :=
  Api.Call "GET" ("https://api.assemblyai.com/v2/transcript/" +:+ ToString transcriptId)
    Api.NoBody key.

(** The [while (true)] loop, driven by the answers to its successive
    requests. *)
Fixpoint poll (script : list Api.Provider) (transcriptId : jsval)
    : list Api.Effect * Outcome :=
  match script with
  | [] => ([status_call transcriptId], Waiting)
  | Api.Rejected error :: _ => ([status_call transcriptId], Failed error)
  | Api.Resolved transcriptionResult :: rest =>
      if strict_eq_str (get_field transcriptionResult "status") "completed" then
        ([status_call transcriptId], Printed (get_field transcriptionResult "text"))
      else if strict_eq_str (get_field transcriptionResult "status") "error" then
        ([status_call transcriptId],
         Threw ("Transcription failed: " +:+ ToString (get_field transcriptionResult "error")))
      else
        let '(tr, out) := poll rest transcriptId in
        (status_call transcriptId :: Api.Sleep 3000 :: tr, out)
  end.

Definition main (start : option Api.Provider) (script : list Api.Provider)
    : list Api.Effect * Outcome :=
  let call :=
    Api.Call "POST" "https://api.assemblyai.com/v2/transcript"
      (Api.JsonBody (json_fields [("audio_url", VStr audioUrl);
                                  ("speech_model", VStr "universal")]%string)) key in
  match start with
  | None => ([call], Waiting)
  | Some (Api.Rejected error) => ([call], Failed error)
  | Some (Api.Resolved data) =>
      let '(tr, out) := poll script (get_field data "id") in
      (call :: tr, out)
  end.

End Cli.

(** ** The pages in front of their servers *)

Module Served.
Import Media Net.

(** What the platform decides between a page and its server.
    - [formidable]: what the form parser of [pages/api] makes of an [audio]
      part within its size limit: an error (formidable 3 refuses an empty
      file, for one), or the path of the file it stored the part in;
    - [too_large]: the error of the form parser for a part over the limit;
    - [multer]: whether multer, in [server.js], takes an [audio] part that is
      not over its limit (at the limit itself its parser decides);
    - [routed]: what the URL parser and the router make of the text that a
      page puts after [/api/transcript/]: the [id] parameter of the status
      route, or no match (the text is put there as it is, so a slash, a
      question mark, a hash or a percent sign in it does not arrive as
      such);
    - [not_json]: the message with which [response.json()] rejects a body
      that is not JSON, such as the page the server sends when no route
      matches or a middleware fails. *)
Record Platform := {
  formidable : Blob → Planner.AxiosError + string;
  too_large : Planner.AxiosError;
  multer : Blob → bool;
  routed : string → option string;
  not_json : string
}.

(** [maxFileSize] of the form parser in [pages/api] and [limits.fileSize] of
    multer in [server.js]: 100 MB. *)
Definition maxFileSize : Z := 100 * 1024 * 1024.

(** The request of [fetch("/api/upload", { method: "POST", body: formData })]
    as the upload handler of [pages/api] sees it: what [parseForm] gives for
    the [audio] part. *)
Definition upload_request (platform : Platform) (audio : Blob) : Api.UploadRequest :=
  {| Api.u_method := "POST";
     Api.form :=
       if maxFileSize <? Z.of_nat (length audio) then inl (too_large platform)
       else
         match formidable platform audio with
         | inl error => inl error
         | inr path =>
             inr (Api.One {| Api.filepath := Some path; Api.content := inr audio |})
         end |}.

(** [fetch("/api/transcribe", { method: "POST", body: JSON.stringify({ audioUrl: uploadUrl }) })] *)
Definition transcribe_request (uploadUrl : jsval) : Planner.Request jsval :=
  {| Planner.method := "POST";
     Planner.body := Some (list_to_map (json_fields [("audioUrl", uploadUrl)]%string)) |}.

(** [fetch(`/api/transcript/${transcriptId}`)], when it reaches the status
    route. *)
Definition status_request (platform : Platform) (transcriptId : jsval)
    : option Api.StatusRequest :=
  (λ id, {| Api.s_method := "GET"; Api.id := Some id |})
    <$> routed platform (ToString transcriptId).

(** The answer to a request that no route matches, or that a middleware
    ends with an error: not ok, and not JSON. *)
Definition no_handler (platform : Platform) : FetchResult :=
  HttpResponse false (BadJson (not_json platform)).

(** A property of the parsed reply, as the pages destructure it. *)
Definition reply_field (r : FetchResult) (k : string) : jsval :=
  match r with
  | HttpResponse _ (Json o) => get_field o k
  | _ => VUndefined
  end.

(** What [pages/index.js] gets from the handlers of [pages/api] when the
    provider answers the upload with [p_upload], the job start with [p_start]
    and the successive status requests with [p_status]. *)
Definition network (env : option string) (platform : Platform) (audio : Blob)
    (p_upload p_start : Api.Provider) (p_status : list Api.Provider) : Index.Network :=
  let upload := Api.as_fetch (Api.upload env (upload_request platform audio) p_upload).2 in
  let transcribe :=
    Api.as_fetch (Api.transcribe env
                    (transcribe_request (reply_field upload "uploadUrl")) p_start).2 in
  let transcript :=
    (λ p, match status_request platform (reply_field transcribe "transcriptId") with
          | Some req => Api.as_fetch (Api.transcript env req p).2
          | None => no_handler platform
          end) <$> p_status in
  {| Index.upload := upload; Index.transcribe := transcribe; Index.transcript := transcript |}.


(** A provider reply to a status request, by its status. *)
Definition running (data : jsobj) : bool :=
  negb (Props.terminal (get_field data "status")).

(** A platform for the examples: the form parser stores every part that is
    not empty, multer takes every part below the limit, and the URL carries
    the ids made of letters, digits and hyphens. *)
Definition plain_id (id : string) : bool :=
  negb (String.eqb id "")
  && forallb (λ c, Label.is_word c || (Label.code c =? 45)%N) (Label.chars id).

Definition example_platform : Platform :=
  {| formidable := λ audio,
       match audio with
       | [] => inl {| Planner.code := None;
                      Planner.message := Some "options.allowEmptyFiles is false";
                      Planner.response_data := None |}
       | _ => inr "/tmp/upload_1"
       end;
     too_large := {| Planner.code := None;
                     Planner.message := Some "options.maxFileSize exceeded";
                     Planner.response_data := None |};
     multer := λ audio, Z.of_nat (length audio) <? maxFileSize;
     routed := λ id, if plain_id id then Some id else None;
     not_json := "Unexpected token < in JSON" |}.

End Served.

(** ** Structured values: the plans of the planner page *)

Module Tree.

(** A JavaScript value as [JSON.parse], object literals, spreads and array
    literals make them: a scalar, an array, or a plain object given by its own
    properties.  Numbers are the integral ones and strings hold characters
    below 256, as elsewhere; properties inherited from a prototype are not
    part of the model. *)
#[warnings="-register-all"]
Inductive jsvalue :=
  | Undefined
  | Null
  | Bool (b : bool)
  | Num (n : Z)
  | Str (s : string)
  | Arr (items : list jsvalue)
  | Obj (fields : gmap string jsvalue).

(** ToBoolean. *)
Definition truthy (v : jsvalue) : bool :=
  match v with
  | Undefined | Null => false
  | Bool b => b
  | Num n => negb (n =? 0)
  | Str s => negb (String.eqb s "")
  | Arr _ | Obj _ => true
  end.

(** [a || b] *)
Definition or (a b : jsvalue) : jsvalue := if truthy a then a else b.

(** [v?.name] for a property name that is neither an array index nor
    [length]: only an object has such a property of its own. *)
Definition opt_prop (v : jsvalue) (name : string) : jsvalue :=
  match v with
  | Obj fields => default Undefined (fields !! name)
  | _ => Undefined
  end.

(** [{ ...v }]: the own enumerable properties of [v]; those of an array or a
    string are its indices. *)
Definition spread (v : jsvalue) : gmap string jsvalue :=
  match v with
  | Obj fields => fields
  | Arr items => list_to_map (imap (λ i x, (pretty i, x)) items)
  | Str s => list_to_map (imap (λ i c, (pretty i, Str (String c ""))) (Label.chars s))
  | _ => ∅
  end.

(** [[...v]]: the items of an array (or the characters of a string); any
    other value is not iterable and the spread throws a TypeError ([None]). *)
Definition iterate (v : jsvalue) : option (list jsvalue) :=
  match v with
  | Arr items => Some items
  | Str s => Some ((λ c, Str (String c "")) <$> Label.chars s)
  | _ => None
  end.

(** [items[i]] *)
Definition item (items : list jsvalue) (i : nat) : jsvalue := default Undefined (items !! i).

(** [items[i] = v]: an index past the end extends the array, the items in
    between reading as [undefined]. *)
Definition set_item (i : nat) (v : jsvalue) (items : list jsvalue) : list jsvalue :=
  if (i <? length items)%nat then <[i := v]> items
  else items ++ replicate (i - length items) Undefined ++ [v].

(** [o[key] = v] on an object made by a literal or a spread.  The key is set
    as an own property, unless it is ["__proto__"] and the object has no own
    property of that name: the assignment then reaches the setter of
    [Object.prototype] and sets no property. *)
Definition assign (key : string) (v : jsvalue) (fields : gmap string jsvalue)
    : gmap string jsvalue :=
  if bool_decide (key = "__proto__" ∧ fields !! key = None) then fields
  else <[key := v]> fields.

(** ToString, as used for property keys and by [new Error(v)]; numbers are
    the integers that JavaScript prints in full (below 10^21 in magnitude). *)
Fixpoint join (sep : string) (l : list string) : string :=
  match l with
  | [] => ""
  | [x] => x
  | x :: r => x +:+ sep +:+ join sep r
  end.

Fixpoint ToString (v : jsvalue) : string :=
  match v with
  | Undefined => "undefined"
  | Null => "null"
  | Bool true => "true"
  | Bool false => "false"
  | Num n => pretty n
  | Str s => s
  | Arr items =>
      join "," ((λ x, match x with Undefined | Null => "" | _ => ToString x end) <$> items)
  | Obj _ => "[object Object]"
  end.

(** [JSON.parse(JSON.stringify(v))] for a value other than [undefined]
    itself: a property that is [undefined] is left out, an item that is
    [undefined] becomes [null]. *)
Fixpoint clone (v : jsvalue) : jsvalue :=
  match v with
  | Arr items => Arr ((λ x, match x with Undefined => Null | _ => clone x end) <$> items)
  | Obj fields =>
      Obj (omap (λ x, match x with Undefined => None | _ => Some (clone x) end) fields)
  | _ => v
  end.

(** The values [JSON.parse] gives: those that hold no [undefined]. *)
Fixpoint parsed (v : jsvalue) : bool :=
  match v with
  | Undefined => false
  | Arr items => forallb parsed items
  | Obj fields => map_fold (λ _ x b, parsed x && b) true fields
  | _ => true
  end.

(** The TypeErrors of the page; their messages are the engine's. *)
Inductive Fault :=
  | ReadOfNullish (property : string)   (* reading a property of null or undefined *)
  | NotAFunction (callee : string).     (* calling what is not a function *)

(** [v.name] for a property name that is neither an array index nor
    [length]. *)
Definition prop (v : jsvalue) (name : string) : Fault + jsvalue :=
  match v with
  | Undefined | Null => inl (ReadOfNullish name)
  | _ => inr (opt_prop v name)
  end.

End Tree.

(** ** The planner page: [pages/planner.js] *)

Module PlannerPage.
Import Tree.

(** *** The page and its request *)

Inductive Status := s_idle | s_loading | s_ready | s_selected | s_error.

#[global] Instance Status_eq_dec : EqDecision Status.
Proof. solve_decision. Defined.

(** The state variables of the [Planner] component. *)
Record State := {
  transcriptionText : string;
  sessionId : string;
  status : Status;
  plans : list jsvalue;
  planEdits : gmap string jsvalue;
  selectedPlanId : jsvalue;
  error : string
}.

Definition with_transcriptionText (v : string) (s : State) : State :=
  {| transcriptionText := v; sessionId := sessionId s; status := status s;
     plans := plans s; planEdits := planEdits s; selectedPlanId := selectedPlanId s;
     error := error s |}.

Definition with_sessionId (v : string) (s : State) : State :=
  {| transcriptionText := transcriptionText s; sessionId := v; status := status s;
     plans := plans s; planEdits := planEdits s; selectedPlanId := selectedPlanId s;
     error := error s |}.

Definition with_status (v : Status) (s : State) : State :=
  {| transcriptionText := transcriptionText s; sessionId := sessionId s; status := v;
     plans := plans s; planEdits := planEdits s; selectedPlanId := selectedPlanId s;
     error := error s |}.

Definition with_plans (v : list jsvalue) (s : State) : State :=
  {| transcriptionText := transcriptionText s; sessionId := sessionId s;
     status := status s; plans := v; planEdits := planEdits s;
     selectedPlanId := selectedPlanId s; error := error s |}.

Definition with_planEdits (v : gmap string jsvalue) (s : State) : State :=
  {| transcriptionText := transcriptionText s; sessionId := sessionId s;
     status := status s; plans := plans s; planEdits := v;
     selectedPlanId := selectedPlanId s; error := error s |}.

Definition with_selectedPlanId (v : jsvalue) (s : State) : State :=
  {| transcriptionText := transcriptionText s; sessionId := sessionId s;
     status := status s; plans := plans s; planEdits := planEdits s;
     selectedPlanId := v; error := error s |}.

Definition with_error (v : string) (s : State) : State :=
  {| transcriptionText := transcriptionText s; sessionId := sessionId s;
     status := status s; plans := plans s; planEdits := planEdits s;
     selectedPlanId := selectedPlanId s; error := v |}.

Definition initial : State :=
  {| transcriptionText := ""; sessionId := ""; status := s_idle; plans := [];
     planEdits := ∅; selectedPlanId := Str ""; error := "" |}.

Definition slotId : string := "b553d02b-102c-457b-b525-0bfca777b191".
Definition userId : string := "user-123".

(** [createSessionId]: [randomUUID] is what [crypto.randomUUID()] returns
    where it exists, [now] is [Date.now()]. *)
Definition createSessionId (randomUUID : option string) (now : Z) : string :=
  match randomUUID with
  | Some uuid => uuid
  | None => "session-" +:+ pretty now
  end.

(** [loadTranscription]: [storage] is the session storage of the window, if
    there is a window. *)
Definition loadTranscription (storage : option (gmap string string)) : string :=
  match storage with
  | None => ""
  | Some items => default "" (items !! "planner:transcription")
  end.

(** The reply to the page's request. *)
Inductive Reply :=
  | NetworkError (message : string)          (* the fetch promise rejects *)
  | Http (ok : bool) (body : string + jsvalue).
                                             (* [response.json()]: the message of
                                                its rejection, or the parsed body *)

(** [fetch(url, { method: "POST", …, body: JSON.stringify(payload) })] *)
Inductive Effect :=
  | Post (url : string) (body : list (string * jsval)).

(** The [forEach] of [callPlanner], which fills [nextEdits]. *)
Fixpoint collect (nextPlans : list jsvalue) (nextEdits : gmap string jsvalue)
    : Fault + gmap string jsvalue :=
  match nextPlans with
  | [] => inr nextEdits
  | plan :: rest =>
      match prop plan "plan_id" with
      | inl fault => inl fault
      | inr plan_id => collect rest (assign (ToString plan_id) (clone plan) nextEdits)
      end
  end.

(** [callPlanner(text)]; [engine] gives the message of a TypeError and
    [reply] the reply to the request, if one has come. *)
Definition callPlanner (randomUUID : option string) (now : Z) (engine : Fault → string)
    (text : string) (reply : option Reply) (s : State) : list Effect * State :=
  let catch message s :=
    with_status s_error
      (with_error (Net.or_default message "Failed to generate treatment plans") s) in
  let s := with_error "" s in
  let s := with_status s_loading s in
  let sid := createSessionId randomUUID now in
  let s := with_sessionId sid s in
  let payload :=
    [("session_id", VStr sid); ("user_id", VStr userId); ("slot_id", VStr slotId);
     ("treatment_planner_text", VStr text)]%string in
  ([Post "/api/treatment-plans" (json_fields payload)],
   match reply with
   | None => s
   | Some (NetworkError message) => catch message s
   | Some (Http false body) =>
       let errBody := match body with inl _ => Obj ∅ | inr errBody => errBody end in
       match prop errBody "error" with
       | inl fault => catch (engine fault) s
       | inr error =>
           catch (ToString (or error (Str "Failed to generate treatment plans"))) s
       end
   | Some (Http true (inl message)) => catch message s
   | Some (Http true (inr data)) =>
       match prop data "treatment_plans" with
       | inl fault => catch (engine fault) s
       | inr treatment_plans =>
           match or treatment_plans (Arr []) with
           | Arr nextPlans =>
               match collect nextPlans ∅ with
               | inl fault => catch (engine fault) s
               | inr nextEdits =>
                   with_status s_ready (with_planEdits nextEdits (with_plans nextPlans s))
               end
           | _ => catch (engine (NotAFunction "nextPlans.forEach")) s
           end
       end
   end).

(** The effect run once the page is mounted. *)
Definition useEffect (storage : option (gmap string string)) (randomUUID : option string)
    (now : Z) (engine : Fault → string) (reply : option Reply) (s : State)
    : list Effect * State :=
  let text := loadTranscription storage in
  let s := with_transcriptionText text s in
  if negb (String.eqb text "") then callPlanner randomUUID now engine text reply s
  else
    ([], with_error "No transcription text found. Go back and generate a transcript first." s).

(** What the render makes of the state. *)
Definition headerSubtitle (s : State) : string :=
  match status s with
  | s_loading => "Generating Plans A/B/C... this can take 2-3 minutes."
  | s_ready => "Plans A/B/C are editable; pick one and confirm."
  | s_selected => "You have confirmed your selection."
  | _ => "Generate treatment plans from your transcript."
  end.

(** The text of the error panel, when it is rendered. *)
Definition error_panel (s : State) : option string :=
  if decide (status s = s_error)
  then Some (Net.or_default (error s) "Unable to generate treatment plans.")
  else None.

(** The Retry button of the error panel. *)
Definition retry_shown (s : State) : bool :=
  bool_decide (status s = s_error) && negb (String.eqb (transcriptionText s) "").

(** The plans whose cards are rendered. *)
Definition cards (s : State) : list jsvalue :=
  if decide (status s = s_ready) then plans s else [].

(** The Select button of a card, and Change Selection. *)
Definition select (plan_id : jsvalue) (s : State) : State :=
  with_status s_selected (with_selectedPlanId plan_id s).

Definition changeSelection (s : State) : State := with_status s_ready s.

(** *** Edits of the plans

    The updaters passed to [setPlanEdits], as functions of the previous
    edits; [planId] is the property key that [plan.plan_id] converts to.
    [None] stands for the TypeError thrown when the [services], [products] or
    [lab_tests] of the plan is truthy and not iterable. *)

Definition updateServiceSpec (planId : string) (serviceIndex : nat) (key : string)
    (value : jsvalue) (prev : gmap string jsvalue) : option (gmap string jsvalue) :=
  let draft := prev in
  let current := default Undefined (draft !! planId) in
  services ← iterate (or (opt_prop current "services") (Arr []));
  let plan := <["services" := Arr services]> (spread (or current (Obj ∅))) in
  let specifications :=
    spread (or (opt_prop (item services serviceIndex) "specifications") (Obj ∅)) in
  let service :=
    <["specifications" := Obj specifications]>
      (spread (or (item services serviceIndex) (Obj ∅))) in
  (* service.specifications[key] = value *)
  let service := <["specifications" := Obj (assign key value specifications)]> service in
  (* plan.services[serviceIndex] = service *)
  let plan := <["services" := Arr (set_item serviceIndex (Obj service) services)]> plan in
  (* draft[planId] = plan *)
  Some (assign planId (Obj plan) draft).

Definition updateProductField (planId : string) (productIndex : nat) (key : string)
    (value : jsvalue) (prev : gmap string jsvalue) : option (gmap string jsvalue) :=
  let draft := prev in
  let current := default Undefined (draft !! planId) in
  products ← iterate (or (opt_prop current "products") (Arr []));
  let plan := <["products" := Arr products]> (spread (or current (Obj ∅))) in
  let product := spread (or (item products productIndex) (Obj ∅)) in
  (* product[key] = value *)
  let product := assign key value product in
  (* plan.products[productIndex] = product *)
  let plan := <["products" := Arr (set_item productIndex (Obj product) products)]> plan in
  (* draft[planId] = plan *)
  Some (assign planId (Obj plan) draft).

Definition updateLabField (planId : string) (labIndex : nat) (key : string)
    (value : jsvalue) (prev : gmap string jsvalue) : option (gmap string jsvalue) :=
  let draft := prev in
  let current := default Undefined (draft !! planId) in
  lab_tests ← iterate (or (opt_prop current "lab_tests") (Arr []));
  let plan := <["lab_tests" := Arr lab_tests]> (spread (or current (Obj ∅))) in
  let lab := spread (or (item lab_tests labIndex) (Obj ∅)) in
  (* lab[key] = value *)
  let lab := assign key value lab in
  (* plan.lab_tests[labIndex] = lab *)
  let plan := <["lab_tests" := Arr (set_item labIndex (Obj lab) lab_tests)]> plan in
  (* draft[planId] = plan *)
  Some (assign planId (Obj plan) draft).

(** *** What the cards show *)

(** [planEdits[plan.plan_id] || plan] *)
Definition editedPlan (planEdits : gmap string jsvalue) (planId : string) (plan : jsvalue)
    : jsvalue :=
  or (default Undefined (planEdits !! planId)) plan.

(** [l.lab_test_name || l.name || ""], the value of the name input of a lab
    card, for a lab that is an object. *)
Definition labName (l : gmap string jsvalue) : jsvalue :=
  or (or (default Undefined (l !! "lab_test_name")) (default Undefined (l !! "name")))
     (Str "").

(** [p.name || p.product_name || "Product"], the heading of a product card. *)
Definition productHeading (p : gmap string jsvalue) : jsvalue :=
  or (or (default Undefined (p !! "name")) (default Undefined (p !! "product_name")))
     (Str "Product").

(** [safeValue] *)
Definition safeValue (val : jsvalue) : jsvalue :=
  match val with
  | Null | Undefined => Str ""
  | _ => val
  end.

End PlannerPage.

(** ** From the recorder page to the planner page and its proxy *)

Module Handoff.

(** [generatePlans] of [pages/index.js].  [storage] is the session storage of
    the window, if there is a window; [quota] is the message of the error
    [setItem] throws, if it throws; [router.push] is taken not to throw.
    Gives the storage, whether the router was told to go to the planner page,
    and the state. *)
Definition generatePlans (storage : option (gmap string string)) (quota : option string)
    (s : Index.State) : option (gmap string string) * bool * Index.State :=
  if negb (truthy (Index.transcriptionText s)) then
    (storage, false,
     Index.with_planError "No transcription text available. Finish transcription first." s)
  else
    let s := Index.with_planError "" s in
    match storage, quota with
    | Some _, Some message =>
        (storage, false,
         Index.with_planError (Net.or_default message "Failed to start treatment planner") s)
    | Some items, None =>
        (Some (<["planner:transcription" := ToString (Index.transcriptionText s)]> items),
         true, s)
    | None, _ => (None, true, s)
    end.

(** The page's request as the proxy handler sees it. *)
Definition planner_request (e : PlannerPage.Effect) : Planner.Request Planner.field :=
  match e with
  | PlannerPage.Post _ body =>
      {| Planner.method := "POST";
         Planner.body := Some (Planner.Scalar <$> list_to_map body) |}
  end.

(** The data of the gateway as the page reads it; [parse] is [JSON.parse], for
    the data that the gateway sent as an object or an array. *)
Definition tree (parse : string → Tree.jsvalue) (d : Planner.jsdata) : Tree.jsvalue :=
  match d with
  | Planner.JScalar VUndefined => Tree.Undefined
  | Planner.JScalar VNull => Tree.Null
  | Planner.JScalar (VBool b) => Tree.Bool b
  | Planner.JScalar (VNum n) => Tree.Num n
  | Planner.JScalar (VStr s) => Tree.Str s
  | Planner.JObject json => parse json
  end.

(** The proxy's answer as the page's [fetch] gets it.  [res.json(undefined)]
    sends an empty body, and the answer the platform gives for an error that
    the handler does not catch is a 500 whose body is not JSON either:
    [response.json()] rejects for both, and [empty_body] is the message of
    the rejection for the body at hand. *)
Definition planner_reply (parse : string → Tree.jsvalue) (empty_body : string)
    (r : Planner.Response) : PlannerPage.Reply :=
  PlannerPage.Http (bool_decide (200 ≤ Planner.status r ≤ 299))
    match Planner.json r with
    | Planner.BError error => inr (Tree.Obj {[ "error" := Tree.Str error ]})
    | Planner.BFailure error details =>
        inr (Tree.Obj (<[ "error" := Tree.Str error ]>
                         match details with
                         | Some d => {[ "details" := tree parse d ]}
                         | None => ∅
                         end))
    | Planner.BData (Planner.JScalar VUndefined) => inl empty_body
    | Planner.BData data => inr (tree parse data)
    | Planner.BUncaught => inl empty_body
    end.

End Handoff.

(** ** Vocabulary of the further properties *)

Module Props2.
Import Media Net.

(** A request to the provider carries this key. *)
Definition authorized (key : string) (e : Api.Effect) : Prop :=
  match e with
  | Api.Call _ _ _ authorization => authorization = key
  | Api.Sleep _ => True
  end.

(** The answer the handlers would give without a key. *)
Definition missing_key : Api.Response :=
  {| Api.status := 500; Api.json := Api.BError "Missing AssemblyAI API key" None |}.

(** [n] status requests of the command-line script, each but the last
    followed by a sleep of 3000 ms. *)
Fixpoint cli_trace (transcriptId : jsval) (n : nat) : list Api.Effect :=
  match n with
  | O => []
  | S O => [Cli.status_call transcriptId]
  | S n' => Cli.status_call transcriptId :: Api.Sleep 3000 :: cli_trace transcriptId n'
  end.

(** A recorder that is recording or paused, or stopped with its stop callback
    still to run. *)
Definition pending_or_live (m : MediaRecorder) : bool :=
  bool_decide (rstate m ≠ inactive) || stop_queued m.

(** Every recorder has a stream of its own, which is live exactly while the
    recorder is pending or live; a recorder with a stop pending is inactive. *)
Definition devices_follow_recorders (b : Browser) : Prop :=
  streams b = pending_or_live <$> recorders b
  ∧ ∀ i m, recorders b !! i = Some m →
           rstream m = i ∧ (stop_queued m = true → rstate m = inactive).

(** The data delivered by the recorders during a run, in order. *)
Definition Index_recorded (events : list Index.Event) : Blob :=
  concat (omap (λ e, match e with
                     | Index.DataAvailable _ data => Some data
                     | _ => None
                     end) events).

Definition App_recorded (events : list App.Event) : Blob :=
  concat (omap (λ e, match e with
                     | App.DataAvailable _ data => Some data
                     | _ => None
                     end) events).

(** The events that empty the chunk sequence. *)
Definition Index_keeps_chunks (e : Index.Event) : bool :=
  match e with
  | Index.ClickRecord | Index.ClickBack => false
  | _ => true
  end.

Definition App_keeps_chunks (e : App.Event) : bool :=
  match e with
  | App.MediaGranted _ => false
  | _ => true
  end.

(** *** Field labels *)

(** The characters of [l] up to its first white space. *)
Fixpoint up_to_space (l : list Ascii.ascii) : list Ascii.ascii :=
  match l with
  | [] => []
  | c :: r => if Label.is_space c then [] else c :: up_to_space r
  end.

(** Whether a word character stands between the end of [before] and the
    last white space of [before] (or its start). *)
Definition word_since_space (before : list Ascii.ascii) : bool :=
  existsb Label.is_word (up_to_space (reverse before)).

(** *** Edits of the planner page *)

Section Edits.
Import Tree.

(** The list an updater copies: [draft[planId]?.name || []]. *)
Definition listed (name planId : string) (prev : gmap string jsvalue) : jsvalue :=
  or (opt_prop (default Undefined (prev !! planId)) name) (Arr []).

(** The shape shared by [updateProductField] and [updateLabField]. *)
Definition update_item_field (name planId : string) (index : nat) (key : string)
    (value : jsvalue) (prev : gmap string jsvalue) : option (gmap string jsvalue) :=
  items ← iterate (listed name planId prev);
  Some (assign planId
          (Obj (<[name := Arr (set_item index
                                 (Obj (assign key value
                                         (spread (or (item items index) (Obj ∅)))))
                                 items)]>
                  (<[name := Arr items]>
                     (spread (or (default Undefined (prev !! planId)) (Obj ∅))))))
          prev).

(** [d] is [prev] with the list [name] of plan [planId] copied from [items]
    and item [i] replaced by [it]; nothing else differs. *)
Definition replaces_item (name planId : string) (i : nat) (it : gmap string jsvalue)
    (items : list jsvalue) (prev d : gmap string jsvalue) : Prop :=
  (∀ p, p ≠ planId → d !! p = prev !! p)
  ∧ ∃ plan' items',
      d !! planId = Some (Obj plan')
      ∧ plan' !! name = Some (Arr items')
      ∧ (∀ k, k ≠ name →
              plan' !! k = spread (or (default Undefined (prev !! planId)) (Obj ∅)) !! k)
      ∧ length items' = (length items `max` S i)%nat
      ∧ (∀ j, j ≠ i → (j < length items)%nat → items' !! j = items !! j)
      ∧ items' !! i = Some (Obj it).

(** [it] is the copy of item [i] of [items] with [key] set to [v]. *)
Definition sets_key (key : string) (v : jsvalue) (i : nat) (items : list jsvalue)
    (it : gmap string jsvalue) : Prop :=
  it !! key = Some v
  ∧ ∀ k, k ≠ key → it !! k = spread (or (item items i) (Obj ∅)) !! k.

(** [it] is the copy of item [i] of [items] with [key] of its specifications
    set to [v]. *)
Definition sets_specification (key : string) (v : jsvalue) (i : nat) (items : list jsvalue)
    (it : gmap string jsvalue) : Prop :=
  (∃ specifications,
      it !! "specifications" = Some (Obj specifications)
      ∧ specifications !! key = Some v
      ∧ ∀ k, k ≠ key →
             specifications !! k
             = spread (or (opt_prop (item items i) "specifications") (Obj ∅)) !! k)
  ∧ ∀ k, k ≠ "specifications" → it !! k = spread (or (item items i) (Obj ∅)) !! k.

End Edits.

(** *** The planner page as a transition system *)

Section Page.
Import Tree PlannerPage.

(** The size of a value, for inductions over values. *)
Fixpoint size (v : jsvalue) : nat :=
  match v with
  | Arr items => S (foldr (λ x n, size x + n)%nat 0%nat items)
  | Obj fields => S (map_fold (λ _ x n, size x + n)%nat 0%nat fields)
  | _ => 1%nat
  end.

(** The key under which [callPlanner] files a plan. *)
Definition plan_key (plan : jsvalue) : string := ToString (opt_prop plan "plan_id").

(** What can happen on the page: it is mounted (with fresh state), the Retry
    button of the error panel is pressed, a plan is selected, the selection is
    reopened, a field is edited.  The render itself is not modelled. *)
Inductive PageEvent :=
  | Mount (storage : option (gmap string string)) (randomUUID : option string) (now : Z)
          (reply : option Reply)
  | Retry (randomUUID : option string) (now : Z) (reply : option Reply)
  | Select (plan_id : jsvalue)
  | ChangeSelection
  | EditService (planId : string) (serviceIndex : nat) (key : string) (value : jsvalue)
  | EditProduct (planId : string) (productIndex : nat) (key : string) (value : jsvalue)
  | EditLab (planId : string) (labIndex : nat) (key : string) (value : jsvalue).

(** The buttons and inputs exist only in the panels that are rendered. *)
Definition page_enabled (e : PageEvent) (s : State) : bool :=
  match e with
  | Mount _ _ _ _ => true
  | Retry _ _ _ => retry_shown s
  | Select _ | EditService _ _ _ _ | EditProduct _ _ _ _ | EditLab _ _ _ _ =>
      bool_decide (status s = s_ready)
  | ChangeSelection => bool_decide (status s = s_selected)
  end.

(** The state after an event; [None] when an updater of the edits throws,
    which takes the page down. *)
Definition page_step (engine : Fault → string) (e : PageEvent) (s : State)
    : option State :=
  match e with
  | Mount storage randomUUID now reply =>
      Some (useEffect storage randomUUID now engine reply initial).2
  | Retry randomUUID now reply =>
      Some (callPlanner randomUUID now engine (transcriptionText s) reply s).2
  | Select plan_id => Some (select plan_id s)
  | ChangeSelection => Some (changeSelection s)
  | EditService planId i key value =>
      (λ d, with_planEdits d s) <$> updateServiceSpec planId i key value (planEdits s)
  | EditProduct planId i key value =>
      (λ d, with_planEdits d s) <$> updateProductField planId i key value (planEdits s)
  | EditLab planId i key value =>
      (λ d, with_planEdits d s) <$> updateLabField planId i key value (planEdits s)
  end.

Fixpoint page_run (engine : Fault → string) (events : list PageEvent) (s : State)
    : option State :=
  match events with
  | [] => Some s
  | e :: rest =>
      if page_enabled e s then page_step engine e s ≫= page_run engine rest else None
  end.

(** The requests of a run: one for each mount that finds a transcription and
    for each retry. *)
Fixpoint page_requests (engine : Fault → string) (events : list PageEvent) (s : State)
    : list Effect :=
  match events with
  | [] => []
  | e :: rest =>
      if page_enabled e s then
        match e with
        | Mount storage randomUUID now reply =>
            (useEffect storage randomUUID now engine reply initial).1
        | Retry randomUUID now reply =>
            (callPlanner randomUUID now engine (transcriptionText s) reply s).1
        | _ => []
        end
        ++ match page_step engine e s with
           | Some s' => page_requests engine rest s'
           | None => []
           end
      else []
  end.

(** What holds of the page in every state it reaches. *)
Definition page_invariant (s : State) : Prop :=
  (status s = s_error → error s ≠ "" ∧ transcriptionText s ≠ "")
  ∧ (status s = s_loading ∨ status s = s_ready ∨ status s = s_selected →
     error s = "" ∧ transcriptionText s ≠ "")
  ∧ (status s = s_idle → plans s = [] ∧ planEdits s = ∅ ∧ sessionId s = "").

(** A request for plans with a non-empty text. *)
Definition asks_with_text (e : Effect) : Prop :=
  ∃ sid text,
    text ≠ ""
    ∧ e = Post "/api/treatment-plans"
            [("session_id", VStr sid); ("user_id", VStr "user-123");
             ("slot_id", VStr "b553d02b-102c-457b-b525-0bfca777b191");
             ("treatment_planner_text", VStr text)]%string.

End Page.

End Props2.

(** * Properties *)

Import Media Net Props.

(** ** The job poller *)

Lemma fetches_polling_trace url n : fetches (polling_trace url n) = n.
Proof.
  induction n as [|[|n] IH]; [reflexivity..|].
  change (fetches (polling_trace url (S (S n)))) with (S (fetches (polling_trace url (S n)))).
  by rewrite IH.
Qed.

Lemma polling_trace_SS url n :
  polling_trace url (S (S n)) = Fetch url :: SetTimeout 3000 :: polling_trace url (S n).
Proof. reflexivity. Qed.

(** The two outcomes of [poll] on an answer that is still in progress. *)
Lemma App_poll_below response attempts s :
  in_progress response = true →
  (S attempts < App.maxAttempts)%nat →
  ∃ s' timer, App.poll response attempts s = (s', S attempts, Some (timer, 3000)).
Proof.
  intros Hp Hlt. destruct response as [|[] [|result]]; try discriminate.
  unfold in_progress, terminal in Hp. apply negb_true_iff, orb_false_iff in Hp as [Hc He].
  unfold App.poll. rewrite Hc, He.
  destruct (Nat.leb_spec App.maxAttempts (S attempts)) as [Hge|_]; [lia|].
  eexists _, _. reflexivity.
Qed.

Lemma App_poll_last response attempts s :
  in_progress response = true →
  (App.maxAttempts ≤ S attempts)%nat →
  App.poll response attempts s =
    (App.showErrorInTranscription "Transcription timeout. Please try again." s,
     S attempts, None).
Proof.
  intros Hp Hge. destruct response as [|[] [|result]]; try discriminate.
  unfold in_progress, terminal in Hp. apply negb_true_iff, orb_false_iff in Hp as [Hc He].
  unfold App.poll. rewrite Hc, He.
  destruct (Nat.leb_spec App.maxAttempts (S attempts)) as [_|Hlt]; [reflexivity|lia].
Qed.

Lemma App_poll_loop_exhausts pre rest transcriptId attempts s :
  Forall (λ r, in_progress r = true) pre →
  pre ≠ [] →
  (attempts + length pre = App.maxAttempts)%nat →
  ∃ s', App.poll_loop (pre ++ rest) transcriptId attempts s =
          (polling_trace (App.status_url transcriptId) (length pre), s')
        ∧ App.transcriptionContent s' = App.CError "Transcription timeout. Please try again.".
Proof.
  revert attempts s. induction pre as [|r pre IH]; intros attempts s Hall Hne Hlen; [done|].
  apply Forall_cons in Hall as [Hr Hall]. destruct pre as [|r' pre].
  - simpl in Hlen. simpl. rewrite App_poll_last by (done || lia). eauto.
  - destruct (App_poll_below r attempts s Hr) as (s1 & timer & Hpoll);
      [simpl in Hlen; lia|].
    destruct (IH (S attempts)
                (App.with_browser (timeout_fired timer (App.browser s1)) s1) Hall)
      as (s' & Hrun & Hc); [done|simpl in *; lia|].
    exists s'. split; [|done].
    change ((r :: r' :: pre) ++ rest) with (r :: ((r' :: pre) ++ rest)).
    cbn [App.poll_loop]. rewrite Hpoll, Hrun. reflexivity.
Qed.

Lemma Index_executePoll_below response attempt s :
  in_progress response = true →
  (S attempt < Index.maxAttempts)%nat →
  ∃ s' timer,
    Index.executePoll response attempt s = (s', Some (S attempt, timer, 3000)).
Proof.
  intros Hp Hlt. destruct response as [|[] [|result]]; try discriminate.
  unfold in_progress, terminal in Hp. apply negb_true_iff, orb_false_iff in Hp as [Hc He].
  unfold Index.executePoll. rewrite Hc, He. replace (attempt + 1)%nat with (S attempt) by lia.
  destruct (Nat.leb_spec Index.maxAttempts (S attempt)) as [Hge|_]; [lia|].
  eexists _, _. reflexivity.
Qed.

Lemma Index_executePoll_last response attempt s :
  in_progress response = true →
  (Index.maxAttempts ≤ S attempt)%nat →
  ∃ s', Index.executePoll response attempt s = (s', None)
        ∧ Index.transcriptionStatus s' = Index.t_error
        ∧ Index.transcriptionMessage s' = "Transcription timeout. Please try again.".
Proof.
  intros Hp Hge. destruct response as [|[] [|result]]; try discriminate.
  unfold in_progress, terminal in Hp. apply negb_true_iff, orb_false_iff in Hp as [Hc He].
  unfold Index.executePoll. rewrite Hc, He. replace (attempt + 1)%nat with (S attempt) by lia.
  destruct (Nat.leb_spec Index.maxAttempts (S attempt)) as [_|Hlt]; [|lia].
  eexists. split; [reflexivity|]. split; reflexivity.
Qed.

Lemma Index_pollTranscription_exhausts pre rest transcriptId attempt s :
  Forall (λ r, in_progress r = true) pre →
  pre ≠ [] →
  (attempt + length pre = Index.maxAttempts)%nat →
  ∃ s', Index.pollTranscription (pre ++ rest) transcriptId attempt s =
          (polling_trace (Index.status_url transcriptId) (length pre), s')
        ∧ Index.transcriptionStatus s' = Index.t_error
        ∧ Index.transcriptionMessage s' = "Transcription timeout. Please try again.".
Proof.
  revert attempt s. induction pre as [|r pre IH]; intros attempt s Hall Hne Hlen; [done|].
  apply Forall_cons in Hall as [Hr Hall]. destruct pre as [|r' pre].
  - simpl in Hlen.
    destruct (Index_executePoll_last r attempt s Hr) as (s' & Hpoll & Hs); [lia|].
    exists s'. split; [|done]. simpl. by rewrite Hpoll.
  - destruct (Index_executePoll_below r attempt s Hr) as (s1 & timer & Hpoll);
      [simpl in Hlen; lia|].
    destruct (IH (S attempt)
                (Index.with_browser (timeout_fired timer (Index.browser s1)) s1) Hall)
      as (s' & Hrun & Hs); [done|simpl in *; lia|].
    exists s'. split; [|done].
    change ((r :: r' :: pre) ++ rest) with (r :: ((r' :: pre) ++ rest)).
    cbn [Index.pollTranscription]. rewrite Hpoll, Hrun. reflexivity.
Qed.

Lemma forallb_in_progress pre :
  forallb in_progress pre = true → Forall (λ r, in_progress r = true) pre.
Proof. rewrite forallb_forall, Forall_forall. intros H x Hx. by apply H, list_elem_of_In. Qed.

Lemma last_polling_trace url n : last (polling_trace url (S n)) = Some (Fetch url).
Proof.
  induction n as [|n IH]; [reflexivity|].
  by rewrite polling_trace_SS, !last_cons, IH.
Qed.

(** C1. A run of the poller whose first 100 answers are all non-terminal makes
    exactly 100 fetches, one every 3000 ms, ends on the 100th fetch with no
    timer armed after it and shows the timeout error; on the script
    [processing; processing; completed "hello"] it makes exactly 3 fetches and
    ends with the text "hello".  Both for [public/app.js] and for
    [pages/index.js]. *)
Theorem C1_poller_bound_and_script :
  (∀ pre rest transcriptId s,
     length pre = 100%nat → forallb in_progress pre = true →
     ∃ tr s', App.pollTranscription (pre ++ rest) transcriptId s = (tr, s')
       ∧ tr = polling_trace (App.status_url transcriptId) 100
       ∧ fetches tr = 100%nat
       ∧ last tr = Some (Fetch (App.status_url transcriptId))
       ∧ App.transcriptionContent s' = App.CError "Transcription timeout. Please try again.")
  ∧ (∀ pre rest transcriptId s,
     length pre = 100%nat → forallb in_progress pre = true →
     ∃ tr s', Index.pollTranscription (pre ++ rest) transcriptId 0 s = (tr, s')
       ∧ tr = polling_trace (Index.status_url transcriptId) 100
       ∧ fetches tr = 100%nat
       ∧ last tr = Some (Fetch (Index.status_url transcriptId))
       ∧ Index.transcriptionStatus s' = Index.t_error
       ∧ Index.transcriptionMessage s' = "Transcription timeout. Please try again.")
  ∧ (∀ transcriptId s,
     ∃ tr s', App.pollTranscription
                [status_response "processing"; status_response "processing";
                 completed_response "hello"] transcriptId s = (tr, s')
       ∧ tr = polling_trace (App.status_url transcriptId) 3
       ∧ fetches tr = 3%nat
       ∧ App.transcriptionContent s' = App.CText "hello")
  ∧ (∀ transcriptId s,
     ∃ tr s', Index.pollTranscription
                [status_response "processing"; status_response "processing";
                 completed_response "hello"] transcriptId 0 s = (tr, s')
       ∧ tr = polling_trace (Index.status_url transcriptId) 3
       ∧ fetches tr = 3%nat
       ∧ Index.transcriptionStatus s' = Index.t_completed
       ∧ Index.transcriptionText s' = VStr "hello").
Proof.
  split; [|split; [|split]].
  - intros pre rest transcriptId s Hlen Hall.
    destruct (App_poll_loop_exhausts pre rest transcriptId 0 s) as (s' & Hrun & Hc).
    { by apply forallb_in_progress. }
    { intros ->. discriminate. }
    { by rewrite Hlen. }
    rewrite Hlen in Hrun. exists (polling_trace (App.status_url transcriptId) 100), s'.
    split; [exact Hrun|]. split; [reflexivity|].
    split; [apply fetches_polling_trace|]. split; [apply last_polling_trace|exact Hc].
  - intros pre rest transcriptId s Hlen Hall.
    destruct (Index_pollTranscription_exhausts pre rest transcriptId 0 s)
      as (s' & Hrun & Hst & Hm).
    { by apply forallb_in_progress. }
    { intros ->. discriminate. }
    { by rewrite Hlen. }
    rewrite Hlen in Hrun. exists (polling_trace (Index.status_url transcriptId) 100), s'.
    split; [exact Hrun|]. split; [reflexivity|].
    split; [apply fetches_polling_trace|]. split; [apply last_polling_trace|done].
  - intros transcriptId s. eexists _, _. split; [reflexivity|].
    split; [reflexivity|]. split; reflexivity.
  - intros transcriptId s. eexists _, _. split; [reflexivity|].
    split; [reflexivity|]. split; [reflexivity|]. split; reflexivity.
Qed.

Lemma C1_poller_bound_witness :
  ∃ tr s', App.pollTranscription (replicate 100 (status_response "queued") ++ [])
             (VStr "job") (App.initial false true true true) = (tr, s')
    ∧ tr = polling_trace (App.status_url (VStr "job")) 100
    ∧ fetches tr = 100%nat
    ∧ last tr = Some (Fetch (App.status_url (VStr "job")))
    ∧ App.transcriptionContent s' = App.CError "Transcription timeout. Please try again.".
Proof.
  apply (proj1 C1_poller_bound_and_script).
  - reflexivity.
  - vm_compute. reflexivity.
Defined.

(** C6. A poll attempt whose fetch fails at the transport level (the fetch
    rejects, or the response is not a success) ends the polling at once: the
    failed fetch is the last effect, no timer is armed, whatever answers would
    have followed are never asked for, and the transport error is shown. *)
Theorem C6_transport_failure_is_final :
  (∀ response rest transcriptId attempts s,
     transport_failure response = true →
     App.poll_loop (response :: rest) transcriptId attempts s =
       ([Fetch (App.status_url transcriptId)],
        App.showErrorInTranscription (transport_error_message response) s))
  ∧ (∀ response rest transcriptId attempt s,
     transport_failure response = true →
     Index.pollTranscription (response :: rest) transcriptId attempt s =
       ([Fetch (Index.status_url transcriptId)],
        Index.with_transcriptionMessage (transport_error_message response)
          (Index.with_transcriptionStatus Index.t_error s))).
Proof.
  split; intros [message|[] body] rest transcriptId attempts s Hf;
    try discriminate; reflexivity.
Qed.

Lemma C6_transport_failure_witness :
  App.poll_loop (HttpResponse false (BadJson "") :: [status_response "completed"])
      (VStr "job") 7 (App.initial false true true true) =
    ([Fetch (App.status_url (VStr "job"))],
     App.showErrorInTranscription "Failed to get transcription status"
       (App.initial false true true true)).
Proof.
  apply (proj1 C6_transport_failure_is_final
           (HttpResponse false (BadJson "")) [status_response "completed"]).
  reflexivity.
Defined.

Lemma strict_eq_str_false v s : v ≠ VStr s → strict_eq_str v s = false.
Proof.
  intros Hne. destruct v; try reflexivity. simpl.
  destruct (String.eqb_spec s0 s); [congruence|reflexivity].
Qed.

(** C10. A fetched status that is not exactly "completed" or "error" — any
    other string, or no string at all — is handled as a job in progress: the
    attempt is counted, and as long as the count is below 100 the progress
    message is shown and the next poll is armed at 3000 ms, with no failure;
    the only failure such a status can end in is the timeout of the 100th
    counted attempt. *)
Theorem C10_other_status_is_in_progress :
  ∀ (result : jsobj) (status : jsval),
    get_field result "status" = status →
    status ≠ VStr "completed" → status ≠ VStr "error" →
    (∀ attempts s,
       (S attempts < 100)%nat →
       ∃ s' timer,
         App.poll (HttpResponse true (Json result)) attempts s
           = (s', S attempts, Some (timer, 3000))
         ∧ App.transcriptionContent s'
           = App.CLoading ("Processing transcription... (" +:+ ToString status +:+ ")")
         ∧ ∀ rest transcriptId,
             App.poll_loop (HttpResponse true (Json result) :: rest) transcriptId attempts s
             = (let '(tr, s'') :=
                  App.poll_loop rest transcriptId (S attempts)
                    (App.with_browser (timeout_fired timer (App.browser s')) s') in
                (Fetch (App.status_url transcriptId) :: SetTimeout 3000 :: tr, s'')))
    ∧ (∀ attempts s,
       (100 ≤ S attempts)%nat →
       App.poll (HttpResponse true (Json result)) attempts s
         = (App.showErrorInTranscription "Transcription timeout. Please try again." s,
            S attempts, None))
    ∧ (∀ attempt s,
       (S attempt < 100)%nat →
       ∃ s' timer,
         Index.executePoll (HttpResponse true (Json result)) attempt s
           = (s', Some (S attempt, timer, 3000))
         ∧ Index.transcriptionStatus s' = Index.t_processing
         ∧ Index.transcriptionMessage s'
           = "Processing transcription... (" +:+ ToString status +:+ ")"
         ∧ ∀ rest transcriptId,
             Index.pollTranscription (HttpResponse true (Json result) :: rest)
               transcriptId attempt s
             = (let '(tr, s'') :=
                  Index.pollTranscription rest transcriptId (S attempt)
                    (Index.with_browser (timeout_fired timer (Index.browser s')) s') in
                (Fetch (Index.status_url transcriptId) :: SetTimeout 3000 :: tr, s'')))
    ∧ (∀ attempt s,
       (100 ≤ S attempt)%nat →
       ∃ s', Index.executePoll (HttpResponse true (Json result)) attempt s = (s', None)
         ∧ Index.transcriptionStatus s' = Index.t_error
         ∧ Index.transcriptionMessage s' = "Transcription timeout. Please try again.").
Proof.
  intros result status Hst Hc He.
  apply strict_eq_str_false in Hc, He.
  assert (Hp : in_progress (HttpResponse true (Json result)) = true).
  { unfold in_progress, terminal. by rewrite Hst, Hc, He. }
  split; [|split; [|split]].
  - intros attempts s Hlt.
    unfold App.poll. rewrite Hst, Hc, He.
    destruct (Nat.leb_spec App.maxAttempts (S attempts)) as [Hge|_];
      [unfold App.maxAttempts in Hge; lia|].
    eexists _, _. split; [reflexivity|]. split; [reflexivity|].
    intros rest transcriptId. cbn [App.poll_loop]. unfold App.poll. rewrite Hst, Hc, He.
    destruct (Nat.leb_spec App.maxAttempts (S attempts)) as [Hge|_];
      [unfold App.maxAttempts in Hge; lia|].
    reflexivity.
  - intros attempts s Hge. by apply App_poll_last.
  - intros attempt s Hlt.
    unfold Index.executePoll. rewrite Hst, Hc, He.
    replace (attempt + 1)%nat with (S attempt) by lia.
    destruct (Nat.leb_spec Index.maxAttempts (S attempt)) as [Hge|_];
      [unfold Index.maxAttempts in Hge; lia|].
    eexists _, _. split; [reflexivity|]. split; [reflexivity|]. split; [reflexivity|].
    intros rest transcriptId. cbn [Index.pollTranscription]. unfold Index.executePoll.
    rewrite Hst, Hc, He. replace (attempt + 1)%nat with (S attempt) by lia.
    destruct (Nat.leb_spec Index.maxAttempts (S attempt)) as [Hge|_];
      [unfold Index.maxAttempts in Hge; lia|].
    reflexivity.
  - intros attempt s Hge. by apply Index_executePoll_last.
Qed.

Lemma C10_other_status_witness :
  ∃ s' timer,
    App.poll (HttpResponse true (Json {[ "status" := VStr "Completed" ]})) 41
        (App.initial false true true true)
      = (s', 42%nat, Some (timer, 3000))
    ∧ App.transcriptionContent s'
      = App.CLoading ("Processing transcription... (" +:+ ToString (VStr "Completed") +:+ ")")
    ∧ ∀ rest transcriptId,
        App.poll_loop (HttpResponse true (Json {[ "status" := VStr "Completed" ]}) :: rest)
          transcriptId 41 (App.initial false true true true)
        = (let '(tr, s'') :=
             App.poll_loop rest transcriptId 42
               (App.with_browser (timeout_fired timer (App.browser s')) s') in
           (Fetch (App.status_url transcriptId) :: SetTimeout 3000 :: tr, s'')).
Proof.
  refine (proj1 (C10_other_status_is_in_progress {[ "status" := VStr "Completed" ]}
                   (VStr "Completed") _ _ _) 41%nat (App.initial false true true true) _).
  - reflexivity.
  - discriminate.
  - discriminate.
  - lia.
Defined.

(** ** The submission pipeline *)

(** C3. With no final audio, [submitTranscription] only reports that no audio
    was recorded: it sends no request (no upload, no job start, no status
    fetch) and arms no timer, whatever the network would have answered. *)
Theorem C3_submit_without_audio_is_offline :
  (∀ net s,
     App.audioBlob s = None →
     App.submitTranscription net s
       = ([], App.showError "No audio recorded. Please record audio first." s))
  ∧ (∀ net s,
     Index.audioBlobRef s = None →
     Index.submitTranscription net s
       = ([], Index.with_error "No audio recorded. Please record audio first." s)).
Proof.
  split; intros net s Hnone.
  - unfold App.submitTranscription. by rewrite Hnone.
  - unfold Index.submitTranscription. by rewrite Hnone.
Qed.

Lemma C3_submit_without_audio_witness :
  Index.submitTranscription
      {| Index.upload := HttpResponse true (Json {[ "uploadUrl" := VStr "u" ]});
         Index.transcribe := HttpResponse true (Json {[ "transcriptId" := VStr "t" ]});
         Index.transcript := [completed_response "hello"] |}
      Index.initial
    = ([], Index.with_error "No audio recorded. Please record audio first." Index.initial).
Proof. apply (proj2 C3_submit_without_audio_is_offline). reflexivity. Defined.

(** With a final audio the pipeline does go to the network: the upload is
    its first request. *)
Lemma submit_with_audio_uploads net s blob :
  Index.audioBlobRef s = Some blob →
  ∃ tr, (Index.submitTranscription net s).1 = Fetch "/api/upload" :: tr.
Proof.
  intros Hb. unfold Index.submitTranscription. rewrite Hb.
  destruct (Index.expect_ok (Index.upload net) _); [by eexists|].
  destruct (Index.expect_ok (Index.transcribe net) _); [by eexists|].
  destruct (Index.pollTranscription _ _ _ _). by eexists.
Qed.

(** A whole submission: upload, job start, one poll in progress, one
    completed. *)
Example submit_happy_path :
  let net := {| Index.upload := HttpResponse true (Json {[ "uploadUrl" := VStr "u" ]});
                Index.transcribe := HttpResponse true (Json {[ "transcriptId" := VStr "t1" ]});
                Index.transcript := [status_response "processing";
                                     completed_response "hello"] |} in
  let '(tr, s) := Index.submitTranscription net
                    (Index.with_audioBlobRef (Some one_chunk) Index.initial) in
  tr = [Fetch "/api/upload"; Fetch "/api/transcribe"; Fetch "/api/transcript/t1";
        SetTimeout 3000; Fetch "/api/transcript/t1"]
  ∧ Index.transcriptionStatus s = Index.t_completed
  ∧ Index.transcriptionText s = VStr "hello".
Proof. vm_compute. done. Qed.

(** ** The planning proxy *)

Section PlanningCall.
Import Planner.

Lemma handler_accepted req up :
  accepted req →
  handler req up = attempt_loop (seq 1 maxAttempts) None (fields_of req) up.
Proof.
  intros (Hm & Hs & Ht & Hthrow). unfold handler. by rewrite Hm, Hs, Ht, Hthrow.
Qed.

Lemma code_is_spec e c : code_is e c = true ↔ code e = Some c.
Proof.
  unfold code_is. destruct (code e) as [c'|]; [|done].
  destruct (String.eqb_spec c' c); split; congruence.
Qed.

(** The handler's test is the timeout class. *)
Lemma timeoutLike_spec e : timeoutLike e = true ↔ timeout_class e.
Proof.
  unfold timeoutLike, timeout_class.
  rewrite !orb_true_iff, !code_is_spec. split.
  - intros [[H|H]|H]; [by left|by right; left|right; right].
    destruct (message e) as [m|]; [by exists m|done].
  - intros [H|[H|(m & Hm & H)]]; [by left; left|by left; right|right].
    by rewrite Hm.
Qed.

Lemma timeoutLike_false e : timeoutLike e = false ↔ ¬ timeout_class e.
Proof. rewrite <- timeoutLike_spec. by destruct (timeoutLike e). Qed.

Example timeoutLike_axios_timeout :
  timeoutLike {| code := Some "ECONNABORTED"; message := Some "timeout of 180000ms exceeded";
                 response_data := None |} = true
  ∧ timeoutLike {| code := None; message := Some "Gateway Timeout"; response_data := None |}
    = true
  ∧ timeoutLike {| code := Some "ERR_BAD_REQUEST";
                   message := Some "Request failed with status code 400";
                   response_data := Some (JObject "{}") |} = false.
Proof. vm_compute. done. Qed.

(** The planning call, by the outcome of its attempts. *)
Lemma planning_call_cases p up :
  attempt_loop (seq 1 maxAttempts) None p up =
    match up 1%nat with
    | Resolved data => ([Post 1 180000 p], {| status := 200; json := BData data |})
    | Rejected e1 =>
        if timeoutLike e1 then
          match up 2%nat with
          | Resolved data =>
              ([Post 1 180000 p; Sleep 2000; Post 2 180000 p],
               {| status := 200; json := BData data |})
          | Rejected e2 =>
              ([Post 1 180000 p; Sleep 2000; Post 2 180000 p], failure (timeoutLike e2) e2)
          end
        else ([Post 1 180000 p], failure false e1)
    end.
Proof.
  change (seq 1 maxAttempts) with [1%nat; 2%nat]. cbn [attempt_loop].
  destruct (up 1%nat) as [d|e1]; [reflexivity|].
  change (1 <? maxAttempts)%nat with true. change (2 <? maxAttempts)%nat with false.
  destruct (timeoutLike e1); [|reflexivity]. cbn [andb].
  destruct (up 2%nat) as [d|e2]; [reflexivity|].
  by destruct (timeoutLike e2).
Qed.

(** C2. For every request on which the planning call is made: at most 2
    posts are sent; a second post is sent exactly when the first one fails
    with a timeout-class error, that is with the code of a connection abort
    (ECONNABORTED) or of a timeout (ETIMEDOUT) or with a message that names a
    timeout, and then a 2000 ms sleep stands between the two; a failure that
    is not of that class, on either attempt, ends the call with that post as
    its last effect and the 500 "Failed to generate treatment plans" response
    carrying the error's details. *)
Theorem C2_planning_call_retry :
  ∀ req up, accepted req →
    let p := fields_of req in
    let tr := (handler req up).1 in
    let res := (handler req up).2 in
    (posts tr ≤ 2)%nat
    ∧ (posts tr = 2%nat ↔ ∃ e, up 1%nat = Rejected e ∧ timeout_class e)
    ∧ (posts tr = 2%nat → tr = [Post 1 180000 p; Sleep 2000; Post 2 180000 p])
    ∧ (∀ e, up 1%nat = Rejected e → ¬ timeout_class e →
         tr = [Post 1 180000 p] ∧ res = failure false e)
    ∧ (∀ e1 e2, up 1%nat = Rejected e1 → timeout_class e1 →
         up 2%nat = Rejected e2 → ¬ timeout_class e2 →
         tr = [Post 1 180000 p; Sleep 2000; Post 2 180000 p] ∧ res = failure false e2).
Proof.
  intros req up Hacc p tr res. subst tr res.
  rewrite (handler_accepted _ _ Hacc), planning_call_cases. fold p.
  destruct (up 1%nat) as [d|e1] eqn:H1.
  { repeat split; cbn; try lia; try done; intros; simplify_eq.
    by destruct H as (? & ? & _). }
  destruct (timeoutLike e1) eqn:Ht1.
  - assert (Hc1 : timeout_class e1) by (by apply timeoutLike_spec).
    destruct (up 2%nat) as [d|e2] eqn:H2.
    + repeat split; cbn; try lia; try done; intros; simplify_eq; eauto; done.
    + repeat split; cbn; try lia; try done; intros; simplify_eq; eauto; try done.
      by rewrite (proj2 (timeoutLike_false _)).
  - assert (Hc1 : ¬ timeout_class e1) by (by apply timeoutLike_false).
    repeat split; cbn; try lia; try done; intros; simplify_eq; try done.
    by destruct H as (? & ? & ?); simplify_eq.
Qed.

Lemma C2_planning_call_retry_witness :
  let req : Request field :=
    {| method := "POST";
       body := Some (<[ "treatment_planner_text" := Scalar (VStr "lip filler") ]>
                       {[ "session_id" := Scalar (VStr "s-1") ]}) |} in
  let aborted := {| code := Some "ECONNABORTED";
                    message := Some "timeout of 180000ms exceeded";
                    response_data := None |} in
  let refused := {| code := Some "ERR_BAD_REQUEST";
                    message := Some "Request failed with status code 400";
                    response_data := Some (JObject "{}") |} in
  accepted req
  ∧ (handler req (λ _, Rejected aborted)).1
    = [Post 1 180000 (fields_of req); Sleep 2000; Post 2 180000 (fields_of req)]
  ∧ (handler req (λ _, Rejected refused)).1 = [Post 1 180000 (fields_of req)].
Proof.
  intros req aborted refused.
  assert (Hacc : accepted req) by (repeat split; reflexivity).
  split; [exact Hacc|]. split.
  - destruct (C2_planning_call_retry req (λ _, Rejected aborted) Hacc)
      as (_ & Htwo & Htrace & _).
    apply Htrace, Htwo. exists aborted. split; [reflexivity|]. by left.
  - destruct (C2_planning_call_retry req (λ _, Rejected refused) Hacc)
      as (_ & _ & _ & Hone & _).
    apply (Hone refused); [reflexivity|].
    intros [H|[H|(m & Hm & H)]]; [discriminate..|].
    injection Hm as <-. vm_compute in H. discriminate.
Defined.





End PlanningCall.

(** ** The recording session *)

(** *** Final audio *)

(** C4, as worded, does not hold: start, then stop at once; the recorder
    delivers an empty piece of data, which [ondataavailable] drops, and the
    stop callback builds the final audio from an empty chunk sequence, so the
    final audio is non-null in state Stopped with no chunk captured. *)
Lemma C4_counterexample_stop_without_chunks : ¬ final_audio_iff_stopped_with_chunks.
Proof.
  intros H.
  assert (∃ s, Index.run [Index.ClickRecord; Index.MediaGranted 0; Index.ClickStop;
                          Index.DataAvailable 0 []; Index.StopEvent 0] Index.initial = Some s
               ∧ Index.recordingState s = Index.stopped
               ∧ Index.audioBlobRef s = Some []
               ∧ Index.audioChunksRef s = []) as (s & Hrun & _ & Hblob & Hchunks).
  { eexists. split; [vm_compute; reflexivity|]. repeat split. }
  destruct (H _ _ Hrun) as [Himp _].
  destruct Himp as [_ Hne]; [by rewrite Hblob|]. by apply Hne.
Qed.

(** Nor is the final audio tied to the session state.  In [pages/index.js]:
    after stop() and the delivery of a chunk, but before the stop callback, the
    state is Stopped with a chunk captured and a null final audio; after stop()
    and reset(), the stop callback makes the final audio non-null in state
    Idle.  In [public/app.js] a new recording keeps the previous final audio. *)
Lemma final_audio_independent_of_state :
  (∃ s, Index.run [Index.ClickRecord; Index.MediaGranted 0; Index.ClickStop;
                   Index.DataAvailable 0 one_chunk] Index.initial = Some s
        ∧ Index.recordingState s = Index.stopped
        ∧ Index.audioChunksRef s = [one_chunk]
        ∧ Index.audioBlobRef s = None)
  ∧ (∃ s, Index.run [Index.ClickRecord; Index.MediaGranted 0; Index.ClickStop;
                     Index.ClickBack; Index.DataAvailable 0 one_chunk; Index.StopEvent 0]
            Index.initial = Some s
          ∧ Index.recordingState s = Index.idle
          ∧ Index.audioBlobRef s = Some one_chunk)
  ∧ (∃ s, App.run [App.ClickRecord; App.MediaGranted 0; App.ClickStop;
                   App.DataAvailable 0 one_chunk; App.StopEvent 0;
                   App.ClickRecord; App.MediaGranted 9]
            (App.initial false true true true) = Some s
          ∧ App.session_state s = App.Recording
          ∧ App.audioChunks s = []
          ∧ App.audioBlob s = Some one_chunk).
Proof.
  split; [|split]; eexists; (split; [vm_compute; reflexivity|]); repeat split.
Qed.

Lemma App_step_audioBlob e s :
  App.enabled e s = true →
  App.audioBlob (App.step e s) =
    match e with
    | App.StopEvent _ => Some (new_Blob (App.audioChunks s))
    | App.ClickBack => None
    | _ => App.audioBlob s
    end.
Proof.
  intros He. destruct e; try reflexivity; simpl.
  - unfold App.pauseRecording, App.updateUI, App.stopTimer.
    repeat case_match; reflexivity.
  - unfold App.stopRecording, App.updateUI, App.stopTimer.
    repeat case_match; reflexivity.
  - unfold App.ondataavailable. case_match; reflexivity.
  - simpl in He. unfold can_deliver_stop in He. by case_match.
Qed.

Lemma Index_step_audioBlobRef e s :
  Index.enabled e s = true →
  Index.audioBlobRef (Index.step e s) =
    match e with
    | Index.StopEvent _ => Some (new_Blob (Index.audioChunksRef s))
    | Index.ClickBack | Index.ClickRecord => None
    | _ => Index.audioBlobRef s
    end.
Proof.
  intros He. destruct e; try reflexivity; simpl.
  - unfold Index.pauseRecording, Index.stopTimer. repeat case_match; reflexivity.
  - unfold Index.stopRecording, Index.stopTimer. repeat case_match; reflexivity.
  - unfold Index.ondataavailable. case_match; reflexivity.
  - simpl in He. unfold can_deliver_stop in He. by case_match.
Qed.

Lemma App_run_final_audio events : ∀ s0 s acc,
  App.run events s0 = Some s →
  (App.audioBlob s0 ≠ None ↔ acc = true) →
  (App.audioBlob s ≠ None
   ↔ fold_left (λ acc e, match e with
                         | App.StopEvent _ => true
                         | App.ClickBack => false
                         | _ => acc
                         end) events acc = true).
Proof.
  induction events as [|e events IH]; intros s0 s acc Hrun Hacc; simpl in *.
  - by simplify_eq.
  - destruct (App.enabled e s0) eqn:He; [|discriminate].
    apply (IH _ _ _ Hrun). rewrite (App_step_audioBlob _ _ He).
    destruct e; done.
Qed.

Lemma Index_run_final_audio events : ∀ s0 s acc,
  Index.run events s0 = Some s →
  (Index.audioBlobRef s0 ≠ None ↔ acc = true) →
  (Index.audioBlobRef s ≠ None
   ↔ fold_left (λ acc e, match e with
                         | Index.StopEvent _ => true
                         | Index.ClickBack | Index.ClickRecord => false
                         | _ => acc
                         end) events acc = true).
Proof.
  induction events as [|e events IH]; intros s0 s acc Hrun Hacc; simpl in *.
  - by simplify_eq.
  - destruct (Index.enabled e s0) eqn:He; [|discriminate].
    apply (IH _ _ _ Hrun). rewrite (Index_step_audioBlobRef _ _ He).
    destruct e; done.
Qed.

(** C4, amended. In every reachable state a non-null final audio implies
    that a recorder's stop callback has run and that [resetView] was not
    invoked since; in [pages/index.js] the final audio is non-null exactly
    when a stop callback has run and neither [resetView] nor a new
    [startRecording] was invoked since.  The stop callback stores the blob made
    of the chunks accumulated so far, whether or not there are any. *)
Theorem C4_final_audio_set_by_stop_callback :
  (∀ events s,
     Index.run events Index.initial = Some s →
     (Index.audioBlobRef s ≠ None ↔ Index_final_audio_after events = true))
  ∧ (∀ events rec_d pause_d stop_d submit_d s,
     App.run events (App.initial rec_d pause_d stop_d submit_d) = Some s →
     (App.audioBlob s ≠ None → App_final_audio_after events = true))
  ∧ (∀ r s,
     Index.enabled (Index.StopEvent r) s = true →
     Index.audioBlobRef (Index.step (Index.StopEvent r) s)
       = Some (new_Blob (Index.audioChunksRef s)))
  ∧ (∀ r s,
     App.enabled (App.StopEvent r) s = true →
     App.audioBlob (App.step (App.StopEvent r) s) = Some (new_Blob (App.audioChunks s))).
Proof.
  split; [|split; [|split]].
  - intros events s Hrun. by apply (Index_run_final_audio _ _ _ _ Hrun).
  - intros events rd pd sd ud s Hrun. by apply (App_run_final_audio _ _ _ _ Hrun).
  - intros r s He. by rewrite Index_step_audioBlobRef.
  - intros r s He. by rewrite App_step_audioBlob.
Qed.

Lemma C4_final_audio_witness :
  ∃ s, Index.run [Index.ClickRecord; Index.MediaGranted 0; Index.ClickStop;
                  Index.DataAvailable 0 one_chunk; Index.StopEvent 0] Index.initial = Some s
       ∧ (Index.audioBlobRef s ≠ None
          ↔ Index_final_audio_after
              [Index.ClickRecord; Index.MediaGranted 0; Index.ClickStop;
               Index.DataAvailable 0 one_chunk; Index.StopEvent 0] = true).
Proof.
  eexists. split; [vm_compute; reflexivity|].
  apply (proj1 C4_final_audio_set_by_stop_callback). vm_compute; reflexivity.
Defined.

(** *** Recorder states under the browser operations *)

Lemma state_of_set r st (l : list MediaRecorder) :
  rstate <$> alter (set_rstate st) r l !! r = (λ _, st) <$> l !! r.
Proof. rewrite list_lookup_alter_eq. by destruct (l !! r). Qed.

Lemma state_of_rec_stop r b :
  state_of r (rec_stop r b) = (λ _, inactive) <$> state_of r b.
Proof.
  unfold state_of, rec_stop. simpl. rewrite list_lookup_alter_eq.
  by destruct (recorders b !! r).
Qed.

Lemma state_of_rec_pause r b :
  state_of r (rec_pause r b) = (λ _, paused) <$> state_of r b.
Proof.
  unfold state_of, rec_pause. simpl. rewrite state_of_set. by destruct (recorders b !! r).
Qed.

Lemma state_of_rec_resume r b :
  state_of r (rec_resume r b) = (λ _, recording) <$> state_of r b.
Proof.
  unfold state_of, rec_resume. simpl. rewrite state_of_set. by destruct (recorders b !! r).
Qed.

Lemma state_of_stop_delivered r r' b :
  state_of r (stop_delivered r' b) = state_of r b.
Proof.
  unfold state_of, stop_delivered. simpl. rewrite list_lookup_alter.
  case_decide; [subst|done]. by destruct (recorders b !! r).
Qed.

(** The operations on streams and timers leave the recorders alone. *)
Lemma state_of_recorders r b b' :
  recorders b' = recorders b → state_of r b' = state_of r b.
Proof. unfold state_of. by intros ->. Qed.

(** *** Session state and recorder state: [pages/index.js] *)

Lemma Index_recorder_stopTimer s :
  Index_recorder (Index.stopTimer s) = Index_recorder s
  ∧ Index.recordingState (Index.stopTimer s) = Index.recordingState s.
Proof. unfold Index.stopTimer. by destruct (Index.timerRef s). Qed.

Lemma Index_synced_stopTimer s : Index_synced (Index.stopTimer s) ↔ Index_synced s.
Proof.
  unfold Index_synced. by destruct (Index_recorder_stopTimer s) as [-> ->].
Qed.

Lemma Index_pauseRecording_synced now s :
  Index_synced s → Index_synced (Index.pauseRecording now s).
Proof.
  intros Hs. unfold Index.pauseRecording.
  destruct (Index.mediaRecorderRef s) as [r|] eqn:Hr; [|done].
  destruct (state_of r (Index.browser s)) as [[]|] eqn:Hst; try done.
  - apply Index_synced_stopTimer. unfold Index_synced, Index_recorder. simpl.
    rewrite Hr. simpl. by rewrite state_of_rec_pause, Hst.
  - unfold Index_synced, Index_recorder. simpl. rewrite Hr. simpl.
    rewrite (state_of_recorders r (rec_resume r (Index.browser s))) by done.
    by rewrite state_of_rec_resume, Hst.
Qed.

Lemma Index_stopRecording_synced s :
  Index_synced s → Index_synced (Index.stopRecording s).
Proof.
  intros Hs. unfold Index.stopRecording.
  destruct (Index.mediaRecorderRef s) as [r|] eqn:Hr; [|done].
  destruct (state_of r (Index.browser s)) as [[]|] eqn:Hst; try done.
  all: apply Index_synced_stopTimer; unfold Index_synced, Index_recorder; simpl;
    rewrite Hr; simpl; by rewrite state_of_rec_stop, Hst.
Qed.

Lemma Index_granted_synced now s :
  Index_synced (Index.startRecording_granted now s).
Proof.
  unfold Index_synced, Index_recorder. simpl.
  unfold state_of. simpl. rewrite state_of_set, lookup_app_r, Nat.sub_diag by lia.
  reflexivity.
Qed.

Lemma Index_onstop_synced r m s :
  Index_synced s →
  Index_synced (Index.onstop (rstream m)
                  (Index.with_browser (stop_delivered r (Index.browser s)) s)).
Proof.
  unfold Index_synced, Index_recorder. simpl.
  destruct (Index.mediaRecorderRef s) as [r'|]; [|done]. simpl. intros Hs.
  rewrite (state_of_recorders r' (stop_delivered r (Index.browser s))
             (stop_tracks (rstream m) (stop_delivered r (Index.browser s)))) by done.
  by rewrite state_of_stop_delivered.
Qed.

Lemma Index_step_synced e s :
  Index_synced s → Index_synced (Index.step e s).
Proof.
  intros Hs. destruct e; simpl.
  - exact Hs.
  - apply Index_granted_synced.
  - exact Hs.
  - by apply Index_pauseRecording_synced.
  - by apply Index_stopRecording_synced.
  - done.
  - unfold Index.ondataavailable. by destruct (0 <? length data)%nat.
  - destruct (recorders (Index.browser s) !! r) as [m|]; [|done].
    by apply Index_onstop_synced.
  - exact Hs.
Qed.

Lemma Index_run_synced events : ∀ s0 s,
  Index.run events s0 = Some s → Index_synced s0 → Index_synced s.
Proof.
  induction events as [|e events IH]; intros s0 s Hrun Hs; simpl in Hrun.
  - by simplify_eq.
  - destruct (Index.enabled e s0); [|done].
    eapply IH; [done|]. by apply Index_step_synced.
Qed.

(** *** Flags, recorder and record button: [public/app.js] *)

Lemma App_recorder_stopTimer s :
  App_recorder (App.stopTimer s) = App_recorder s.
Proof. unfold App.stopTimer. by destruct (App.timerInterval s). Qed.

Lemma App_synced_stopTimer s : App_synced (App.stopTimer s) ↔ App_synced s.
Proof.
  unfold App_synced. rewrite App_recorder_stopTimer.
  unfold App.stopTimer. by destruct (App.timerInterval s).
Qed.

Lemma App_recorder_updateUI s : App_recorder (App.updateUI s) = App_recorder s.
Proof. unfold App.updateUI. by repeat case_match. Qed.

Lemma App_updateUI_flags s :
  App.isRecording (App.updateUI s) = App.isRecording s
  ∧ App.isPaused (App.updateUI s) = App.isPaused s
  ∧ (App.isRecording s = true → App.isPaused s = false →
     App.recordBtn_disabled (App.updateUI s) = true).
Proof.
  unfold App.updateUI.
  destruct (App.isRecording s) eqn:Hr, (App.isPaused s) eqn:Hp; simpl; by rewrite ?Hr, ?Hp.
Qed.

(** [updateUI] makes the button agree with flags that agree with the recorder. *)
Lemma App_synced_updateUI s :
  match App_recorder s with
  | Some Media.recording => App.isRecording s = true ∧ App.isPaused s = false
  | Some Media.paused => App.isRecording s = true ∧ App.isPaused s = true
  | Some Media.inactive | None => App.isRecording s = false ∧ App.isPaused s = false
  end →
  App_synced (App.updateUI s).
Proof.
  intros Hs. unfold App_synced. rewrite App_recorder_updateUI.
  destruct (App_updateUI_flags s) as (-> & -> & Hbtn).
  destruct (App_recorder s) as [[]|]; try done.
  destruct Hs as [Hr Hp]. auto.
Qed.

Lemma App_pauseRecording_synced now s :
  App_synced s → App_synced (App.pauseRecording now s).
Proof.
  intros Hs. unfold App.pauseRecording.
  destruct (App.mediaRecorder s) as [r|] eqn:Hr; [|done].
  destruct (state_of r (App.browser s)) as [[]|] eqn:Hst; try done.
  - apply App_synced_updateUI. rewrite App_recorder_stopTimer.
    unfold App_synced, App_recorder in *. rewrite Hr in Hs. simpl in Hs. rewrite Hst in Hs.
    simpl. rewrite Hr. simpl. rewrite state_of_rec_pause, Hst. simpl.
    unfold App.stopTimer. simpl. destruct (App.timerInterval s); simpl; tauto.
  - apply App_synced_updateUI.
    unfold App_synced, App_recorder in *. rewrite Hr in Hs. simpl in Hs. rewrite Hst in Hs.
    simpl. rewrite Hr. simpl.
    rewrite (state_of_recorders r (rec_resume r (App.browser s))) by done.
    rewrite state_of_rec_resume, Hst. simpl. tauto.
Qed.

Lemma App_stopRecording_synced s :
  App_synced s → App_synced (App.stopRecording s).
Proof.
  intros Hs. unfold App.stopRecording.
  destruct (App.mediaRecorder s) as [r|] eqn:Hr; [|done].
  destruct (state_of r (App.browser s)) as [[]|] eqn:Hst; try done.
  all: apply App_synced_updateUI; rewrite App_recorder_stopTimer;
    unfold App_recorder; simpl; rewrite Hr; simpl; rewrite state_of_rec_stop, Hst; simpl;
    unfold App.stopTimer; simpl; by destruct (App.timerInterval s).
Qed.

Lemma App_granted_synced now s :
  App_synced (App.startRecording_granted now s).
Proof.
  unfold App.startRecording_granted. simpl.
  unfold App_synced, App_recorder. simpl.
  unfold state_of. simpl. rewrite state_of_set, lookup_app_r, Nat.sub_diag by lia.
  simpl. done.
Qed.

Lemma App_onstop_synced r m s :
  App_synced s →
  App_synced (App.onstop (rstream m) (App.with_browser (stop_delivered r (App.browser s)) s)).
Proof.
  unfold App_synced, App_recorder. simpl.
  destruct (App.mediaRecorder s) as [r'|]; [|done]. simpl. intros Hs.
  rewrite (state_of_recorders r' (stop_delivered r (App.browser s))
             (stop_tracks (rstream m) (stop_delivered r (App.browser s)))) by done.
  by rewrite state_of_stop_delivered.
Qed.

Lemma App_step_synced e s : App_synced s → App_synced (App.step e s).
Proof.
  intros Hs. destruct e; simpl.
  - exact Hs.
  - apply App_granted_synced.
  - exact Hs.
  - by apply App_pauseRecording_synced.
  - by apply App_stopRecording_synced.
  - exact Hs.
  - unfold App.ondataavailable. by destruct (0 <? length data)%nat.
  - destruct (recorders (App.browser s) !! r) as [m|]; [|done].
    by apply App_onstop_synced.
  - exact Hs.
Qed.

Lemma App_run_synced events : ∀ s0 s,
  App.run events s0 = Some s → App_synced s0 → App_synced s.
Proof.
  induction events as [|e events IH]; intros s0 s Hrun Hs; simpl in Hrun.
  - by simplify_eq.
  - destruct (App.enabled e s0); [|done].
    eapply IH; [done|]. by apply App_step_synced.
Qed.

Lemma App_initial_synced rec_d pause_d stop_d submit_d :
  App_synced (App.initial rec_d pause_d stop_d submit_d).
Proof. done. Qed.

(** *** Reset *)

(** C5, as worded, does not hold.  In [public/app.js] a reset after a
    finished recording leaves the captured chunk in the chunk sequence; in
    [pages/index.js] a reset during a recording leaves the device held. *)
Lemma C5_counterexample_reset :
  ¬ reset_clears_and_releases_App ∧ ¬ reset_clears_and_releases_Index.
Proof.
  split; intros H.
  - assert (∃ s, App.run [App.ClickRecord; App.MediaGranted 0; App.ClickStop;
                          App.DataAvailable 0 one_chunk; App.StopEvent 0]
                   (App.initial false true true true) = Some s
                 ∧ App.audioChunks s = [one_chunk]) as (s & Hrun & Hchunks).
    { eexists. split; [vm_compute; reflexivity|reflexivity]. }
    destruct (H _ _ _ _ _ _ Hrun) as (_ & _ & Hempty & _).
    change (App.audioChunks s = []) in Hempty. by rewrite Hchunks in Hempty.
  - assert (∃ s, Index.run [Index.ClickRecord; Index.MediaGranted 0] Index.initial = Some s
                 ∧ held (Index.browser (Index.resetView s)) = 1%nat) as (s & Hrun & Hheld).
    { eexists. split; [vm_compute; reflexivity|reflexivity]. }
    destruct (H _ _ Hrun) as (_ & _ & _ & Hreleased).
    cbv zeta in Hreleased. by rewrite Hheld in Hreleased.
Qed.

(** C5, amended. From every state [resetView] nulls the final audio.  In
    [pages/index.js] it also sets the state to Idle and empties the chunk
    sequence; in [public/app.js] the chunk sequence is emptied by the next
    start. *)
Theorem C5_reset_clears_final_audio :
  (∀ s, let s' := Index.resetView s in
        Index.recordingState s' = Index.idle
        ∧ Index.audioBlobRef s' = None
        ∧ Index.audioChunksRef s' = []
        ∧ Index.canSubmit s' = false)
  ∧ (∀ s, let s' := App.resetView s in
          App.audioBlob s' = None ∧ App.submitBtn_disabled s' = true)
  ∧ (∀ now s, App.audioChunks (App.startRecording_granted now s) = []).
Proof.
  split; [|split].
  - intros s. simpl. done.
  - intros s. simpl. done.
  - intros now s. reflexivity.
Qed.

(** [resetView] leaves every stream and recorder as it was; the cleanup run on
    unmount stops a recorder that is still live. *)
Lemma reset_keeps_streams_and_recorders :
  (∀ s, streams (Index.browser (Index.resetView s)) = streams (Index.browser s)
        ∧ recorders (Index.browser (Index.resetView s)) = recorders (Index.browser s))
  ∧ (∀ s, App.browser (App.resetView s) = App.browser s).
Proof.
  split; [|done]. intros s. unfold Index.resetView, Index.stopTimer.
  destruct (Index.timerRef s), (Index.pollTimeoutRef s) eqn:Hp; simpl; rewrite ?Hp; done.
Qed.

Lemma unmount_stops_live_recorder s r :
  Index.mediaRecorderRef s = Some r →
  state_of r (Index.browser s) = Some recording →
  can_deliver_stop r (Index.browser (Index.unmount s)) = true.
Proof.
  intros Hr Hst.
  assert (∃ m, recorders (Index.browser s) !! r = Some m ∧ rstate m = recording)
    as (m & Hm & Hrec).
  { unfold state_of in Hst. destruct (recorders (Index.browser s) !! r) as [m|]; [|done].
    exists m. split; [done|]. by injection Hst. }
  unfold Index.unmount, Index.stopTimer.
  destruct (Index.timerRef s), (Index.pollTimeoutRef s) eqn:Hp; simpl; rewrite ?Hp; simpl;
    rewrite Hr; unfold state_of; simpl; rewrite Hm; simpl; rewrite Hrec;
    unfold can_deliver_stop; simpl; by rewrite list_lookup_alter_eq, Hm.
Qed.

(** *** Start *)

(** C7, as worded, does not hold: a start invoked while the session is
    Recording acquires a second device handle. *)
Lemma C7_counterexample_second_handle : ¬ start_never_holds_two.
Proof.
  intros H.
  assert (∃ s, Index.run [Index.ClickRecord; Index.MediaGranted 0] Index.initial = Some s
               ∧ Index.recordingState s = Index.recording
               ∧ held (Index.browser
                         (Index.startRecording_granted 5 (Index.startRecording_begin s)))
                 = 2%nat) as (s & Hrun & Hst & Hheld).
  { eexists. split; [vm_compute; reflexivity|]. split; reflexivity. }
  pose proof (H _ _ 5 Hrun (or_introl Hst)) as Hle. rewrite Hheld in Hle. lia.
Qed.

Lemma Index_start_acquires now s :
  let s' := Index.startRecording_granted now (Index.startRecording_begin s) in
  held (Index.browser s') = S (held (Index.browser s))
  ∧ Index.mediaRecorderRef s' = Some (length (recorders (Index.browser s)))
  ∧ Index.recordingState s' = Index.recording.
Proof.
  simpl. split; [|done]. unfold held. simpl.
  rewrite List.filter_app, length_app. simpl. lia.
Qed.

Lemma App_start_acquires now s :
  let s' := App.startRecording_granted now (App.startRecording_begin s) in
  held (App.browser s') = S (held (App.browser s))
  ∧ App.mediaRecorder s' = Some (length (recorders (App.browser s)))
  ∧ App.isRecording s' = true ∧ App.isPaused s' = false.
Proof.
  simpl. split; [|done]. unfold held. simpl.
  rewrite List.filter_app, length_app. simpl. lia.
Qed.

Lemma App_session_Recording s :
  App.session_state s = App.Recording ↔ App.isRecording s = true ∧ App.isPaused s = false.
Proof.
  unfold App.session_state.
  destruct (App.isRecording s), (App.isPaused s), (App.audioBlob s); simpl; split;
    (done || by intros []).
Qed.

(** C7, amended. [startRecording] does not look at the session state: once
    the device is granted it holds one more device handle and the session
    refers to a new recorder, whatever the state before, Recording and Paused
    included.  A second start is kept out by the UI alone: whenever the
    session is Recording the record button is disabled (in [pages/index.js]
    also whenever it is Paused). *)
Theorem C7_start_unguarded_button_disabled :
  (∀ now s,
     let s' := Index.startRecording_granted now (Index.startRecording_begin s) in
     held (Index.browser s') = S (held (Index.browser s))
     ∧ Index.mediaRecorderRef s' = Some (length (recorders (Index.browser s)))
     ∧ Index.recordingState s' = Index.recording)
  ∧ (∀ now s,
     let s' := App.startRecording_granted now (App.startRecording_begin s) in
     held (App.browser s') = S (held (App.browser s))
     ∧ App.mediaRecorder s' = Some (length (recorders (App.browser s)))
     ∧ App.isRecording s' = true ∧ App.isPaused s' = false)
  ∧ (∀ s,
     Index.recordingState s = Index.recording ∨ Index.recordingState s = Index.paused →
     Index.recordBtn_disabled s = true)
  ∧ (∀ events rec_d pause_d stop_d submit_d s,
     App.run events (App.initial rec_d pause_d stop_d submit_d) = Some s →
     App.session_state s = App.Recording →
     App.recordBtn_disabled s = true).
Proof.
  split; [exact Index_start_acquires|]. split; [exact App_start_acquires|]. split.
  - intros s [Hs|Hs]; unfold Index.recordBtn_disabled, Index.isRecording, Index.isPaused;
      rewrite Hs; reflexivity.
  - intros events rd pd sd ud s Hrun Hrec.
    apply App_session_Recording in Hrec as [Hr Hp].
    pose proof (App_run_synced _ _ _ Hrun (App_initial_synced _ _ _ _)) as Hs.
    unfold App_synced in Hs. destruct (App_recorder s) as [[]|]; destruct_and?; congruence.
Qed.

Lemma C7_start_unguarded_witness :
  ∃ s, App.run [App.ClickRecord; App.MediaGranted 0] (App.initial false true true true)
       = Some s
       ∧ App.session_state s = App.Recording
       ∧ App.recordBtn_disabled s = true.
Proof.
  eexists. split; [vm_compute; reflexivity|]. split; [reflexivity|].
  eapply (proj2 (proj2 (proj2 C7_start_unguarded_button_disabled))
            [App.ClickRecord; App.MediaGranted 0] false true true true).
  - vm_compute; reflexivity.
  - reflexivity.
Defined.

(** *** Pause *)

(** C8, as worded, does not hold: in state Paused the pause handler resumes
    the recording. *)
Lemma C8_counterexample_pause_resumes : ¬ pause_is_noop_outside_recording.
Proof.
  intros H.
  assert (∃ s, Index.run [Index.ClickRecord; Index.MediaGranted 0; Index.ClickPause 40]
                 Index.initial = Some s
               ∧ Index.recordingState s = Index.paused
               ∧ Index.recordingState (Index.pauseRecording 90 s) = Index.recording)
    as (s & Hrun & Hst & Hafter).
  { eexists. split; [vm_compute; reflexivity|]. split; reflexivity. }
  rewrite (H _ _ 90 Hrun) in Hafter by (by rewrite Hst). congruence.
Qed.

Lemma Index_pause_noop now s :
  Index_recorder s = None ∨ Index_recorder s = Some inactive →
  Index.pauseRecording now s = s.
Proof.
  unfold Index_recorder, Index.pauseRecording.
  destruct (Index.mediaRecorderRef s) as [r|]; [|done]. simpl.
  by intros [-> | ->].
Qed.

Lemma App_pause_noop now s :
  App_recorder s = None ∨ App_recorder s = Some inactive →
  App.pauseRecording now s = s.
Proof.
  unfold App_recorder, App.pauseRecording.
  destruct (App.mediaRecorder s) as [r|]; [|done]. simpl.
  by intros [-> | ->].
Qed.

Lemma Index_pause_resumes now s :
  Index_recorder s = Some paused →
  Index.recordingState (Index.pauseRecording now s) = Index.recording
  ∧ Index_recorder (Index.pauseRecording now s) = Some recording
  ∧ Index.audioChunksRef (Index.pauseRecording now s) = Index.audioChunksRef s.
Proof.
  unfold Index_recorder, Index.pauseRecording.
  destruct (Index.mediaRecorderRef s) as [r|] eqn:Hr; [|done]. simpl.
  intros Hst. rewrite Hst. simpl. rewrite Hr. simpl.
  rewrite (state_of_recorders r (rec_resume r (Index.browser s))) by done.
  by rewrite state_of_rec_resume, Hst.
Qed.

Lemma App_pause_resumes now s :
  App_recorder s = Some paused →
  App.isPaused (App.pauseRecording now s) = false
  ∧ App.isRecording (App.pauseRecording now s) = App.isRecording s
  ∧ App_recorder (App.pauseRecording now s) = Some recording
  ∧ App.audioChunks (App.pauseRecording now s) = App.audioChunks s.
Proof.
  unfold App_recorder at 1. unfold App.pauseRecording.
  destruct (App.mediaRecorder s) as [r|] eqn:Hr; [|done]. simpl.
  intros Hst. rewrite Hst.
  rewrite App_recorder_updateUI.
  destruct (App_updateUI_flags
              (App.startTimer
                 (App.with_startTime (Some (now - App.elapsedTime s))
                    (App.with_isPaused false
                       (App.with_browser (rec_resume r (App.browser s)) s)))))
    as (-> & -> & _).
  split; [done|]. split; [done|]. split.
  - unfold App_recorder. simpl. rewrite Hr. simpl.
    rewrite (state_of_recorders r (rec_resume r (App.browser s))) by done.
    by rewrite state_of_rec_resume, Hst.
  - unfold App.updateUI. by repeat case_match.
Qed.

(** C8, amended. [pauseRecording] is a no-op whenever the session has no
    recorder or its recorder is inactive: the whole state, chunks and elapsed
    time included, is unchanged.  That is the case in every reachable Stopped
    state and in Idle before the first recording (in [public/app.js]: in every
    reachable state that is neither Recording nor Paused).  In Paused it is
    not a no-op: the same handler resumes the recorder and the session is
    Recording again, with the chunks unchanged. *)
Theorem C8_pause_noop_unless_recorder_live :
  (∀ now s,
     Index_recorder s = None ∨ Index_recorder s = Some inactive →
     Index.pauseRecording now s = s)
  ∧ (∀ now, Index.pauseRecording now Index.initial = Index.initial)
  ∧ (∀ events s now,
     Index.run events Index.initial = Some s →
     (Index.recordingState s = Index.stopped → Index.pauseRecording now s = s)
     ∧ (Index.recordingState s = Index.paused →
        Index.recordingState (Index.pauseRecording now s) = Index.recording
        ∧ Index.audioChunksRef (Index.pauseRecording now s) = Index.audioChunksRef s))
  ∧ (∀ now s,
     App_recorder s = None ∨ App_recorder s = Some inactive →
     App.pauseRecording now s = s)
  ∧ (∀ events rec_d pause_d stop_d submit_d s now,
     App.run events (App.initial rec_d pause_d stop_d submit_d) = Some s →
     (App.session_state s = App.Idle ∨ App.session_state s = App.Complete →
      App.pauseRecording now s = s)
     ∧ (App.session_state s = App.Paused →
        App.session_state (App.pauseRecording now s) = App.Recording
        ∧ App.audioChunks (App.pauseRecording now s) = App.audioChunks s)).
Proof.
  split; [exact Index_pause_noop|]. split; [done|]. split; [|split; [exact App_pause_noop|]].
  - intros events s now Hrun.
    pose proof (Index_run_synced _ _ _ Hrun I) as Hs. unfold Index_synced in Hs.
    split; intros Hst; rewrite Hst in Hs.
    + apply Index_pause_noop. by right.
    + by destruct (Index_pause_resumes now s Hs) as (? & _ & ?).
  - intros events rd pd sd ud s now Hrun.
    pose proof (App_run_synced _ _ _ Hrun (App_initial_synced _ _ _ _)) as Hs.
    unfold App_synced in Hs. split.
    + intros Hst. apply App_pause_noop.
      assert (App.isRecording s = false ∧ App.isPaused s = false) as [Hr Hp].
      { unfold App.session_state in Hst.
        destruct (App.isRecording s), (App.isPaused s), (App.audioBlob s); simpl in *;
          destruct Hst; done. }
      destruct (App_recorder s) as [[]|]; auto; destruct_and?; congruence.
    + intros Hst.
      assert (App.isPaused s = true) as Hp.
      { unfold App.session_state in Hst.
        destruct (App.isRecording s), (App.isPaused s), (App.audioBlob s); done. }
      assert (App_recorder s = Some paused ∧ App.isRecording s = true) as [Hrec Hr].
      { destruct (App_recorder s) as [[]|]; destruct_and?; (done || congruence). }
      destruct (App_pause_resumes now s Hrec) as (Hp' & Hr' & _ & Hchunks).
      split; [|done]. apply App_session_Recording. by rewrite Hr', Hp'.
Qed.

Lemma C8_pause_noop_witness :
  ∃ s, Index.run [Index.ClickRecord; Index.MediaGranted 0; Index.ClickStop;
                  Index.DataAvailable 0 one_chunk; Index.StopEvent 0] Index.initial = Some s
       ∧ Index.recordingState s = Index.stopped
       ∧ Index.pauseRecording 7 s = s.
Proof.
  eexists. split; [vm_compute; reflexivity|]. split; [reflexivity|].
  eapply (proj1 (proj1 (proj2 (proj2 C8_pause_noop_unless_recorder_live))
            [Index.ClickRecord; Index.MediaGranted 0; Index.ClickStop;
             Index.DataAvailable 0 one_chunk; Index.StopEvent 0] _ 7 _)).
  reflexivity.
  Unshelve. vm_compute; reflexivity.
Defined.

(** * Further properties of the sources *)

(** ** The timer display *)

Lemma padStart_two_digits n :
  0 ≤ n < 100 →
  Clock.padStart 2 (Ascii.ascii_of_N 48) (pretty n) = Clock.two_digits n.
Proof.
  intros Hn.
  assert (Hall : forallb (λ k : nat,
                    String.eqb
                      (Clock.padStart 2 (Ascii.ascii_of_N 48) (pretty (Z.of_nat k)))
                      (Clock.two_digits (Z.of_nat k)))
                  (seq 0 100) = true) by (vm_compute; reflexivity).
  rewrite forallb_forall in Hall.
  specialize (Hall (Z.to_nat n)). rewrite Z2Nat.id in Hall by lia.
  apply String.eqb_eq, Hall, in_seq. lia.
Qed.

Lemma digit_inj a b : 0 ≤ a < 10 → 0 ≤ b < 10 → Clock.digit a = Clock.digit b → a = b.
Proof.
  intros Ha Hb Heq. unfold Clock.digit in Heq.
  apply (f_equal Ascii.N_of_ascii) in Heq.
  rewrite !Ascii.N_ascii_embedding in Heq by lia. lia.
Qed.

Lemma two_digits_inj a b :
  0 ≤ a < 100 → 0 ≤ b < 100 → Clock.two_digits a = Clock.two_digits b → a = b.
Proof.
  intros Ha Hb Heq. unfold Clock.two_digits in Heq. injection Heq as H1 H0.
  apply digit_inj in H1, H0;
    try (split; [apply Z.div_pos|apply Z.div_lt_upper_bound]; lia);
    try (apply Z.mod_pos_bound; lia).
  rewrite (Z.div_mod a 10), (Z.div_mod b 10) by lia. lia.
Qed.

Lemma whole_seconds_bounds ms :
  0 ≤ ms < 6000000 →
  0 ≤ (ms `div` 1000) `div` 60 < 100 ∧ 0 ≤ (ms `div` 1000) `mod` 60 < 60.
Proof.
  intros Hms. split.
  - split; [apply Z.div_pos; [apply Z.div_pos|]; lia|].
    apply Z.div_lt_upper_bound; [lia|]. apply Z.div_lt_upper_bound; lia.
  - apply Z.mod_pos_bound. lia.
Qed.

(** X1. For an elapsed time of less than 100 minutes the timer shows exactly
    five characters, mm:ss: the whole minutes on two decimal digits, a colon,
    the seconds (below 60) on two decimal digits. *)
Theorem X1_formatTime_mm_ss :
  ∀ ms, 0 ≤ ms < 6000000 →
    let t := ms `div` 1000 in
    Clock.formatTime ms
    = Clock.two_digits (t `div` 60) +:+ ":" +:+ Clock.two_digits (t `mod` 60)
    ∧ String.length (Clock.formatTime ms) = 5%nat
    ∧ 0 ≤ t `div` 60 < 100 ∧ 0 ≤ t `mod` 60 < 60.
Proof.
  intros ms Hms t. destruct (whole_seconds_bounds ms Hms) as [Hm Hs]. fold t in Hm, Hs.
  assert (Hshape : Clock.formatTime ms
    = Clock.two_digits (t `div` 60) +:+ ":" +:+ Clock.two_digits (t `mod` 60)).
  { unfold Clock.formatTime. fold t.
    rewrite Z.rem_mod_nonneg by (subst t; try apply Z.div_pos; lia).
    by rewrite (padStart_two_digits (t `div` 60)), (padStart_two_digits (t `mod` 60))
      by lia. }
  split; [exact Hshape|]. split; [by rewrite Hshape|done].
Qed.

Lemma X1_formatTime_witness :
  Clock.formatTime 754321
  = Clock.two_digits ((754321 `div` 1000) `div` 60) +:+ ":"
    +:+ Clock.two_digits ((754321 `div` 1000) `mod` 60).
Proof. apply (X1_formatTime_mm_ss 754321). lia. Defined.

(** X2. Below 100 minutes the timer text determines the elapsed whole
    seconds: two elapsed times are shown alike exactly when they lie in the
    same second. *)
Theorem X2_formatTime_determines_seconds :
  ∀ a b, 0 ≤ a < 6000000 → 0 ≤ b < 6000000 →
    Clock.formatTime a = Clock.formatTime b ↔ a `div` 1000 = b `div` 1000.
Proof.
  intros a b Ha Hb. split; [|unfold Clock.formatTime; by intros ->].
  destruct (X1_formatTime_mm_ss a Ha) as (-> & _ & Hma & Hsa).
  destruct (X1_formatTime_mm_ss b Hb) as (-> & _ & Hmb & Hsb).
  intros Heq.
  assert (Clock.two_digits ((a `div` 1000) `div` 60) = Clock.two_digits ((b `div` 1000) `div` 60)
          ∧ Clock.two_digits ((a `div` 1000) `mod` 60) = Clock.two_digits ((b `div` 1000) `mod` 60))
    as [Hm Hs].
  { unfold Clock.two_digits in *. simpl in Heq. injection Heq as -> -> -> ->. done. }
  apply two_digits_inj in Hm, Hs; try lia.
  rewrite (Z.div_mod (a `div` 1000) 60), (Z.div_mod (b `div` 1000) 60) by lia. lia.
Qed.

Lemma X2_formatTime_witness :
  Clock.formatTime 61000 = Clock.formatTime 61999 ↔ 61000 `div` 1000 = 61999 `div` 1000.
Proof. apply X2_formatTime_determines_seconds; lia. Defined.

(** ** The proxy handlers *)

Import Props2.

(** Closes the cases of a handler contract once the handler's branch is
    fixed. *)
Ltac contract :=
  repeat split; intros;
  repeat match goal with
         | H : _ ∧ _ |- _ => destruct H
         | H : _ ∨ _ |- _ => destruct H
         | H : ∃ _, _ |- _ => destruct H
         end;
  simplify_eq; eauto 10; try done.

Lemma apiKey_nonempty env : Api.apiKey env ≠ "".
Proof.
  unfold Api.apiKey. destruct env as [k|]; [|done].
  destruct (String.eqb_spec k ""); done.
Qed.

Lemma apiKey_eqb env : String.eqb (Api.apiKey env) "" = false.
Proof. apply String.eqb_neq, apiKey_nonempty. Qed.

(** X3. Whatever the environment holds, the three handlers never answer
    "Missing AssemblyAI API key": the key they use is the environment's when it
    is set and not empty, the built-in one otherwise, and every request they
    send to the provider carries it. *)
Theorem X3_api_key_always_present :
  ∀ env,
    (Api.apiKey env = match env with
                      | Some k => if decide (k = "") then Api.builtin_key else k
                      | None => Api.builtin_key
                      end)
    ∧ (∀ req up, (Api.transcribe env req up).2 ≠ missing_key
                 ∧ Forall (authorized (Api.apiKey env)) (Api.transcribe env req up).1)
    ∧ (∀ req up, (Api.transcript env req up).2 ≠ missing_key
                 ∧ Forall (authorized (Api.apiKey env)) (Api.transcript env req up).1)
    ∧ (∀ req up, (Api.upload env req up).2 ≠ missing_key
                 ∧ Forall (authorized (Api.apiKey env)) (Api.upload env req up).1).
Proof.
  intros env. split; [|split; [|split]].
  - unfold Api.apiKey. destruct env as [k|]; [|done].
    destruct (String.eqb_spec k ""), (decide (k = "")); done.
  - intros req up. unfold Api.transcribe. rewrite apiKey_eqb.
    repeat case_match; simpl; split; (done || by repeat constructor).
  - intros req up. unfold Api.transcript. rewrite apiKey_eqb.
    repeat case_match; simpl; split; (done || by repeat constructor).
  - intros req up. unfold Api.upload. rewrite apiKey_eqb.
    repeat case_match; simpl; split; (done || by repeat constructor).
Qed.

Lemma json_fields_truthy k v (rest : list (string * jsval)) :
  truthy v = true → json_fields ((k, v) :: rest) = (k, v) :: json_fields rest.
Proof.
  intros Hv. unfold json_fields. rewrite filter_cons. simpl.
  case_decide as Hne; [done|]. by rewrite Hne in Hv.
Qed.

(** X4. The job-start handler reaches the provider at most once, and not at
    all for a request it rejects: it answers 405 exactly for a method other
    than POST, 400 exactly for a POST without a truthy audioUrl, and 200
    exactly when the provider accepted the one request sent, which names the
    given audio URL; the 200 answer carries the provider's id as
    transcriptId. *)
Theorem X4_transcribe_handler_contract :
  ∀ env req up,
    let audioUrl := get_field (default ∅ (Planner.body req)) "audioUrl" in
    let tr := (Api.transcribe env req up).1 in
    let res := (Api.transcribe env req up).2 in
    (Api.status res = 405 ↔ Planner.method req ≠ "POST")
    ∧ (Api.status res = 400 ↔ Planner.method req = "POST" ∧ truthy audioUrl = false)
    ∧ (tr = [] ↔ Api.status res = 405 ∨ Api.status res = 400)
    ∧ (tr ≠ [] →
       tr = [Api.Call "POST" "https://api.assemblyai.com/v2/transcript"
               (Api.JsonBody [("audio_url", audioUrl);
                              ("speech_model", VStr "universal")]%string)
               (Api.apiKey env)])
    ∧ (Api.status res = 200 ↔ tr ≠ [] ∧ ∃ data, up = Api.Resolved data)
    ∧ (∀ data, tr ≠ [] → up = Api.Resolved data →
       Api.json res = Api.BObject (json_fields [("transcriptId", get_field data "id")]%string)).
Proof.
  intros env req up audioUrl tr res. subst tr res. unfold Api.transcribe.
  rewrite apiKey_eqb. fold audioUrl.
  destruct (String.eqb_spec (Planner.method req) "POST") as [Hm|Hm]; simpl;
    [|by contract].
  destruct (truthy audioUrl) eqn:Ht; simpl; [|by contract].
  rewrite (json_fields_truthy _ _ _ Ht).
  destruct up as [data|error]; simpl; by contract.
Qed.

(** X5. The job-status handler reaches the provider at most once, and not at
    all for a request it rejects (405 for a method other than GET, 400 for a
    missing or empty id); when the provider answers, the handler answers 200
    with the provider's data unchanged; when the provider request fails, it
    answers 500 "Failed to get transcription status". *)
Theorem X5_transcript_handler_contract :
  ∀ env req up,
    let tr := (Api.transcript env req up).1 in
    let res := (Api.transcript env req up).2 in
    (Api.status res = 405 ↔ Api.s_method req ≠ "GET")
    ∧ (Api.status res = 400
       ↔ Api.s_method req = "GET" ∧ (Api.id req = None ∨ Api.id req = Some ""))
    ∧ (tr = [] ↔ Api.status res = 405 ∨ Api.status res = 400)
    ∧ (∀ id, Api.s_method req = "GET" → Api.id req = Some id → id ≠ "" →
       tr = [Api.Call "GET" ("https://api.assemblyai.com/v2/transcript/" +:+ id)
               Api.NoBody (Api.apiKey env)]
       ∧ (∀ data, up = Api.Resolved data →
          res = {| Api.status := 200; Api.json := Api.BData data |})
       ∧ (∀ error, up = Api.Rejected error →
          Api.status res = 500
          ∧ ∃ details, Api.json res
                       = Api.BError "Failed to get transcription status" details)).
Proof.
  intros env req up tr res. subst tr res. unfold Api.transcript.
  rewrite apiKey_eqb.
  destruct (String.eqb_spec (Api.s_method req) "GET") as [Hm|Hm]; simpl;
    [|by contract].
  destruct (Api.id req) as [id|]; simpl; [|by contract].
  destruct (String.eqb_spec id "") as [->|Hid]; simpl; [by contract|].
  destruct up as [data|error]; simpl; by contract.
Qed.

Lemma X4_transcribe_handler_witness :
  Api.status (Api.transcribe None
                {| Planner.method := "POST";
                   Planner.body := Some {[ "audioUrl" := VStr "https://cdn/u1" ]} |}
                (Api.Resolved {[ "id" := VStr "job-1" ]})).2 = 200
  ↔ (Api.transcribe None
       {| Planner.method := "POST";
          Planner.body := Some {[ "audioUrl" := VStr "https://cdn/u1" ]} |}
       (Api.Resolved {[ "id" := VStr "job-1" ]})).1 ≠ []
    ∧ ∃ data, Api.Resolved {[ "id" := VStr "job-1" ]} = Api.Resolved data.
Proof.
  exact (proj1 (proj2 (proj2 (proj2 (proj2
           (X4_transcribe_handler_contract None
              {| Planner.method := "POST";
                 Planner.body := Some {[ "audioUrl" := VStr "https://cdn/u1" ]} |}
              (Api.Resolved {[ "id" := VStr "job-1" ]}))))))).
Defined.

Lemma X5_transcript_handler_witness :
  (Api.transcript (Some "k") {| Api.s_method := "GET"; Api.id := Some "job-1" |}
     (Api.Resolved {[ "status" := VStr "queued" ]})).1
  = [Api.Call "GET" ("https://api.assemblyai.com/v2/transcript/" +:+ "job-1")
       Api.NoBody (Api.apiKey (Some "k"))].
Proof.
  refine (proj1 (proj2 (proj2 (proj2
            (X5_transcript_handler_contract (Some "k")
               {| Api.s_method := "GET"; Api.id := Some "job-1" |}
               (Api.Resolved {[ "status" := VStr "queued" ]}))))
            "job-1" _ _ _)); done.
Defined.

Ltac upload_cases :=
  contract; try congruence;
  try (left; by eauto); try (right; left; by eauto 12); try (right; right; by eauto);
  try naive_solver.

(** X6. The upload handler uploads one file at most: the single file of the
    [audio] field or the first of several, and exactly when the request is a
    POST whose form was parsed and that file has a non-empty path and can be
    read: the provider is then sent the bytes of that file.  It answers 405
    exactly for another method, and 400 "No audio file provided" exactly for
    a POST with a parsed form in which the file is missing, the array empty or
    the file without a path (absent or empty); a form or read error is
    answered 500; none of these reaches the provider.  It answers 200 exactly
    when the provider accepted the bytes sent, with the provider's upload_url
    as uploadUrl. *)
Theorem X6_upload_handler_contract :
  ∀ env up,
    (∀ f fs, Api.upload env {| Api.u_method := "POST"; Api.form := inr (Api.Many (f :: fs)) |} up
             = Api.upload env {| Api.u_method := "POST"; Api.form := inr (Api.One f) |} up)
    ∧ (∀ req,
         let tr := (Api.upload env req up).1 in
         let res := (Api.upload env req up).2 in
         let no_file :=
           ∃ file, Api.form req = inr file
                   ∧ (Api.audioFile file = None
                      ∨ ∃ f, Api.audioFile file = Some f
                             ∧ (Api.filepath f = None ∨ Api.filepath f = Some "")) in
         let readable bytes :=
           ∃ file f path, Api.form req = inr file ∧ Api.audioFile file = Some f
                          ∧ Api.filepath f = Some path ∧ path ≠ ""
                          ∧ Api.content f = inr bytes in
         (Api.status res = 405 ↔ Api.u_method req ≠ "POST")
         ∧ (Api.status res = 400 ↔ Api.u_method req = "POST" ∧ no_file)
         ∧ (Api.status res = 400 →
            res = {| Api.status := 400;
                     Api.json := Api.BError "No audio file provided" None |})
         ∧ (∀ bytes, Api.u_method req = "POST" → readable bytes →
            tr = [Api.Call "POST" "https://api.assemblyai.com/v2/upload"
                    (Api.Bytes bytes) (Api.apiKey env)])
         ∧ (tr ≠ [] → Api.u_method req = "POST" ∧ ∃ bytes, readable bytes)
         ∧ (Api.status res = 200 ↔ tr ≠ [] ∧ ∃ data, up = Api.Resolved data)
         ∧ (Api.status res = 500 ↔
            Api.u_method req = "POST"
            ∧ ((∃ error, Api.form req = inl error)
               ∨ (∃ file f path error,
                    Api.form req = inr file ∧ Api.audioFile file = Some f
                    ∧ Api.filepath f = Some path ∧ path ≠ ""
                    ∧ Api.content f = inl error)
               ∨ (tr ≠ [] ∧ ∃ error, up = Api.Rejected error)))
         ∧ (∀ data, tr ≠ [] → up = Api.Resolved data →
            Api.json res
            = Api.BObject (json_fields [("uploadUrl", get_field data "upload_url")]%string))).
Proof.
  intros env up. split; [done|].
  intros req tr res no_file readable. subst tr res no_file readable.
  unfold Api.upload. rewrite apiKey_eqb.
  destruct (String.eqb_spec (Api.u_method req) "POST") as [Hm|Hm]; simpl;
    [|by upload_cases].
  destruct (Api.form req) as [e|file] eqn:Hform; simpl; [by upload_cases|].
  destruct (Api.audioFile file) as [f|] eqn:Hf; simpl; [|by upload_cases].
  destruct (Api.filepath f) as [path|] eqn:Hpath; simpl; [|by upload_cases].
  destruct (String.eqb_spec path "") as [->|Hne]; simpl; [by upload_cases|].
  destruct (Api.content f) as [e|bytes] eqn:Hc; simpl; [by upload_cases|].
  destruct up as [data|error]; simpl; by upload_cases.
Qed.

Lemma X6_upload_handler_witness :
  let req := {| Api.u_method := "POST";
                Api.form := inr (Api.One {| Api.filepath := None;
                                            Api.content := inr one_chunk |}) |} in
  Api.upload None req (Api.Resolved {[ "upload_url" := VStr "u" ]})
  = ([], {| Api.status := 400; Api.json := Api.BError "No audio file provided" None |}).
Proof.
  intros req.
  pose proof (proj2 (X6_upload_handler_contract None
                       (Api.Resolved {[ "upload_url" := VStr "u" ]})) req) as H.
  cbv zeta in H. destruct H as (_ & H400 & Hbody & _).
  assert (Hst : Api.status (Api.upload None req
                              (Api.Resolved {[ "upload_url" := VStr "u" ]})).2 = 400).
  { apply H400. split; [reflexivity|]. eexists. split; [reflexivity|].
    right. eexists. split; [reflexivity|]. by left. }
  specialize (Hbody Hst). clear H400.
  rewrite (surjective_pairing
             (Api.upload None req (Api.Resolved {[ "upload_url" := VStr "u" ]}))).
  rewrite Hbody. reflexivity.
Defined.

(** ** The two servers side by side *)

(** X7. On a request with a parsed body the Express route for the job start
    and the [pages/api] handler (reached by POST, no key in the environment)
    send the same request to the provider and answer with the same status, and
    with the same body whenever the provider accepted; without a parsed body
    the Express route answers 500 where the handler answers 400.  The status
    routes agree in the same way for every non-empty id. *)
Theorem X7_express_agrees_with_pages_api :
  (∀ type_error body up,
     let post := {| Planner.method := "POST"; Planner.body := Some body |} in
     (Express.transcribe type_error (Some body) up).1 = (Api.transcribe None post up).1
     ∧ Api.status (Express.transcribe type_error (Some body) up).2
       = Api.status (Api.transcribe None post up).2
     ∧ (∀ data, up = Api.Resolved data →
        Express.transcribe type_error (Some body) up = Api.transcribe None post up))
  ∧ (∀ type_error up,
     Api.status (Express.transcribe type_error None up).2 = 500
     ∧ Api.status (Api.transcribe None
                     {| Planner.method := "POST"; Planner.body := None |} up).2 = 400
     ∧ (Express.transcribe type_error None up).1 = [])
  ∧ (∀ id up,
     id ≠ "" →
     let get := {| Api.s_method := "GET"; Api.id := Some id |} in
     (Express.transcript id up).1 = (Api.transcript None get up).1
     ∧ Api.status (Express.transcript id up).2 = Api.status (Api.transcript None get up).2
     ∧ (∀ data, up = Api.Resolved data →
        Express.transcript id up = Api.transcript None get up)).
Proof.
  split; [|split].
  - intros type_error body up post. unfold Express.transcribe, Api.transcribe. simpl.
    destruct (truthy (get_field body "audioUrl")); simpl; [|done].
    destruct up; simpl; repeat split; (done || by intros ? [=]).
  - intros type_error up. done.
  - intros id up Hid get. unfold Express.transcript, Api.transcript. simpl.
    destruct (String.eqb_spec id ""); [done|].
    destruct up; simpl; repeat split; (done || by intros ? [=]).
Qed.

Lemma X7_express_agrees_witness :
  (Express.transcript "job-1" (Api.Resolved {[ "status" := VStr "queued" ]})).1
  = (Api.transcript None {| Api.s_method := "GET"; Api.id := Some "job-1" |}
       (Api.Resolved {[ "status" := VStr "queued" ]})).1.
Proof.
  refine (proj1 (proj2 (proj2 X7_express_agrees_with_pages_api) "job-1" _ _)). done.
Defined.

(** ** The command-line script *)

Lemma cli_trace_SS transcriptId n :
  cli_trace transcriptId (S (S n))
  = Cli.status_call transcriptId :: Api.Sleep 3000 :: cli_trace transcriptId (S n).
Proof. reflexivity. Qed.

Lemma calls_cli_trace transcriptId n : Api.calls (cli_trace transcriptId n) = n.
Proof.
  induction n as [|[|n] IH]; [reflexivity..|].
  rewrite cli_trace_SS.
  change (S (Api.calls (cli_trace transcriptId (S n))) = S (S n)). by rewrite IH.
Qed.

Lemma Cli_poll_running pre : ∀ tail transcriptId,
  forallb Served.running pre = true →
  Cli.poll ((Api.Resolved <$> pre) ++ tail) transcriptId
  = (let '(tr, out) := Cli.poll tail transcriptId in
     (flat_map (λ _, [Cli.status_call transcriptId; Api.Sleep 3000]) pre ++ tr, out)).
Proof.
  induction pre as [|data pre IH]; intros tail transcriptId Hall.
  - simpl. by destruct (Cli.poll tail transcriptId).
  - simpl in Hall. apply andb_true_iff in Hall as [Hd Hall].
    unfold Served.running, terminal in Hd.
    apply negb_true_iff, orb_false_iff in Hd as [Hc He].
    rewrite fmap_cons. simpl. rewrite Hc, He, (IH _ _ Hall).
    by destruct (Cli.poll tail transcriptId).
Qed.

(** X8. The command-line script polls without any bound on the attempts:
    after any number of answers that are neither completed nor failed it is
    still polling, one status request every 3000 ms, and it stops only at the
    first answer that is completed (the text is printed), failed (it throws
    "Transcription failed: …") or a rejected request (not caught). *)
Theorem X8_cli_polls_without_bound :
  ∀ pre transcriptId,
    forallb Served.running pre = true →
    (∀ data rest,
       get_field data "status" = VStr "completed" →
       Cli.poll ((Api.Resolved <$> pre) ++ Api.Resolved data :: rest) transcriptId
       = (cli_trace transcriptId (S (length pre)), Cli.Printed (get_field data "text")))
    ∧ (∀ data rest,
       get_field data "status" = VStr "error" →
       Cli.poll ((Api.Resolved <$> pre) ++ Api.Resolved data :: rest) transcriptId
       = (cli_trace transcriptId (S (length pre)),
          Cli.Threw ("Transcription failed: " +:+ ToString (get_field data "error"))))
    ∧ (∀ error rest,
       Cli.poll ((Api.Resolved <$> pre) ++ Api.Rejected error :: rest) transcriptId
       = (cli_trace transcriptId (S (length pre)), Cli.Failed error))
    ∧ Cli.poll (Api.Resolved <$> pre) transcriptId
      = (cli_trace transcriptId (S (length pre)), Cli.Waiting)
    ∧ Api.calls (cli_trace transcriptId (S (length pre))) = S (length pre).
Proof.
  intros pre transcriptId Hall.
  assert (Htrace :
    flat_map (λ _, [Cli.status_call transcriptId; Api.Sleep 3000]) pre
      ++ [Cli.status_call transcriptId]
    = cli_trace transcriptId (S (length pre))).
  { clear. induction pre as [|d pre IH]; [done|].
    simpl length. rewrite cli_trace_SS, <- IH. done. }
  split; [|split; [|split; [|split]]].
  - intros data rest Hst. rewrite (Cli_poll_running _ _ _ Hall). simpl.
    rewrite Hst. simpl. by rewrite Htrace.
  - intros data rest Hst. rewrite (Cli_poll_running _ _ _ Hall). simpl.
    rewrite Hst. simpl. by rewrite Htrace.
  - intros error rest. rewrite (Cli_poll_running _ _ _ Hall). simpl. by rewrite Htrace.
  - rewrite <- (app_nil_r (Api.Resolved <$> pre)), (Cli_poll_running _ _ _ Hall). simpl.
    by rewrite Htrace.
  - apply calls_cli_trace.
Qed.

Lemma X8_cli_polls_witness :
  Cli.poll ((Api.Resolved <$> replicate 250 ({[ "status" := VStr "processing" ]} : jsobj)))
    (VStr "job-1")
  = (cli_trace (VStr "job-1") (S (length (replicate 250 ({[ "status" := VStr "processing" ]} : jsobj)))),
     Cli.Waiting).
Proof.
  apply (X8_cli_polls_without_bound
           (replicate 250 ({[ "status" := VStr "processing" ]} : jsobj)) (VStr "job-1")).
  vm_compute. reflexivity.
Defined.

(** ** The pages in front of the proxy handlers *)

Lemma get_field_single k v :
  get_field (list_to_map (json_fields [(k, v)])) k = v.
Proof.
  unfold json_fields, get_field. rewrite filter_cons. simpl.
  case_decide as Hv; simpl.
  - by rewrite lookup_insert_eq.
  - rewrite lookup_empty. simpl. destruct (decide (v = VUndefined)); [done|].
    by destruct Hv.
Qed.


Lemma as_fetch_transcript_resolved env id data :
  id ≠ "" →
  Api.as_fetch (Api.transcript env {| Api.s_method := "GET"; Api.id := Some id |}
                  (Api.Resolved data)).2
  = HttpResponse true (Json data).
Proof.
  intros Hid. unfold Api.transcript. simpl. rewrite apiKey_eqb.
  by destruct (String.eqb_spec id "").
Qed.

Lemma as_fetch_transcript_rejected env id error :
  transport_failure
    (Api.as_fetch (Api.transcript env {| Api.s_method := "GET"; Api.id := id |}
                     (Api.Rejected error)).2) = true.
Proof.
  unfold Api.transcript. simpl. rewrite apiKey_eqb.
  destruct id as [id|]; [|done]. by destruct (String.eqb_spec id "").
Qed.

(** X9. The status handler is transparent for the pollers: what the browser
    gets for a provider answer is a success carrying the provider's data
    unchanged, so a poll reacts to the provider's status as such; and when the
    provider request fails, for whatever reason, the poll loop of the page
    ends there with "Failed to get transcription status". *)
Theorem X9_status_proxy_is_transparent :
  ∀ env id,
    id ≠ "" →
    let get := {| Api.s_method := "GET"; Api.id := Some id |} in
    (∀ data, Api.as_fetch (Api.transcript env get (Api.Resolved data)).2
             = HttpResponse true (Json data))
    ∧ (∀ error rest transcriptId attempt s,
       Index.pollTranscription
         (Api.as_fetch (Api.transcript env get (Api.Rejected error)).2 :: rest)
         transcriptId attempt s
       = ([Fetch (Index.status_url transcriptId)],
          Index.with_transcriptionMessage "Failed to get transcription status"
            (Index.with_transcriptionStatus Index.t_error s)))
    ∧ (∀ error rest transcriptId attempts s,
       App.poll_loop
         (Api.as_fetch (Express.transcript id (Api.Rejected error)).2 :: rest)
         transcriptId attempts s
       = ([Fetch (App.status_url transcriptId)],
          App.showErrorInTranscription "Failed to get transcription status" s)).
Proof.
  intros env id Hid get. split; [|split].
  - intros data. by apply as_fetch_transcript_resolved.
  - intros error rest transcriptId attempt s. subst get.
    unfold Api.transcript. simpl. rewrite apiKey_eqb.
    by destruct (String.eqb_spec id "").
  - done.
Qed.

Lemma X9_status_proxy_witness :
  Api.as_fetch (Api.transcript None {| Api.s_method := "GET"; Api.id := Some "job-1" |}
                  (Api.Resolved {[ "status" := VStr "processing" ]})).2
  = HttpResponse true (Json {[ "status" := VStr "processing" ]}).
Proof.
  refine (proj1 (X9_status_proxy_is_transparent None "job-1" _) _). done.
Defined.

(** A poll loop that meets a completed answer before its bound. *)
Lemma Index_pollTranscription_completes pre : ∀ data rest transcriptId attempt s,
  forallb in_progress pre = true →
  (attempt + length pre < Index.maxAttempts)%nat →
  get_field data "status" = VStr "completed" →
  ∃ s', Index.pollTranscription (pre ++ HttpResponse true (Json data) :: rest)
          transcriptId attempt s
        = (polling_trace (Index.status_url transcriptId) (S (length pre)), s')
      ∧ Index.transcriptionStatus s' = Index.t_completed
      ∧ Index.transcriptionText s'
        = js_or (get_field data "text") (VStr "No transcription text available.")
      ∧ Index.audioBlobRef s' = Index.audioBlobRef s.
Proof.
  induction pre as [|r pre IH]; intros data rest transcriptId attempt s Hall Hlen Hst.
  - eexists. simpl. unfold Index.executePoll. rewrite Hst. simpl. done.
  - simpl in Hall. apply andb_true_iff in Hall as [Hr Hall].
    destruct (Index_executePoll_below r attempt s Hr) as (s1 & timer & Hpoll);
      [simpl in Hlen; lia|].
    assert (Hblob : Index.audioBlobRef s1 = Index.audioBlobRef s).
    { destruct r as [|[] [|result]]; try discriminate.
      unfold Index.executePoll in Hpoll. repeat case_match; by simplify_eq. }
    destruct (IH data rest transcriptId (S attempt)
                (Index.with_browser (timeout_fired timer (Index.browser s1)) s1) Hall)
      as (s' & Hrun & Hs & Ht & Hb); [simpl in Hlen; lia|done|].
    exists s'. split; [|by rewrite Hb].
    change ((r :: pre) ++ HttpResponse true (Json data) :: rest)
      with (r :: (pre ++ HttpResponse true (Json data) :: rest)).
    cbn [Index.pollTranscription]. rewrite Hpoll, Hrun.
    simpl length. by rewrite polling_trace_SS.
Qed.
Lemma served_upload_ok env platform path audio d_up :
  Z.of_nat (length audio) ≤ Served.maxFileSize →
  Served.formidable platform audio = inr path →
  path ≠ "" →
  Api.upload env (Served.upload_request platform audio) (Api.Resolved d_up)
  = ([Api.Call "POST" "https://api.assemblyai.com/v2/upload" (Api.Bytes audio)
        (Api.apiKey env)],
     {| Api.status := 200;
        Api.json := Api.BObject (json_fields
                      [("uploadUrl", get_field d_up "upload_url")]%string) |}).
Proof.
  intros Hsize Hform Hp. unfold Api.upload, Served.upload_request.
  cbn [Api.u_method Api.form]. rewrite apiKey_eqb.
  destruct (Z.ltb_spec Served.maxFileSize (Z.of_nat (length audio))); [lia|].
  rewrite Hform. simpl. by destruct (String.eqb_spec path "").
Qed.




Lemma served_transcribe env uploadUrl up :
  Api.transcribe env (Served.transcribe_request uploadUrl) up
  = if truthy uploadUrl then
      let call := Api.Call "POST" "https://api.assemblyai.com/v2/transcript"
                    (Api.JsonBody [("audio_url", uploadUrl);
                                   ("speech_model", VStr "universal")]%string)
                    (Api.apiKey env) in
      match up with
      | Api.Resolved data =>
          ([call], {| Api.status := 200;
                      Api.json := Api.BObject (json_fields
                                    [("transcriptId", get_field data "id")]%string) |})
      | Api.Rejected error =>
          ([call], {| Api.status := 500;
                      Api.json := Api.BError "Failed to start transcription"
                                    (Api.details_or (Some "Failed to start transcription")
                                       error) |})
      end
    else ([], {| Api.status := 400; Api.json := Api.BError "Audio URL is required" None |}).
Proof.
  unfold Api.transcribe, Served.transcribe_request. simpl.
  rewrite apiKey_eqb, get_field_single.
  destruct (truthy uploadUrl) eqn:Ht; simpl; [|done].
  by rewrite (json_fields_truthy _ _ _ Ht).
Qed.

Lemma as_fetch_200 b :
  Api.as_fetch {| Api.status := 200; Api.json := b |}
  = HttpResponse true (Json (Api.body_object b)).
Proof. reflexivity. Qed.


(** The page's network up to the status requests, when the upload and the
    job start went through. *)
Lemma served_network_started env platform path audio d_up d_start p_status :
  Z.of_nat (length audio) ≤ Served.maxFileSize →
  Served.formidable platform audio = inr path →
  path ≠ "" →
  truthy (get_field d_up "upload_url") = true →
  Served.network env platform audio (Api.Resolved d_up) (Api.Resolved d_start) p_status
  = {| Index.upload :=
         HttpResponse true
           (Json (list_to_map (json_fields
                    [("uploadUrl", get_field d_up "upload_url")]%string)));
       Index.transcribe :=
         HttpResponse true
           (Json (list_to_map (json_fields
                    [("transcriptId", get_field d_start "id")]%string)));
       Index.transcript :=
         (λ p, match Served.status_request platform (get_field d_start "id") with
               | Some req => Api.as_fetch (Api.transcript env req p).2
               | None => Served.no_handler platform
               end) <$> p_status |}.
Proof.
  intros Hsize Hform Hpath Hurl. unfold Served.network.
  rewrite (served_upload_ok _ _ _ _ _ Hsize Hform Hpath). cbn [snd].
  rewrite !as_fetch_200. cbn [Served.reply_field Api.body_object snd].
  rewrite get_field_single, served_transcribe, Hurl.
  cbn [Served.reply_field Api.body_object snd]. rewrite !as_fetch_200.
  cbn [Served.reply_field Api.body_object snd]. by rewrite get_field_single.
Qed.

(** X10. A whole submission through the proxy handlers.  Take a recording
    that is not over the 100 MB limit of the form parser and that the parser
    stores under a non-empty path, a provider that accepts the upload and
    returns a truthy upload_url, accepts the job and returns an id that
    reaches the status route as it is (no slash, question mark or the like in
    it), answers fewer than 100 status requests with a running status and
    then one with completed.  Then the provider was sent exactly the recorded
    audio and then exactly the URL it returned, every status request reached
    the handler with that id, and the page ends completed with the provider's
    text (or the placeholder when that text is falsy) after the upload, the
    job start and one status fetch per answer. *)
Theorem X10_submission_through_the_proxy :
  ∀ env platform path audio s d_up d_start pre last rest,
    Index.audioBlobRef s = Some audio →
    Z.of_nat (length audio) ≤ Served.maxFileSize →
    Served.formidable platform audio = inr path →
    path ≠ "" →
    truthy (get_field d_up "upload_url") = true →
    ToString (get_field d_start "id") ≠ "" →
    Served.routed platform (ToString (get_field d_start "id"))
    = Some (ToString (get_field d_start "id")) →
    forallb Served.running pre = true →
    (length pre < 100)%nat →
    get_field last "status" = VStr "completed" →
    let net := Served.network env platform audio (Api.Resolved d_up) (Api.Resolved d_start)
                 ((Api.Resolved <$> pre) ++ Api.Resolved last :: rest) in
    (∃ s', Index.submitTranscription net s
           = (Fetch "/api/upload" :: Fetch "/api/transcribe"
                :: polling_trace (Index.status_url (get_field d_start "id")) (S (length pre)),
              s')
         ∧ Index.transcriptionStatus s' = Index.t_completed
         ∧ Index.transcriptionText s'
           = js_or (get_field last "text") (VStr "No transcription text available."))
    ∧ (Api.upload env (Served.upload_request platform audio) (Api.Resolved d_up)).1
      = [Api.Call "POST" "https://api.assemblyai.com/v2/upload" (Api.Bytes audio)
           (Api.apiKey env)]
    ∧ (Api.transcribe env (Served.transcribe_request (get_field d_up "upload_url"))
         (Api.Resolved d_start)).1
      = [Api.Call "POST" "https://api.assemblyai.com/v2/transcript"
           (Api.JsonBody [("audio_url", get_field d_up "upload_url");
                          ("speech_model", VStr "universal")]%string)
           (Api.apiKey env)]
    ∧ Served.status_request platform (get_field d_start "id")
      = Some {| Api.s_method := "GET";
                Api.id := Some (ToString (get_field d_start "id")) |}.
Proof.
  intros env platform path audio s d_up d_start pre last rest
    Hblob Hsize Hform Hpath Hurl Hid Hrouted Hpre Hlen Hlast net.
  assert (Hreq : Served.status_request platform (get_field d_start "id")
                 = Some {| Api.s_method := "GET";
                           Api.id := Some (ToString (get_field d_start "id")) |}).
  { unfold Served.status_request. by rewrite Hrouted. }
  split; [|split; [|split]].
  2: { by rewrite (served_upload_ok _ _ _ _ _ Hsize Hform Hpath). }
  2: { by rewrite served_transcribe, Hurl. }
  2: { done. }
  subst net.
  rewrite (served_network_started _ _ _ _ _ _ _ Hsize Hform Hpath Hurl), Hreq.
  unfold Index.submitTranscription. rewrite Hblob.
  cbn [Index.upload Index.transcribe Index.transcript Index.expect_ok].
  rewrite get_field_single.
  rewrite fmap_app, fmap_cons, <- list_fmap_compose.
  rewrite (as_fetch_transcript_resolved _ _ _ Hid).
  rewrite (list_fmap_ext _ (λ data, HttpResponse true (Json data)) pre)
    by (by intros; apply as_fetch_transcript_resolved).
  set (s0 := Index.with_transcriptionMessage _ _).
  destruct (Index_pollTranscription_completes
              ((λ data, HttpResponse true (Json data)) <$> pre) last
              ((λ p, Api.as_fetch
                       (Api.transcript env
                          {| Api.s_method := "GET";
                             Api.id := Some (ToString (get_field d_start "id")) |} p).2)
                 <$> rest)
              (get_field d_start "id") 0 s0)
    as (s' & Hrun & Hs & Ht & _).
  { rewrite forallb_forall in Hpre. apply forallb_forall. intros r Hr.
    apply in_map_iff in Hr as (data & <- & Hin). apply (Hpre _ Hin). }
  { rewrite length_fmap. unfold Index.maxAttempts. lia. }
  { done. }
  rewrite length_fmap in Hrun. exists s'. by rewrite Hrun.
Qed.

Lemma X10_submission_witness :
  (Api.upload None (Served.upload_request Served.example_platform one_chunk)
     (Api.Resolved {[ "upload_url" := VStr "https://cdn/u1" ]})).1
  = [Api.Call "POST" "https://api.assemblyai.com/v2/upload" (Api.Bytes one_chunk)
       (Api.apiKey None)].
Proof.
  refine (proj1 (proj2 (X10_submission_through_the_proxy None Served.example_platform
            "/tmp/upload_1" one_chunk
            (Index.with_audioBlobRef (Some one_chunk) Index.initial)
            {[ "upload_url" := VStr "https://cdn/u1" ]}
            {[ "id" := VStr "job-1" ]}
            [ {[ "status" := VStr "queued" ]}; {[ "status" := VStr "processing" ]} ]
            (<[ "text" := VStr "hello" ]> {[ "status" := VStr "completed" ]})
            [] _ _ _ _ _ _ _ _ _ _)));
    (reflexivity || done || (vm_compute; done) || (simpl; lia)).
Defined.



(** ** More on the recording session *)

(** *** Stop *)

Lemma Index_stopRecording_cases s :
  (Index.stopRecording s = s
   ∧ (Index_recorder s = None ∨ Index_recorder s = Some inactive))
  ∨ (∃ r, Index.mediaRecorderRef s = Some r
          ∧ (state_of r (Index.browser s) = Some recording
             ∨ state_of r (Index.browser s) = Some paused)
          ∧ Index.stopRecording s
            = Index.stopTimer
                (Index.with_recordingState Index.stopped
                   (Index.with_browser (rec_stop r (Index.browser s)) s))).
Proof.
  unfold Index.stopRecording, Index_recorder.
  destruct (Index.mediaRecorderRef s) as [r|]; simpl; [|by left; auto].
  destruct (state_of r (Index.browser s)) as [[]|] eqn:Hst;
    [by left; auto|right; exists r; rewrite ?Hst; auto..|by left; auto].
Qed.

Lemma App_stopRecording_cases s :
  (App.stopRecording s = s
   ∧ (App_recorder s = None ∨ App_recorder s = Some inactive))
  ∨ (∃ r, App.mediaRecorder s = Some r
          ∧ (state_of r (App.browser s) = Some recording
             ∨ state_of r (App.browser s) = Some paused)
          ∧ App.stopRecording s
            = App.updateUI
                (App.stopTimer
                   (App.with_isPaused false
                      (App.with_isRecording false
                         (App.with_browser (rec_stop r (App.browser s)) s))))).
Proof.
  unfold App.stopRecording, App_recorder.
  destruct (App.mediaRecorder s) as [r|]; simpl; [|by left; auto].
  destruct (state_of r (App.browser s)) as [[]|] eqn:Hst;
    [by left; auto|right; exists r; rewrite ?Hst; auto..|by left; auto].
Qed.

Lemma Index_stopRecording_recorder s :
  Index_recorder (Index.stopRecording s) = None
  ∨ Index_recorder (Index.stopRecording s) = Some inactive.
Proof.
  destruct (Index_stopRecording_cases s) as [[-> H]|(r & Hr & Hst & ->)]; [done|].
  right. destruct (Index_recorder_stopTimer
    (Index.with_recordingState Index.stopped
       (Index.with_browser (rec_stop r (Index.browser s)) s))) as [-> _].
  unfold Index_recorder. simpl. rewrite Hr. simpl. rewrite state_of_rec_stop.
  by destruct Hst as [-> | ->].
Qed.

Lemma App_stopRecording_recorder s :
  App_recorder (App.stopRecording s) = None
  ∨ App_recorder (App.stopRecording s) = Some inactive.
Proof.
  destruct (App_stopRecording_cases s) as [[-> H]|(r & Hr & Hst & ->)]; [done|].
  right. rewrite App_recorder_updateUI, App_recorder_stopTimer.
  unfold App_recorder. simpl. rewrite Hr. simpl. rewrite state_of_rec_stop.
  by destruct Hst as [-> | ->].
Qed.

(** X12. [stopRecording] does nothing without a live recorder and is
    idempotent: a second stop leaves the state of the first untouched, so no
    second stop callback is queued; and once the stop callback of a recorder
    has run it cannot run again. *)
Theorem X12_stop_is_idempotent :
  (∀ s, Index_recorder s = None ∨ Index_recorder s = Some inactive →
        Index.stopRecording s = s)
  ∧ (∀ s, Index.stopRecording (Index.stopRecording s) = Index.stopRecording s)
  ∧ (∀ s, App_recorder s = None ∨ App_recorder s = Some inactive →
          App.stopRecording s = s)
  ∧ (∀ s, App.stopRecording (App.stopRecording s) = App.stopRecording s)
  ∧ (∀ r s, Index.enabled (Index.StopEvent r) s = true →
            Index.enabled (Index.StopEvent r) (Index.step (Index.StopEvent r) s) = false)
  ∧ (∀ r s, App.enabled (App.StopEvent r) s = true →
            App.enabled (App.StopEvent r) (App.step (App.StopEvent r) s) = false).
Proof.
  assert (Hi : ∀ s, Index_recorder s = None ∨ Index_recorder s = Some inactive →
                    Index.stopRecording s = s).
  { intros s H. destruct (Index_stopRecording_cases s) as [[-> _]|(r & Hr & Hst & _)]; [done|].
    unfold Index_recorder in H. rewrite Hr in H. simpl in H.
    destruct H as [H|H], Hst as [Hst|Hst]; congruence. }
  assert (Ha : ∀ s, App_recorder s = None ∨ App_recorder s = Some inactive →
                    App.stopRecording s = s).
  { intros s H. destruct (App_stopRecording_cases s) as [[-> _]|(r & Hr & Hst & _)]; [done|].
    unfold App_recorder in H. rewrite Hr in H. simpl in H.
    destruct H as [H|H], Hst as [Hst|Hst]; congruence. }
  split; [exact Hi|]. split; [intros s; apply Hi, Index_stopRecording_recorder|].
  split; [exact Ha|]. split; [intros s; apply Ha, App_stopRecording_recorder|].
  split.
  - intros r s He. simpl in *. unfold can_deliver_stop in *.
    destruct (recorders (Index.browser s) !! r) as [m|] eqn:Hm; [|done]. simpl.
    by rewrite list_lookup_alter_eq, Hm.
  - intros r s He. simpl in *. unfold can_deliver_stop in *.
    destruct (recorders (App.browser s) !! r) as [m|] eqn:Hm; [|done]. simpl.
    by rewrite list_lookup_alter_eq, Hm.
Qed.

Lemma X12_stop_witness :
  Index.stopRecording Index.initial = Index.initial.
Proof. apply (proj1 X12_stop_is_idempotent). by left. Defined.

(** *** Elapsed time *)

(** X13. In [public/app.js] the elapsed time is continuous across a pause:
    pausing keeps the elapsed time and clears the session's timer, resuming
    keeps it too, and a tick at time [t] after a resume at time [r] shows the
    elapsed time at the pause plus [t - r], so the paused span is not
    counted. *)
Theorem X13_app_elapsed_time_skips_pause :
  (∀ now s,
     App_recorder s = Some recording →
     App.elapsedTime (App.pauseRecording now s) = App.elapsedTime s
     ∧ App.timerInterval (App.pauseRecording now s) = None
     ∧ ∀ id, App.timerInterval s = Some id →
             id ∉ intervals (App.browser (App.pauseRecording now s)))
  ∧ (∀ r t s,
     App_recorder s = Some paused →
     App.elapsedTime (App.pauseRecording r s) = App.elapsedTime s
     ∧ App.elapsedTime (App.tick t (App.pauseRecording r s)) = App.elapsedTime s + (t - r)).
Proof.
  split.
  - intros now s Hrec. unfold App_recorder in Hrec. unfold App.pauseRecording.
    destruct (App.mediaRecorder s) as [r|]; [|done]. simpl in Hrec. rewrite Hrec.
    unfold App.updateUI, App.stopTimer. simpl.
    destruct (App.timerInterval s) as [id|] eqn:Ht; simpl;
      repeat case_match; simpl; repeat split; try done; intros ? [= <-];
      apply not_elem_of_difference; right; by apply elem_of_singleton.
  - intros r t s Hrec. unfold App_recorder in Hrec. unfold App.pauseRecording.
    destruct (App.mediaRecorder s) as [rec|]; [|done]. simpl in Hrec. rewrite Hrec.
    unfold App.tick, App.updateUI, App.startTimer. simpl.
    repeat case_match; simpl; split; (done || lia).
Qed.

Lemma X13_app_elapsed_witness :
  ∃ s, App.run [App.ClickRecord; App.MediaGranted 1000; App.Tick 1 4000; App.ClickPause 4050]
         (App.initial false true true true) = Some s
       ∧ App.elapsedTime (App.tick 9500 (App.pauseRecording 9000 s))
         = App.elapsedTime s + (9500 - 9000).
Proof.
  eexists. split; [vm_compute; reflexivity|].
  apply (proj2 X13_app_elapsed_time_skips_pause). vm_compute; reflexivity.
Defined.

(** X14. In [pages/index.js] a resume restarts the shown elapsed time from
    zero: [startTimer] overwrites the start time just computed from the
    elapsed time, so right after the resume the elapsed time is 0 and a tick at
    time [t] after a resume at time [r] shows [t - r], whatever had elapsed
    before the pause. *)
Theorem X14_index_resume_restarts_timer :
  ∀ r t s,
    Index_recorder s = Some paused →
    Index.elapsedMs (Index.pauseRecording r s) = 0
    ∧ Index.startTimeRef (Index.pauseRecording r s) = Some r
    ∧ Index.elapsedMs (Index.tick t (Index.pauseRecording r s)) = t - r.
Proof.
  intros r t s Hrec. unfold Index_recorder in Hrec. unfold Index.pauseRecording.
  destruct (Index.mediaRecorderRef s) as [rec|]; [|done]. simpl in Hrec. rewrite Hrec.
  done.
Qed.

Lemma X14_index_resume_witness :
  ∃ s, Index.run [Index.ClickRecord; Index.MediaGranted 1000; Index.Tick 1 4000;
                  Index.ClickPause 4050] Index.initial = Some s
       ∧ Index.elapsedMs s = 3000
       ∧ Index.elapsedMs (Index.tick 9500 (Index.pauseRecording 9000 s)) = 9500 - 9000.
Proof.
  eexists. split; [vm_compute; reflexivity|]. split; [reflexivity|].
  apply X14_index_resume_restarts_timer. vm_compute; reflexivity.
Defined.

(** *** Devices and recorders *)

Lemma dfr_ext b b' :
  streams b' = streams b → recorders b' = recorders b →
  devices_follow_recorders b → devices_follow_recorders b'.
Proof. unfold devices_follow_recorders. by intros -> ->. Qed.

Lemma dfr_fresh : devices_follow_recorders fresh.
Proof. split; [done|]. by intros [|i] m Hm. Qed.

(** [getUserMedia] resolves, a recorder is constructed on the stream and
    started. *)
Lemma dfr_granted b :
  devices_follow_recorders b →
  devices_follow_recorders
    (rec_start (length (recorders b))
       (new_MediaRecorder (length (streams b)) (media_resolve b).2).2).
Proof.
  intros [Hs Hr]. unfold devices_follow_recorders, rec_start, new_MediaRecorder, media_resolve.
  simpl.
  assert (Hlen : length (streams b) = length (recorders b)) by (by rewrite Hs, length_fmap).
  rewrite !alter_app_r_alt, Nat.sub_diag by done. simpl. split.
  - by rewrite fmap_app, Hs.
  - intros i m Hm. apply lookup_app_Some in Hm as [Hm|[Hge Hm]]; [by apply Hr|].
    destruct (i - length (recorders b))%nat as [|k] eqn:Hk; [|done].
    simpl in Hm. injection Hm as <-. simpl. split; [lia|done].
Qed.

(** A method call on a live recorder that leaves it live, or stops it. *)
Lemma dfr_alter_live r f b :
  (state_of r b = Some recording ∨ state_of r b = Some paused) →
  (∀ m, rstate m ≠ inactive →
        rstream (f m) = rstream m ∧ pending_or_live (f m) = true
        ∧ (stop_queued (f m) = true → rstate (f m) = inactive)) →
  devices_follow_recorders b →
  devices_follow_recorders (with_recorders (alter f r (recorders b)) b).
Proof.
  intros Hlive Hf [Hs Hr]. unfold devices_follow_recorders. simpl.
  assert (∃ m, recorders b !! r = Some m ∧ rstate m ≠ inactive) as (m & Hm & Hrm).
  { unfold state_of in Hlive. destruct (recorders b !! r) as [m|]; [|by destruct Hlive].
    exists m. split; [done|]. simpl in Hlive. by destruct Hlive as [[= ->]|[= ->]]. }
  destruct (Hf m Hrm) as (Hstream & Hpl & Hq). split.
  - rewrite Hs. apply list_eq. intros i. rewrite !list_lookup_fmap, list_lookup_alter.
    case_decide as Hi; [subst i|done]. rewrite Hm. simpl. f_equal.
    rewrite Hpl. unfold pending_or_live. by rewrite bool_decide_eq_true_2.
  - intros i m' Hm'. rewrite list_lookup_alter in Hm'.
    case_decide as Hi; [subst i|by apply Hr].
    rewrite Hm in Hm'. simpl in Hm'. injection Hm' as <-.
    rewrite Hstream. split; [by apply (Hr _ _ Hm)|done].
Qed.

Lemma dfr_set_live r st b :
  st ≠ inactive →
  (state_of r b = Some recording ∨ state_of r b = Some paused) →
  devices_follow_recorders b →
  devices_follow_recorders (with_recorders (alter (set_rstate st) r (recorders b)) b).
Proof.
  intros Hst Hlive Hb. pose proof Hb as [_ Hr].
  assert (∃ m, recorders b !! r = Some m ∧ rstate m ≠ inactive) as (m0 & Hm0 & Hrm0).
  { unfold state_of in Hlive. destruct (recorders b !! r) as [m|]; [|by destruct Hlive].
    exists m. split; [done|]. simpl in Hlive. by destruct Hlive as [[= ->]|[= ->]]. }
  destruct Hb as [Hs _]. unfold devices_follow_recorders. simpl. split.
  - rewrite Hs. apply list_eq. intros i. rewrite !list_lookup_fmap, list_lookup_alter.
    case_decide as Hi; [subst i|done]. rewrite Hm0. simpl. f_equal.
    unfold pending_or_live. simpl. by rewrite !bool_decide_eq_true_2.
  - intros i m' Hm'. rewrite list_lookup_alter in Hm'.
    case_decide as Hi; [subst i|by apply Hr].
    rewrite Hm0 in Hm'. simpl in Hm'. injection Hm' as <-. simpl.
    destruct (Hr _ _ Hm0) as [? Hq]. split; [done|]. intros Hqm.
    by destruct (Hrm0 (Hq Hqm)).
Qed.

Lemma dfr_rec_stop r b :
  (state_of r b = Some recording ∨ state_of r b = Some paused) →
  devices_follow_recorders b → devices_follow_recorders (rec_stop r b).
Proof.
  intros Hlive. apply dfr_alter_live; [done|].
  intros m Hm. unfold pending_or_live. simpl. by rewrite ?orb_true_r.
Qed.

(** The stop callback of a recorder runs: it releases the recorder's stream. *)
Lemma dfr_stop_event r m b :
  recorders b !! r = Some m → stop_queued m = true →
  devices_follow_recorders b →
  devices_follow_recorders (stop_tracks (rstream m) (stop_delivered r b)).
Proof.
  intros Hm Hq [Hs Hr]. unfold devices_follow_recorders, stop_tracks, stop_delivered.
  simpl. destruct (Hr _ _ Hm) as [Hstream Hin]. rewrite Hstream. split.
  - rewrite Hs. apply list_eq. intros i.
    rewrite list_lookup_insert, !list_lookup_fmap, list_lookup_alter, length_fmap.
    destruct (decide (r = i)) as [<-|Hne].
    + rewrite Hm. simpl. rewrite decide_True; [|split; [done|by eapply lookup_lt_Some]].
      f_equal. unfold pending_or_live. simpl.
      rewrite (Hin Hq). by rewrite bool_decide_eq_false_2 by auto.
    + rewrite decide_False by (by intros [? _]). done.
  - intros i m' Hm'. rewrite list_lookup_alter in Hm'.
    case_decide as Hi; [subst i|by apply Hr].
    rewrite Hm in Hm'. simpl in Hm'. injection Hm' as <-. simpl. by split.
Qed.

Lemma held_fmap {A} (f : A → bool) (l : list A) :
  length (List.filter id (f <$> l)) = length (List.filter f l).
Proof.
  induction l as [|x l IH]; [done|]. rewrite fmap_cons. simpl.
  change (id (f x)) with (f x). destruct (f x); simpl; by rewrite IH.
Qed.

Lemma dfr_held b :
  devices_follow_recorders b →
  held b = length (List.filter pending_or_live (recorders b)).
Proof. intros [Hs _]. unfold held. by rewrite Hs, held_fmap. Qed.

Lemma dfr_live_stream r b :
  devices_follow_recorders b →
  (state_of r b = Some recording ∨ state_of r b = Some paused) →
  streams b !! r = Some true.
Proof.
  intros [Hs _] Hlive. rewrite Hs, list_lookup_fmap. unfold state_of in Hlive.
  destruct (recorders b !! r) as [m|]; [|by destruct Hlive]. simpl in *. f_equal.
  unfold pending_or_live. rewrite bool_decide_eq_true_2; [done|].
  by destruct Hlive as [[= ->]|[= ->]].
Qed.

Lemma Index_stopTimer_devices s :
  devices_follow_recorders (Index.browser s) →
  devices_follow_recorders (Index.browser (Index.stopTimer s)).
Proof. unfold Index.stopTimer. destruct (Index.timerRef s); [|done]. by apply dfr_ext. Qed.

Lemma App_stopTimer_devices s :
  devices_follow_recorders (App.browser s) →
  devices_follow_recorders (App.browser (App.stopTimer s)).
Proof. unfold App.stopTimer. destruct (App.timerInterval s); [|done]. by apply dfr_ext. Qed.

Lemma App_updateUI_browser s : App.browser (App.updateUI s) = App.browser s.
Proof. unfold App.updateUI. by repeat case_match. Qed.

Lemma Index_step_devices e s :
  Index.enabled e s = true →
  devices_follow_recorders (Index.browser s) →
  devices_follow_recorders (Index.browser (Index.step e s)).
Proof.
  intros He Hb. destruct e; simpl.
  - by eapply dfr_ext; [| |exact Hb].
  - eapply dfr_ext; [| |exact (dfr_granted _ Hb)]; reflexivity.
  - by eapply dfr_ext; [| |exact Hb].
  - unfold Index.pauseRecording.
    destruct (Index.mediaRecorderRef s) as [r|]; [|done].
    destruct (state_of r (Index.browser s)) as [[]|] eqn:Hst; try done.
    + apply Index_stopTimer_devices. simpl. apply dfr_set_live; auto.
    + eapply dfr_ext; [| |exact (dfr_set_live r recording _ ltac:(done) (or_intror Hst) Hb)];
        reflexivity.
  - unfold Index.stopRecording.
    destruct (Index.mediaRecorderRef s) as [r|]; [|done].
    destruct (state_of r (Index.browser s)) as [[]|] eqn:Hst; try done.
    all: apply Index_stopTimer_devices; simpl; apply dfr_rec_stop; auto.
  - unfold Index.resetView. simpl.
    destruct (Index.pollTimeoutRef (Index.stopTimer s)); simpl.
    all: eapply dfr_ext; [| |exact (Index_stopTimer_devices _ Hb)]; reflexivity.
  - unfold Index.ondataavailable. by destruct (0 <? length data)%nat.
  - simpl in He. unfold can_deliver_stop in He.
    destruct (recorders (Index.browser s) !! r) as [m|] eqn:Hm; [|done].
    simpl. by apply dfr_stop_event.
  - exact Hb.
Qed.

Lemma App_step_devices e s :
  App.enabled e s = true →
  devices_follow_recorders (App.browser s) →
  devices_follow_recorders (App.browser (App.step e s)).
Proof.
  intros He Hb. destruct e; simpl.
  - by eapply dfr_ext; [| |exact Hb].
  - eapply dfr_ext; [| |exact (dfr_granted _ Hb)]; reflexivity.
  - by eapply dfr_ext; [| |exact Hb].
  - unfold App.pauseRecording.
    destruct (App.mediaRecorder s) as [r|]; [|done].
    destruct (state_of r (App.browser s)) as [[]|] eqn:Hst; try done.
    + rewrite App_updateUI_browser. apply App_stopTimer_devices. simpl.
      apply dfr_set_live; auto.
    + rewrite App_updateUI_browser.
      eapply dfr_ext; [| |exact (dfr_set_live r recording _ ltac:(done) (or_intror Hst) Hb)];
        reflexivity.
  - unfold App.stopRecording.
    destruct (App.mediaRecorder s) as [r|]; [|done].
    destruct (state_of r (App.browser s)) as [[]|] eqn:Hst; try done.
    all: rewrite App_updateUI_browser; apply App_stopTimer_devices; simpl;
      apply dfr_rec_stop; auto.
  - exact Hb.
  - unfold App.ondataavailable. by destruct (0 <? length data)%nat.
  - simpl in He. unfold can_deliver_stop in He.
    destruct (recorders (App.browser s) !! r) as [m|] eqn:Hm; [|done].
    simpl. by apply dfr_stop_event.
  - exact Hb.
Qed.

Lemma Index_run_devices events : ∀ s0 s,
  Index.run events s0 = Some s →
  devices_follow_recorders (Index.browser s0) → devices_follow_recorders (Index.browser s).
Proof.
  induction events as [|e events IH]; intros s0 s Hrun Hs; simpl in Hrun.
  - by simplify_eq.
  - destruct (Index.enabled e s0) eqn:He; [|done].
    eapply IH; [done|]. by apply Index_step_devices.
Qed.

Lemma App_run_devices events : ∀ s0 s,
  App.run events s0 = Some s →
  devices_follow_recorders (App.browser s0) → devices_follow_recorders (App.browser s).
Proof.
  induction events as [|e events IH]; intros s0 s Hrun Hs; simpl in Hrun.
  - by simplify_eq.
  - destruct (App.enabled e s0) eqn:He; [|done].
    eapply IH; [done|]. by apply App_step_devices.
Qed.

(** X15. In every state a recording session can reach, in both recorders of
    the repository, the microphone streams follow the MediaRecorders: each
    recorder has a stream of its own, live exactly while the recorder is
    recording, paused, or stopped with its stop callback still to run.  So the
    number of devices held is the number of such recorders, the recorder of a
    session that is recording or paused holds its device, and the stop
    callback is what releases it. *)
Theorem X15_devices_follow_recorders :
  (∀ events s,
     Index.run events Index.initial = Some s →
     devices_follow_recorders (Index.browser s)
     ∧ held (Index.browser s)
       = length (List.filter pending_or_live (recorders (Index.browser s)))
     ∧ ∀ r, Index.mediaRecorderRef s = Some r →
            (state_of r (Index.browser s) = Some recording
             ∨ state_of r (Index.browser s) = Some paused) →
            streams (Index.browser s) !! r = Some true)
  ∧ (∀ rec_d pause_d stop_d submit_d events s,
     App.run events (App.initial rec_d pause_d stop_d submit_d) = Some s →
     devices_follow_recorders (App.browser s)
     ∧ held (App.browser s)
       = length (List.filter pending_or_live (recorders (App.browser s)))
     ∧ ∀ r, App.mediaRecorder s = Some r →
            (state_of r (App.browser s) = Some recording
             ∨ state_of r (App.browser s) = Some paused) →
            streams (App.browser s) !! r = Some true).
Proof.
  split.
  - intros events s Hrun.
    pose proof (Index_run_devices _ _ _ Hrun dfr_fresh) as Hb.
    split; [done|]. split; [by apply dfr_held|]. intros r _. by apply dfr_live_stream.
  - intros rec_d pause_d stop_d submit_d events s Hrun.
    pose proof (App_run_devices _ _ _ Hrun dfr_fresh) as Hb.
    split; [done|]. split; [by apply dfr_held|]. intros r _. by apply dfr_live_stream.
Qed.

Lemma X15_devices_witness :
  ∃ s, Index.run [Index.ClickRecord; Index.MediaGranted 1000; Index.ClickPause 2000;
                  Index.ClickStop] Index.initial = Some s
       ∧ held (Index.browser s) = 1%nat
       ∧ held (Index.browser s)
         = length (List.filter pending_or_live (recorders (Index.browser s))).
Proof.
  eexists. split; [vm_compute; reflexivity|]. split; [reflexivity|].
  apply (proj1 X15_devices_follow_recorders
           [Index.ClickRecord; Index.MediaGranted 1000; Index.ClickPause 2000;
            Index.ClickStop]).
  vm_compute; reflexivity.
Defined.

(** *** What the final audio holds *)

Lemma new_Blob_snoc (chunks : list Blob) (data : Blob) :
  new_Blob (if (0 <? length data)%nat then chunks ++ [data] else chunks)
  = new_Blob chunks ++ data.
Proof.
  unfold new_Blob. destruct data as [|x data]; simpl; [by rewrite app_nil_r|].
  by rewrite concat_app; simpl; rewrite app_nil_r.
Qed.

Lemma Index_stopTimer_chunks s :
  Index.audioChunksRef (Index.stopTimer s) = Index.audioChunksRef s.
Proof. unfold Index.stopTimer. by destruct (Index.timerRef s). Qed.

Lemma App_stopTimer_chunks s :
  App.audioChunks (App.stopTimer s) = App.audioChunks s.
Proof. unfold App.stopTimer. by destruct (App.timerInterval s). Qed.

Lemma App_updateUI_chunks s : App.audioChunks (App.updateUI s) = App.audioChunks s.
Proof. unfold App.updateUI. by repeat case_match. Qed.

Lemma Index_step_chunks e s :
  Index_keeps_chunks e = true →
  new_Blob (Index.audioChunksRef (Index.step e s))
  = new_Blob (Index.audioChunksRef s) ++ Index_recorded [e].
Proof.
  intros Hk. destruct e; try done; unfold Index_recorded; simpl; rewrite ?app_nil_r.
  - done.
  - done.
  - unfold Index.pauseRecording. repeat case_match; try done.
    by rewrite Index_stopTimer_chunks.
  - unfold Index.stopRecording. repeat case_match; try done.
    all: by rewrite Index_stopTimer_chunks.
  - unfold Index.ondataavailable. rewrite <- new_Blob_snoc.
    by destruct (0 <? length data)%nat.
  - by destruct (recorders (Index.browser s) !! r).
  - done.
Qed.

Lemma App_step_chunks e s :
  App_keeps_chunks e = true →
  new_Blob (App.audioChunks (App.step e s))
  = new_Blob (App.audioChunks s) ++ App_recorded [e].
Proof.
  intros Hk. destruct e; try done; unfold App_recorded; simpl; rewrite ?app_nil_r.
  - done.
  - done.
  - unfold App.pauseRecording. repeat case_match; try done.
    all: by rewrite App_updateUI_chunks, ?App_stopTimer_chunks.
  - unfold App.stopRecording. repeat case_match; try done.
    all: by rewrite App_updateUI_chunks, App_stopTimer_chunks.
  - done.
  - unfold App.ondataavailable. rewrite <- new_Blob_snoc.
    by destruct (0 <? length data)%nat.
  - by destruct (recorders (App.browser s) !! r).
  - done.
Qed.

Lemma Index_recorded_cons e events :
  Index_recorded (e :: events) = Index_recorded [e] ++ Index_recorded events.
Proof. unfold Index_recorded. simpl. destruct e; simpl; by rewrite ?app_nil_r. Qed.

Lemma App_recorded_cons e events :
  App_recorded (e :: events) = App_recorded [e] ++ App_recorded events.
Proof. unfold App_recorded. simpl. destruct e; simpl; by rewrite ?app_nil_r. Qed.

Lemma Index_run_chunks events : ∀ s0 s,
  Index.run events s0 = Some s →
  forallb Index_keeps_chunks events = true →
  new_Blob (Index.audioChunksRef s)
  = new_Blob (Index.audioChunksRef s0) ++ Index_recorded events.
Proof.
  induction events as [|e events IH]; intros s0 s Hrun Hk; simpl in Hrun.
  - simplify_eq. unfold Index_recorded. simpl. by rewrite app_nil_r.
  - destruct (Index.enabled e s0); [|done]. simpl in Hk.
    apply andb_true_iff in Hk as [He Hk].
    rewrite (IH _ _ Hrun Hk), (Index_step_chunks _ _ He), (Index_recorded_cons e events).
    by rewrite app_assoc.
Qed.

Lemma App_run_chunks events : ∀ s0 s,
  App.run events s0 = Some s →
  forallb App_keeps_chunks events = true →
  new_Blob (App.audioChunks s)
  = new_Blob (App.audioChunks s0) ++ App_recorded events.
Proof.
  induction events as [|e events IH]; intros s0 s Hrun Hk; simpl in Hrun.
  - simplify_eq. unfold App_recorded. simpl. by rewrite app_nil_r.
  - destruct (App.enabled e s0); [|done]. simpl in Hk.
    apply andb_true_iff in Hk as [He Hk].
    rewrite (IH _ _ Hrun Hk), (App_step_chunks _ _ He), (App_recorded_cons e events).
    by rewrite app_assoc.
Qed.

Lemma Index_run_app l1 l2 s :
  Index.run (l1 ++ l2) s = Index.run l1 s ≫= Index.run l2.
Proof.
  revert s. induction l1 as [|e l1 IH]; intros s; simpl; [done|].
  by destruct (Index.enabled e s).
Qed.

Lemma App_run_app l1 l2 s :
  App.run (l1 ++ l2) s = App.run l1 s ≫= App.run l2.
Proof.
  revert s. induction l1 as [|e l1 IH]; intros s; simpl; [done|].
  by destruct (App.enabled e s).
Qed.

(** X16. The final audio is the audio delivered since the chunks were last
    emptied, in the order of delivery, whichever recorder delivered it:
    [pages/index.js] empties the chunks when [startRecording] is invoked (and
    in [resetView]), [public/app.js] when [getUserMedia] has resolved.  A stop
    callback that runs after such a point, with the events [events] in
    between, stores exactly the data of the [dataavailable] events among
    [events]. *)
Theorem X16_final_audio_is_the_data_delivered :
  (∀ events r s0 s,
     Index.run (Index.ClickRecord :: events ++ [Index.StopEvent r]) s0 = Some s →
     forallb Index_keeps_chunks events = true →
     Index.audioBlobRef s = Some (Index_recorded events))
  ∧ (∀ now events r s0 s,
     App.run (App.MediaGranted now :: events ++ [App.StopEvent r]) s0 = Some s →
     forallb App_keeps_chunks events = true →
     App.audioBlob s = Some (App_recorded events)).
Proof.
  split.
  - intros events r s0 s Hrun Hk. simpl in Hrun.
    rewrite Index_run_app in Hrun.
    destruct (Index.run events (Index.startRecording_begin s0)) as [s1|] eqn:H1; [|done].
    simpl in Hrun. destruct (can_deliver_stop r (Index.browser s1)) eqn:He; [|done].
    injection Hrun as <-.
    change (Index.audioBlobRef (Index.step (Index.StopEvent r) s1)
            = Some (Index_recorded events)).
    rewrite (Index_step_audioBlobRef (Index.StopEvent r) s1 He).
    by rewrite (Index_run_chunks _ _ _ H1 Hk).
  - intros now events r s0 s Hrun Hk. simpl in Hrun.
    destruct (0 <? pending_media (App.browser s0))%nat; [|done].
    rewrite App_run_app in Hrun.
    destruct (App.run events (App.startRecording_granted now s0)) as [s1|] eqn:H1; [|done].
    simpl in Hrun. destruct (can_deliver_stop r (App.browser s1)) eqn:He; [|done].
    injection Hrun as <-.
    change (App.audioBlob (App.step (App.StopEvent r) s1) = Some (App_recorded events)).
    rewrite (App_step_audioBlob (App.StopEvent r) s1 He).
    by rewrite (App_run_chunks _ _ _ H1 Hk).
Qed.

Lemma X16_final_audio_witness :
  ∃ s, Index.run (Index.ClickRecord
                  :: [Index.MediaGranted 0; Index.DataAvailable 0 one_chunk;
                      Index.ClickPause 10; Index.ClickPause 20;
                      Index.DataAvailable 0 [Byte.x46]; Index.ClickStop;
                      Index.DataAvailable 0 []]
                  ++ [Index.StopEvent 0]) Index.initial = Some s
       ∧ Index.audioBlobRef s = Some [Byte.x52; Byte.x49; Byte.x46].
Proof.
  eexists. split; [vm_compute; reflexivity|].
  eapply (proj1 X16_final_audio_is_the_data_delivered
            [Index.MediaGranted 0; Index.DataAvailable 0 one_chunk;
             Index.ClickPause 10; Index.ClickPause 20;
             Index.DataAvailable 0 [Byte.x46]; Index.ClickStop;
             Index.DataAvailable 0 []] 0%nat Index.initial).
  - vm_compute; reflexivity.
  - reflexivity.
Defined.

(** ** The planning proxy, by its last request *)

Section PlanningOutcome.
Import Planner.

Lemma details_of_truthy e : data_truthy (details_of e) = true.
Proof.
  unfold details_of, message_or_default.
  destruct (response_data e) as [d|]; [destruct (data_truthy d) eqn:Hd; [done|]|];
    destruct (message e) as [m|]; try done;
    by destruct (String.eqb_spec m ""); simpl; try destruct (String.eqb_spec m "").
Qed.

(** X17. The answer of the planning proxy is decided by the last request it
    sent, the first or the second: when that request was answered (axios
    resolves for an answer with a 2xx status only), the proxy answers 200 with
    the data of the answer unchanged; when it failed, the proxy answers 504 if
    the failure is of the timeout class and 500 otherwise, with details that
    are never absent or falsy.  So 504 is answered exactly after two failures
    of the timeout class. *)
Theorem X17_planning_answer_follows_last_request :
  ∀ req up, accepted req →
    let p := fields_of req in
    let tr := (handler req up).1 in
    let res := (handler req up).2 in
    (∃ n, (n = 1 ∨ n = 2)%nat
          ∧ posts tr = n ∧ last tr = Some (Post n 180000 p)
          ∧ match up n with
            | Resolved data => res = {| status := 200; json := BData data |}
            | Rejected e =>
                (timeout_class e → res = failure true e)
                ∧ (¬ timeout_class e → res = failure false e)
                ∧ data_truthy (details_of e) = true
            end)
    ∧ (status res = 504
       ↔ ∃ e1 e2, up 1%nat = Rejected e1 ∧ timeout_class e1
                  ∧ up 2%nat = Rejected e2 ∧ timeout_class e2).
Proof.
  intros req up Hacc p tr res. subst tr res.
  rewrite (handler_accepted _ _ Hacc), planning_call_cases. fold p.
  assert (Hfail : ∀ e,
    (timeout_class e → failure (timeoutLike e) e = failure true e)
    ∧ (¬ timeout_class e → failure (timeoutLike e) e = failure false e)
    ∧ data_truthy (details_of e) = true).
  { intros e. split; [|split; [|apply details_of_truthy]].
    - intros Hc. by rewrite (proj2 (timeoutLike_spec e) Hc).
    - intros Hc. by rewrite (proj2 (timeoutLike_false e) Hc). }
  destruct (up 1%nat) as [d|e1] eqn:H1;
    [|pose proof (Hfail e1) as Hf1;
      destruct (timeoutLike e1) eqn:Ht1; [destruct (up 2%nat) as [d|e2] eqn:H2|]];
    cbn [fst snd].
  - split; [exists 1%nat; rewrite H1; repeat split; auto|].
    split; [done|]. by intros (? & ? & ? & _).
  - split; [exists 2%nat; rewrite H2; repeat split; auto|].
    split; [done|]. by intros (? & ? & _ & _ & ? & _).
  - split; [exists 2%nat; rewrite H2; split; [auto|split; [done|split; [done|apply Hfail]]]|].
    destruct (timeoutLike e2) eqn:Ht2.
    + split; [intros _|done]. exists e1, e2. by rewrite <- !timeoutLike_spec.
    + split; [done|]. intros (? & e & _ & _ & He & Hc).
      apply timeoutLike_spec in Hc. congruence.
  - split; [exists 1%nat; rewrite H1; split; [auto|split; [done|split; [done|exact Hf1]]]|].
    split; [done|]. intros (e & ? & He & Hc & _).
    apply timeoutLike_spec in Hc. congruence.
Qed.

Lemma X17_planning_answer_witness :
  let req : Request field :=
    {| method := "POST";
       body := Some (<[ "treatment_planner_text" := Scalar (VStr "lip filler") ]>
                       {[ "session_id" := Scalar (VStr "s-1") ]}) |} in
  let up := λ n : nat,
    if (n =? 1)%nat
    then Rejected {| code := Some "ECONNABORTED";
                     message := Some "timeout of 180000ms exceeded";
                     response_data := None |}
    else Resolved (JObject "{}") in
  accepted req
  ∧ ∃ n, (n = 1 ∨ n = 2)%nat
         ∧ posts (handler req up).1 = n
         ∧ last (handler req up).1 = Some (Post n 180000 (fields_of req))
         ∧ match up n with
           | Resolved data => (handler req up).2 = {| status := 200; json := BData data |}
           | Rejected e =>
               (timeout_class e → (handler req up).2 = failure true e)
               ∧ (¬ timeout_class e → (handler req up).2 = failure false e)
               ∧ data_truthy (details_of e) = true
           end.
Proof.
  intros req up.
  assert (Hacc : accepted req) by (repeat split; reflexivity).
  split; [exact Hacc|].
  exact (proj1 (X17_planning_answer_follows_last_request req up Hacc)).
Defined.

End PlanningOutcome.

(** ** Field labels *)

Section Labels.
Import Label.

Lemma length_spaces s : String.length (spaces s) = String.length s.
Proof. induction s as [|c s IH]; simpl; by rewrite ?IH. Qed.

Lemma length_capitalize b s : String.length (capitalize b s) = String.length s.
Proof.
  revert b. induction s as [|c s IH]; intros b; simpl; [done|].
  destruct b; [|destruct (is_word c)]; simpl; by rewrite IH.
Qed.

Lemma code_ascii_of_N n : (n < 256)%N → code (Ascii.ascii_of_N n) = n.
Proof. intros Hn. unfold code. by apply Ascii.N_ascii_embedding. Qed.

Lemma code_lt c : (code c < 256)%N.
Proof. apply Ascii.N_ascii_bounded. Qed.

Lemma code_inj c d : code c = code d → c = d.
Proof.
  unfold code. intros H. by rewrite <- (Ascii.ascii_N_embedding c), H, Ascii.ascii_N_embedding.
Qed.

Lemma code_upper c :
  code (upper c) = if ((97 <=? code c) && (code c <=? 122))%N then (code c - 32)%N else code c.
Proof.
  unfold upper. pose proof (code_lt c) as Hlt.
  destruct ((97 <=? code c) && (code c <=? 122))%N eqn:H; [|done].
  apply code_ascii_of_N. lia.
Qed.

Lemma upper_is_word c : is_word c = true → is_word (upper c) = true.
Proof.
  unfold is_word. rewrite code_upper.
  destruct ((97 <=? code c) && (code c <=? 122))%N eqn:H; [|by rewrite ?H].
  intros _. apply andb_true_iff in H as [?%N.leb_le ?%N.leb_le].
  assert ((65 <=? code c - 32) && (code c - 32 <=? 90) = true)%N as ->; [|by rewrite orb_true_r].
  apply andb_true_iff. split; apply N.leb_le; lia.
Qed.

Lemma upper_upper c : upper (upper c) = upper c.
Proof.
  apply code_inj. rewrite !code_upper.
  destruct ((97 <=? code c) && (code c <=? 122))%N eqn:H; [|by rewrite H].
  apply andb_true_iff in H as [?%N.leb_le ?%N.leb_le].
  assert ((97 <=? code c - 32) && (code c - 32 <=? 122) = false)%N as ->; [|done].
  apply andb_false_iff. left. apply N.leb_gt. lia.
Qed.

Lemma upper_not_underscore c : code c ≠ 95%N → code (upper c) ≠ 95%N.
Proof.
  rewrite code_upper. destruct ((97 <=? code c) && (code c <=? 122))%N eqn:H; [|done].
  apply andb_true_iff in H as [?%N.leb_le ?%N.leb_le]. lia.
Qed.

Lemma capitalize_idemp b s : capitalize b (capitalize b s) = capitalize b s.
Proof.
  revert b. induction s as [|c s IH]; intros b; simpl; [done|].
  destruct b; simpl; [by rewrite IH|].
  destruct (is_word c) eqn:Hw; simpl.
  - by rewrite (upper_is_word _ Hw), upper_upper, IH.
  - by rewrite Hw, IH.
Qed.

Lemma chars_spaces s : Forall (λ c, code c ≠ 95%N) (chars (spaces s)).
Proof.
  induction s as [|c s IH]; simpl; constructor; [|done].
  destruct (code c =? 95)%N eqn:H; [by vm_compute|by apply N.eqb_neq].
Qed.

Lemma chars_capitalize b s :
  Forall (λ c, code c ≠ 95%N) (chars s) →
  Forall (λ c, code c ≠ 95%N) (chars (capitalize b s)).
Proof.
  revert b. induction s as [|c s IH]; intros b; simpl; [done|].
  intros [Hc Hs]%Forall_cons.
  destruct b; [|destruct (is_word c)]; simpl; constructor; auto using upper_not_underscore.
Qed.

Lemma spaces_id s : Forall (λ c, code c ≠ 95%N) (chars s) → spaces s = s.
Proof.
  induction s as [|c s IH]; simpl; [done|]. intros [Hc Hs]%Forall_cons.
  apply N.eqb_neq in Hc. by rewrite Hc, IH.
Qed.

Example labelize_examples :
  labelize "cost_per_session" = "Cost Per Session"
  ∧ labelize "MRP_cost" = "MRP Cost"
  ∧ labelize "pre-op_notes" = "Pre-op Notes"
  ∧ labelize "(dose)" = "(Dose)"
  ∧ labelize "-abc" = "-Abc".
Proof. vm_compute. done. Qed.

Lemma space_not_word c : is_space c = true → is_word c = false.
Proof.
  unfold is_space, is_word. intros Hs.
  repeat match goal with
         | H : _ || _ = true |- _ => apply orb_true_iff in H as [H|H]
         | H : _ && _ = true |- _ => apply andb_true_iff in H as [? ?]
         | H : (_ <=? _)%N = true |- _ => apply N.leb_le in H
         | H : (_ =? _)%N = true |- _ => apply N.eqb_eq in H
         end;
    repeat match goal with
           | |- _ || _ = false => apply orb_false_iff; split
           | |- _ && _ = false => apply andb_false_iff
           end;
    first [ apply N.eqb_neq; lia
          | left; apply N.leb_gt; lia
          | right; apply N.leb_gt; lia ].
Qed.

Lemma word_since_space_snoc before c :
  word_since_space (before ++ [c])
  = if word_since_space before then negb (is_space c) else is_word c.
Proof.
  unfold word_since_space. rewrite reverse_snoc. cbn [up_to_space].
  destruct (is_space c) eqn:Hs; cbn [existsb negb].
  - rewrite (space_not_word _ Hs). by destruct (existsb _ _).
  - destruct (existsb is_word (up_to_space (reverse before))); [by rewrite orb_true_r|].
    by rewrite orb_false_r.
Qed.

Lemma capitalize_lookup s : ∀ before i,
  chars (capitalize (word_since_space before) s) !! i
  = (λ c, if is_word c && negb (word_since_space (before ++ take i (chars s)))
          then upper c else c) <$> chars s !! i.
Proof.
  induction s as [|c s IH]; intros before i; [done|].
  cbn [capitalize chars].
  assert (Hnext : chars (capitalize (if word_since_space before
                                     then negb (is_space c) else is_word c) s) !! pred i
                  = (λ c0, if is_word c0
                              && negb (word_since_space
                                         (before ++ c :: take (pred i) (chars s)))
                           then upper c0 else c0) <$> chars s !! pred i).
  { rewrite <- word_since_space_snoc, (IH (before ++ [c]) (pred i)).
    by rewrite <- app_assoc. }
  destruct (word_since_space before) eqn:Hb; [|destruct (is_word c) eqn:Hw];
    cbn [chars]; destruct i as [|i]; cbn [lookup list_lookup take fmap option_map pred];
    rewrite ?app_nil_r, ?Hb, ?Hw, ?andb_false_r; cbn [andb negb];
    try done; try exact Hnext;
    cbn [option_fmap option_map]; by rewrite ?Hw, ?andb_false_r.
Qed.

Lemma chars_spaces_lookup key i :
  chars (spaces key) !! i
  = (λ c, if (code c =? 95)%N then Ascii.ascii_of_N 32 else c) <$> chars key !! i.
Proof.
  revert i. induction key as [|c s IH]; intros [|i]; cbn [spaces chars]; try done.
  apply IH.
Qed.

(** X18. [labelize] changes a character in two cases only.  An underscore
    becomes a space.  A word character (a Latin letter, a digit) becomes its
    upper case when no word character stands between it and the last white
    space before it, or the start of the key; so "pre-op_notes" gives "Pre-op
    Notes" and "-abc" gives "-Abc".  Every other character is kept.  The
    label has the length of the key and no underscore, and the label of a
    label is that label. *)
Theorem X18_labelize_shape :
  ∀ key,
    (∀ i, chars (spaces key) !! i
          = (λ c, if (code c =? 95)%N then Ascii.ascii_of_N 32 else c) <$> chars key !! i)
    ∧ (∀ i, chars (labelize key) !! i
            = (λ c, if is_word c
                       && negb (word_since_space (take i (chars (spaces key))))
                    then upper c else c) <$> chars (spaces key) !! i)
    ∧ String.length (labelize key) = String.length key
    ∧ Forall (λ c, code c ≠ 95%N) (chars (labelize key))
    ∧ labelize (labelize key) = labelize key
    ∧ labelize "pre-op_notes" = "Pre-op Notes"
    ∧ labelize "-abc" = "-Abc".
Proof.
  intros key. unfold labelize. split; [|split; [|split; [|split; [|split]]]].
  - apply chars_spaces_lookup.
  - intros i. apply (capitalize_lookup (spaces key) [] i).
  - by rewrite length_capitalize, length_spaces.
  - apply chars_capitalize, chars_spaces.
  - rewrite (spaces_id (capitalize false (spaces key)))
      by apply chars_capitalize, chars_spaces.
    apply capitalize_idemp.
  - by vm_compute.
Qed.

End Labels.

(** ** Edits of the plans on the planner page *)

Section PlanEdits.
Import Tree PlannerPage.

Lemma set_item_lookup i v items : set_item i v items !! i = Some v.
Proof.
  unfold set_item. destruct (i <? length items)%nat eqn:Hi.
  - apply Nat.ltb_lt in Hi. by rewrite list_lookup_insert_eq.
  - apply Nat.ltb_ge in Hi.
    rewrite lookup_app_r by done. rewrite lookup_app_r by (by rewrite length_replicate).
    by rewrite length_replicate, Nat.sub_diag.
Qed.

Lemma set_item_lookup_ne i j v items :
  j ≠ i → (j < length items)%nat → set_item i v items !! j = items !! j.
Proof.
  intros Hne Hj. unfold set_item. destruct (i <? length items)%nat.
  - by rewrite list_lookup_insert_ne.
  - by rewrite lookup_app_l.
Qed.

Lemma length_set_item i v items :
  length (set_item i v items) = (length items `max` S i)%nat.
Proof.
  unfold set_item. destruct (i <? length items)%nat eqn:Hi.
  - apply Nat.ltb_lt in Hi. rewrite length_insert. lia.
  - apply Nat.ltb_ge in Hi. rewrite !length_app, length_replicate. simpl. lia.
Qed.

Lemma set_item_set_item i v w items :
  set_item i v (set_item i w items) = set_item i v items.
Proof.
  unfold set_item at 1. rewrite length_set_item.
  assert ((i <? length items `max` S i)%nat = true) as -> by (apply Nat.ltb_lt; lia).
  unfold set_item. destruct (i <? length items)%nat eqn:Hi.
  - by rewrite list_insert_insert_eq.
  - apply Nat.ltb_ge in Hi.
    replace i with (length items + (length (replicate (i - length items) Undefined) + 0))%nat
      at 1 by (rewrite length_replicate; lia).
    by rewrite !insert_app_r.
Qed.

Lemma item_set_item i v items : item (set_item i v items) i = v.
Proof. unfold item. by rewrite set_item_lookup. Qed.

Lemma assign_lookup_ne key k v fields :
  k ≠ key → assign key v fields !! k = fields !! k.
Proof. intros Hne. unfold assign. case_bool_decide; [done|]. by rewrite lookup_insert_ne. Qed.

Lemma assign_lookup key v fields :
  key ≠ "__proto__" ∨ fields !! key ≠ None → assign key v fields !! key = Some v.
Proof.
  intros Hk. unfold assign. rewrite bool_decide_eq_false_2; [by rewrite lookup_insert_eq|].
  intros [-> Hnone]. by destruct Hk.
Qed.

Lemma assign_assign key v w fields :
  assign key v (assign key w fields) = assign key v fields.
Proof.
  unfold assign. destruct (decide (key = "__proto__" ∧ fields !! key = None)) as [H|H].
  - by rewrite !(bool_decide_eq_true_2 _ H).
  - rewrite !(bool_decide_eq_false_2 _ H).
    rewrite bool_decide_eq_false_2; [by rewrite insert_insert_eq|].
    intros [_ Hnone]. by rewrite lookup_insert_eq in Hnone.
Qed.

(** The previous plan, after an edit of it went through. *)
Lemma assign_plan_current planId plan prev :
  or (default Undefined (assign planId (Obj plan) prev !! planId)) (Obj ∅) = Obj plan
  ∨ assign planId (Obj plan) prev = prev.
Proof.
  unfold assign. case_bool_decide; [by right|left]. by rewrite lookup_insert_eq.
Qed.

Lemma updateProductField_shape planId index key value prev :
  updateProductField planId index key value prev
  = update_item_field "products" planId index key value prev.
Proof. reflexivity. Qed.

Lemma updateLabField_shape planId index key value prev :
  updateLabField planId index key value prev
  = update_item_field "lab_tests" planId index key value prev.
Proof. reflexivity. Qed.

Lemma update_item_field_fails name planId i key v prev :
  update_item_field name planId i key v prev = None
  ↔ iterate (listed name planId prev) = None.
Proof. unfold update_item_field. by destruct (iterate (listed name planId prev)). Qed.

Lemma update_item_field_sets name planId i key v prev items :
  iterate (listed name planId prev) = Some items →
  planId ≠ "__proto__" → key ≠ "__proto__" →
  ∃ d it, update_item_field name planId i key v prev = Some d
          ∧ replaces_item name planId i it items prev d
          ∧ sets_key key v i items it.
Proof.
  intros Hit Hp Hk. unfold update_item_field. rewrite Hit. simpl.
  eexists _, _. split; [done|]. split; [split|split].
  - intros p Hne. by apply assign_lookup_ne.
  - eexists _, _. split; [by apply assign_lookup; left|].
    split; [by rewrite lookup_insert_eq|]. split; [|split; [|split]].
    + intros k Hne. by rewrite !lookup_insert_ne.
    + apply length_set_item.
    + intros j Hne Hj. by apply set_item_lookup_ne.
    + apply set_item_lookup.
  - by apply assign_lookup; left.
  - intros k Hne. by apply assign_lookup_ne.
Qed.

Lemma listed_after name planId plan items prev :
  plan !! name = Some (Arr items) →
  listed name planId (<[planId := Obj plan]> prev) = Arr items.
Proof.
  intros Hl. unfold listed. rewrite lookup_insert_eq.
  change (opt_prop _ name) with (default Undefined (plan !! name)). by rewrite Hl.
Qed.

Lemma assign_setter key v fields :
  key = "__proto__" ∧ fields !! key = None → assign key v fields = fields.
Proof. intros H. unfold assign. by rewrite bool_decide_eq_true_2. Qed.

Lemma assign_own key v fields :
  ¬ (key = "__proto__" ∧ fields !! key = None) → assign key v fields = <[key := v]> fields.
Proof. intros H. unfold assign. by rewrite bool_decide_eq_false_2. Qed.

Lemma assign_insert key v w fields :
  assign key v (<[key := w]> fields) = <[key := v]> fields.
Proof.
  unfold assign. rewrite bool_decide_eq_false_2; [by rewrite insert_insert_eq|].
  intros [_ Hnone]. by rewrite lookup_insert_eq in Hnone.
Qed.

(** A later edit of the same field overrides an earlier one. *)
Lemma update_item_field_twice name planId i key v w prev :
  update_item_field name planId i key v prev ≫= update_item_field name planId i key w
  = update_item_field name planId i key w prev.
Proof.
  destruct (iterate (listed name planId prev)) as [items|] eqn:Hit;
    [|by unfold update_item_field; rewrite Hit].
  assert (∃ plan1, plan1 !! name
                   = Some (Arr (set_item i (Obj (assign key v
                                  (spread (or (item items i) (Obj ∅))))) items))
                   ∧ plan1 = <[name := Arr (set_item i (Obj (assign key v
                                  (spread (or (item items i) (Obj ∅))))) items)]>
                               (<[name := Arr items]>
                                  (spread (or (default Undefined (prev !! planId)) (Obj ∅))))
                   ∧ update_item_field name planId i key v prev
                     = Some (assign planId (Obj plan1) prev))
    as (plan1 & Hlist & Hplan & ->).
  { eexists. split; [|split; [done|]].
    - apply lookup_insert_eq.
    - unfold update_item_field. by rewrite Hit. }
  cbn [mbind option_bind].
  destruct (decide (planId = "__proto__" ∧ prev !! planId = None)) as [Hset|Hown].
  { rewrite (assign_setter _ _ _ Hset). unfold update_item_field. by rewrite Hit. }
  rewrite (assign_own _ _ _ Hown). unfold update_item_field.
  rewrite (listed_after name planId plan1 _ prev Hlist), Hit.
  cbn [iterate mbind option_bind]. rewrite lookup_insert_eq.
  change (or (default Undefined (Some (Obj plan1))) (Obj ∅)) with (Obj plan1).
  rewrite item_set_item.
  change (or (Obj ?x) (Obj ∅)) with (Obj x). cbn [spread].
  rewrite assign_assign, set_item_set_item, assign_insert.
  rewrite (assign_own _ _ _ Hown). subst plan1. by rewrite !insert_insert_eq.
Qed.

(** X19. [updateProductField] throws exactly when the [products] of the plan
    is truthy and not iterable.  Otherwise it sets the one field: in the new
    edits the plan holds a list of products in which the product at the index
    is a copy of the previous one with the field set to the value; every
    other plan, every other property of the plan, every other product and
    every other field of the product is as before.  A later edit of the same
    field overrides an earlier one. *)
Theorem X19_product_edit_sets_one_field :
  ∀ planId productIndex key value prev,
    (updateProductField planId productIndex key value prev = None
     ↔ iterate (listed "products" planId prev) = None)
    ∧ (∀ products,
         iterate (listed "products" planId prev) = Some products →
         planId ≠ "__proto__" → key ≠ "__proto__" →
         ∃ d product,
           updateProductField planId productIndex key value prev = Some d
           ∧ replaces_item "products" planId productIndex product products prev d
           ∧ sets_key key value productIndex products product)
    ∧ (∀ later,
         updateProductField planId productIndex key value prev
           ≫= updateProductField planId productIndex key later
         = updateProductField planId productIndex key later prev).
Proof.
  intros planId i key v prev. split; [|split].
  - apply update_item_field_fails.
  - intros products Hit Hp Hk. by apply update_item_field_sets.
  - intros w. apply (update_item_field_twice "products").
Qed.

Lemma X19_product_edit_witness :
  let prev : gmap string jsvalue :=
    {[ "A" := Obj (<[ "plan_name" := Str "Plan A" ]>
                     {[ "products" := Arr [Obj {[ "name" := Str "Minoxidil" ]};
                                           Obj {[ "name" := Str "Biotin" ]}] ]}) ]} in
  ∃ d product,
    updateProductField "A" 1 "dosage" (Str "5 mg") prev = Some d
    ∧ replaces_item "products" "A" 1 product
        [Obj {[ "name" := Str "Minoxidil" ]}; Obj {[ "name" := Str "Biotin" ]}] prev d
    ∧ sets_key "dosage" (Str "5 mg") 1
        [Obj {[ "name" := Str "Minoxidil" ]}; Obj {[ "name" := Str "Biotin" ]}] product.
Proof.
  intros prev.
  apply (proj1 (proj2 (X19_product_edit_sets_one_field "A" 1 "dosage" (Str "5 mg") prev)));
    [vm_compute; reflexivity|done|done].
Defined.

(** X20. [updateLabField] sets one field of one lab in the same way.  The
    name input of a lab card shows [lab_test_name] before [name] but writes
    [name]: for a lab with a truthy [lab_test_name] an edit of the name leaves
    the name shown as it was, whatever is typed; for any other lab the name
    shown becomes the value typed (nothing, when that is empty). *)
Theorem X20_lab_edit_and_the_name_shown :
  ∀ planId labIndex prev,
    (∀ key value,
       updateLabField planId labIndex key value prev = None
       ↔ iterate (listed "lab_tests" planId prev) = None)
    ∧ (∀ key value labs,
         iterate (listed "lab_tests" planId prev) = Some labs →
         planId ≠ "__proto__" → key ≠ "__proto__" →
         ∃ d lab,
           updateLabField planId labIndex key value prev = Some d
           ∧ replaces_item "lab_tests" planId labIndex lab labs prev d
           ∧ sets_key key value labIndex labs lab)
    ∧ (∀ value labs,
         iterate (listed "lab_tests" planId prev) = Some labs →
         planId ≠ "__proto__" →
         let before := spread (or (item labs labIndex) (Obj ∅)) in
         ∃ d lab,
           updateLabField planId labIndex "name" value prev = Some d
           ∧ replaces_item "lab_tests" planId labIndex lab labs prev d
           ∧ labName lab
             = if truthy (default Undefined (before !! "lab_test_name"))
               then labName before
               else or value (Str "")).
Proof.
  intros planId i prev. split; [|split].
  - intros key v. apply update_item_field_fails.
  - intros key v labs Hit Hp Hk. by apply update_item_field_sets.
  - intros v labs Hit Hp before.
    destruct (update_item_field_sets "lab_tests" planId i "name" v prev labs Hit Hp
                ltac:(done)) as (d & lab & Hd & Hrep & Hname & Hothers).
    exists d, lab. split; [done|]. split; [done|].
    unfold labName. rewrite Hname, (Hothers "lab_test_name") by done. fold before.
    cbn [default]. unfold or at 2 4.
    by destruct (truthy (default Undefined (before !! "lab_test_name"))).
Qed.

Lemma X20_lab_edit_witness :
  let prev : gmap string jsvalue :=
    {[ "A" := Obj {[ "lab_tests" := Arr [Obj {[ "lab_test_name" := Str "CBC" ]}] ]} ]} in
  ∃ d lab,
    updateLabField "A" 0 "name" (Str "Ferritin") prev = Some d
    ∧ replaces_item "lab_tests" "A" 0 lab [Obj {[ "lab_test_name" := Str "CBC" ]}] prev d
    ∧ labName lab = Str "CBC".
Proof.
  intros prev.
  destruct (proj2 (proj2 (X20_lab_edit_and_the_name_shown "A" 0 prev)) (Str "Ferritin")
              [Obj {[ "lab_test_name" := Str "CBC" ]}])
    as (d & lab & Hd & Hrep & Hname); [vm_compute; reflexivity|done|].
  exists d, lab. split; [exact Hd|]. split; [exact Hrep|].
  rewrite Hname. vm_compute. reflexivity.
Defined.

Lemma updateServiceSpec_unfold planId i key v prev :
  updateServiceSpec planId i key v prev
  = items ← iterate (listed "services" planId prev);
    Some (assign planId
            (Obj (<["services" :=
                      Arr (set_item i
                             (Obj (<["specifications" :=
                                       Obj (assign key v
                                              (spread (or (opt_prop (item items i)
                                                             "specifications") (Obj ∅))))]>
                                     (spread (or (item items i) (Obj ∅)))))
                             items)]>
                    (spread (or (default Undefined (prev !! planId)) (Obj ∅)))))
            prev).
Proof.
  unfold updateServiceSpec, listed.
  destruct (iterate _) as [items|]; [|done]. cbn [mbind option_bind].
  by rewrite !insert_insert_eq.
Qed.

(** X21. [updateServiceSpec] throws exactly when the [services] of the plan
    is truthy and not iterable.  Otherwise it sets the one specification: the
    service at the index is a copy of the previous one whose specifications
    are a copy of the previous ones with the key set to the value; every
    other plan, every other property of the plan, every other service, every
    other property of the service and every other specification is as before.
    A later edit of the same specification overrides an earlier one. *)
Theorem X21_service_edit_sets_one_specification :
  ∀ planId serviceIndex key value prev,
    (updateServiceSpec planId serviceIndex key value prev = None
     ↔ iterate (listed "services" planId prev) = None)
    ∧ (∀ services,
         iterate (listed "services" planId prev) = Some services →
         planId ≠ "__proto__" → key ≠ "__proto__" →
         ∃ d service,
           updateServiceSpec planId serviceIndex key value prev = Some d
           ∧ replaces_item "services" planId serviceIndex service services prev d
           ∧ sets_specification key value serviceIndex services service)
    ∧ (∀ later,
         updateServiceSpec planId serviceIndex key value prev
           ≫= updateServiceSpec planId serviceIndex key later
         = updateServiceSpec planId serviceIndex key later prev).
Proof.
  intros planId i key v prev. split; [|split].
  - rewrite updateServiceSpec_unfold.
    by destruct (iterate (listed "services" planId prev)).
  - intros services Hit Hp Hk. rewrite updateServiceSpec_unfold, Hit.
    cbn [mbind option_bind]. eexists _, _. split; [done|]. split; [split|split].
    + intros p Hne. by apply assign_lookup_ne.
    + eexists _, _. split; [by apply assign_lookup; left|].
      split; [by rewrite lookup_insert_eq|]. split; [|split; [|split]].
      * intros k Hne. by rewrite lookup_insert_ne.
      * apply length_set_item.
      * intros j Hne Hj. by apply set_item_lookup_ne.
      * apply set_item_lookup.
    + eexists. split; [by apply lookup_insert_eq|]. split.
      * by apply assign_lookup; left.
      * intros k Hne. by apply assign_lookup_ne.
    + intros k Hne. by rewrite lookup_insert_ne.
  - intros w. rewrite !updateServiceSpec_unfold.
    destruct (iterate (listed "services" planId prev)) as [items|] eqn:Hit; [|done].
    cbn [mbind option_bind].
    destruct (decide (planId = "__proto__" ∧ prev !! planId = None)) as [Hset|Hown].
    { rewrite !(assign_setter _ _ _ Hset), updateServiceSpec_unfold, Hit.
      cbn [mbind option_bind]. by rewrite (assign_setter _ _ _ Hset). }
    rewrite !(assign_own _ _ _ Hown), updateServiceSpec_unfold.
    rewrite (listed_after "services" planId _ _ prev ltac:(by apply lookup_insert_eq)).
    cbn [iterate mbind option_bind]. rewrite lookup_insert_eq.
    change (or (default Undefined (Some (Obj ?x))) (Obj ∅)) with (Obj x).
    rewrite item_set_item.
    change (or (Obj ?x) (Obj ∅)) with (Obj x). cbn [spread opt_prop].
    rewrite lookup_insert_eq. cbn [default].
    change (or (id (Obj ?x)) (Obj ∅)) with (Obj x). cbn [spread].
    rewrite assign_assign, set_item_set_item, assign_insert.
    by rewrite !insert_insert_eq.
Qed.

Lemma X21_service_edit_witness :
  let prev : gmap string jsvalue :=
    {[ "B" := Obj {[ "services" :=
                       Arr [Obj (<[ "service_name" := Str "PRP" ]>
                                   {[ "specifications" :=
                                        Obj {[ "sessions" := Num 3 ]} ]})] ]} ]} in
  ∃ d service,
    updateServiceSpec "B" 0 "sessions" (Str "4") prev = Some d
    ∧ replaces_item "services" "B" 0 service
        [Obj (<[ "service_name" := Str "PRP" ]>
                {[ "specifications" := Obj {[ "sessions" := Num 3 ]} ]})] prev d
    ∧ sets_specification "sessions" (Str "4") 0
        [Obj (<[ "service_name" := Str "PRP" ]>
                {[ "specifications" := Obj {[ "sessions" := Num 3 ]} ]})] service.
Proof.
  intros prev.
  apply (proj1 (proj2 (X21_service_edit_sets_one_specification "B" 0 "sessions" (Str "4")
                         prev))); [vm_compute; reflexivity|done|done].
Defined.

End PlanEdits.

(** ** The planner page and its request *)

Section PlannerRequest.
Import Tree PlannerPage.

Lemma pretty_N_go_nonempty x s : s ≠ "" → pretty_N_go x s ≠ "".
Proof.
  revert s. induction (N.lt_wf_0 x) as [x _ IH]; intros s Hs.
  assert (x = 0 ∨ 0 < x)%N as [->|Hx] by lia; [by rewrite pretty_N_go_0|].
  rewrite pretty_N_go_step by done. apply IH; [by apply N.div_lt|done].
Qed.

Lemma pretty_N_nonempty (x : N) : pretty x ≠ "".
Proof.
  unfold pretty, pretty_N. case_decide as Hx; [done|].
  rewrite pretty_N_go_step by lia. by apply pretty_N_go_nonempty.
Qed.

Lemma pretty_Z_nonempty (x : Z) : pretty x ≠ "".
Proof.
  unfold pretty, pretty_Z. destruct x as [|p|p]; [done| |done].
  apply (pretty_N_nonempty (N.pos p)).
Qed.

(** A truthy scalar converts to a non-empty string. *)
Lemma ToString_truthy v : JS.truthy v = true → JS.ToString v ≠ "".
Proof.
  destruct v as [| |[]|n|s]; simpl; try done.
  - intros _. apply pretty_Z_nonempty.
  - by destruct (String.eqb_spec s "").
Qed.

Lemma createSessionId_nonempty randomUUID now :
  randomUUID ≠ Some "" → createSessionId randomUUID now ≠ "".
Proof. destruct randomUUID as [uuid|]; simpl; [congruence|done]. Qed.

Lemma callPlanner_request randomUUID now engine text reply s :
  (callPlanner randomUUID now engine text reply s).1
  = [Post "/api/treatment-plans"
       [("session_id", VStr (createSessionId randomUUID now));
        ("user_id", VStr "user-123");
        ("slot_id", VStr "b553d02b-102c-457b-b525-0bfca777b191");
        ("treatment_planner_text", VStr text)]%string].
Proof. reflexivity. Qed.

Lemma eqb_empty_false s : s ≠ "" → String.eqb s "" = false.
Proof. intros Hs. by destruct (String.eqb_spec s ""). Qed.

(** X22. Once mounted, the planner page asks for plans exactly when the
    session storage holds a non-empty transcription: then it sends one POST
    to /api/treatment-plans with a session id, the fixed user and slot ids
    and that text, and is loading until the reply comes.  Without a stored
    transcription it sends nothing and sets the error text, but leaves the
    status idle: as the error panel is rendered for the status error only,
    that text is not shown, and the page shows no card. *)
Theorem X22_planner_asks_iff_transcription_stored :
  ∀ storage randomUUID now engine reply,
    let text := loadTranscription storage in
    let run := useEffect storage randomUUID now engine reply initial in
    (text = "" →
       run.1 = []
       ∧ error run.2 = "No transcription text found. Go back and generate a transcript first."
       ∧ status run.2 = s_idle
       ∧ error_panel run.2 = None
       ∧ cards run.2 = []
       ∧ headerSubtitle run.2 = "Generate treatment plans from your transcript.")
    ∧ (text ≠ "" →
       run.1 = [Post "/api/treatment-plans"
                  [("session_id", VStr (createSessionId randomUUID now));
                   ("user_id", VStr "user-123");
                   ("slot_id", VStr "b553d02b-102c-457b-b525-0bfca777b191");
                   ("treatment_planner_text", VStr text)]%string]
       ∧ transcriptionText run.2 = text
       ∧ sessionId run.2 = createSessionId randomUUID now
       ∧ (reply = None →
          status run.2 = s_loading ∧ error run.2 = "" ∧ error_panel run.2 = None)).
Proof.
  intros storage randomUUID now engine reply text run. subst run. unfold useEffect.
  fold text. split.
  - intros ->. by repeat split.
  - intros Htext. rewrite (eqb_empty_false _ Htext). cbn [negb].
    split; [apply callPlanner_request|].
    unfold callPlanner. cbn [snd].
    destruct reply as [[message|[] [message|data]]|]; cbn [snd];
      repeat match goal with
             | |- context [match ?x with _ => _ end] => destruct x
             end; by repeat split.
Qed.

Lemma X22_planner_asks_witness :
  let storage : option (gmap string string) := Some ∅ in
  (useEffect storage None 1700000000000 (λ _, "TypeError") None initial).1 = []
  ∧ error_panel (useEffect storage None 1700000000000 (λ _, "TypeError") None initial).2
    = None.
Proof.
  intros storage.
  assert (Hempty : loadTranscription storage = "") by (vm_compute; reflexivity).
  destruct (proj1 (X22_planner_asks_iff_transcription_stored storage None 1700000000000
                     (λ _, "TypeError") None) Hempty) as (H1 & _ & _ & H2 & _).
  by split.
Defined.

(** X23. The transcription goes from the recorder page to the gateway
    unchanged.  [generatePlans] on a truthy transcription stores its text and
    navigates; the planner page then reads that text back, and its request is
    one the proxy accepts: the proxy forwards to the gateway the very session
    id, user id, slot id and text of the page. *)
Theorem X23_transcription_reaches_the_gateway :
  ∀ items s randomUUID now engine reply up,
    JS.truthy (Index.transcriptionText s) = true →
    randomUUID ≠ Some "" →
    let text := JS.ToString (Index.transcriptionText s) in
    let payload :=
      {| Planner.session_id := Planner.Scalar (VStr (createSessionId randomUUID now));
         Planner.user_id := Planner.Scalar (VStr "user-123");
         Planner.slot_id := Planner.Scalar (VStr "b553d02b-102c-457b-b525-0bfca777b191");
         Planner.treatment_planner_text := Planner.Scalar (VStr text) |} in
    ∃ storage s' e,
      Handoff.generatePlans (Some items) None s = (storage, true, s')
      ∧ Index.planError s' = ""
      ∧ loadTranscription storage = text
      ∧ (useEffect storage randomUUID now engine reply initial).1 = [e]
      ∧ accepted (Handoff.planner_request e)
      ∧ Planner.fields_of (Handoff.planner_request e) = payload
      ∧ ∃ tr, (Planner.handler (Handoff.planner_request e) up).1
              = Planner.Post 1 180000 payload :: tr.
Proof.
  intros items s randomUUID now engine reply up Htruthy Huuid text payload.
  pose proof (ToString_truthy _ Htruthy) as Htext. fold text in Htext.
  pose proof (createSessionId_nonempty _ now Huuid) as Hsid.
  eexists _, _, _. unfold Handoff.generatePlans. rewrite Htruthy. cbn [negb].
  split; [reflexivity|]. split; [reflexivity|].
  assert (Hload : loadTranscription
            (Some (<["planner:transcription" := text]> items)) = text).
  { unfold loadTranscription. by rewrite lookup_insert_eq. }
  split; [exact Hload|].
  unfold useEffect.
  change (JS.ToString (Index.transcriptionText (Index.with_planError "" s))) with text.
  rewrite Hload, (eqb_empty_false _ Htext). cbn [negb].
  split; [apply callPlanner_request|].
  assert (Hfields : Planner.fields_of
            (Handoff.planner_request
               (Post "/api/treatment-plans"
                  [("session_id", VStr (createSessionId randomUUID now));
                   ("user_id", VStr "user-123");
                   ("slot_id", VStr "b553d02b-102c-457b-b525-0bfca777b191");
                   ("treatment_planner_text", VStr text)]%string)) = payload).
  { unfold Planner.fields_of, Handoff.planner_request, get_field. cbn [Planner.body default].
    unfold payload. f_equal.
    all: cbn [list_to_map foldr uncurry fst snd curry].
    all: by repeat (rewrite lookup_insert_eq || rewrite lookup_insert_ne by done). }
  assert (Hacc : accepted
            (Handoff.planner_request
               (Post "/api/treatment-plans"
                  [("session_id", VStr (createSessionId randomUUID now));
                   ("user_id", VStr "user-123");
                   ("slot_id", VStr "b553d02b-102c-457b-b525-0bfca777b191");
                   ("treatment_planner_text", VStr text)]%string))).
  { split; [done|]. rewrite Hfields. unfold payload. cbn.
    by rewrite (eqb_empty_false _ Htext), (eqb_empty_false _ Hsid). }
  split; [exact Hacc|]. split; [exact Hfields|].
  rewrite (handler_accepted _ up Hacc), planning_call_cases, Hfields.
  destruct (up 1%nat) as [d|e1]; [by eexists|].
  destruct (Planner.timeoutLike e1); [|by eexists].
  destruct (up 2%nat); by eexists.
Qed.

Lemma X23_transcription_witness :
  let s := Index.with_transcriptionText (VStr "Patient reports hair thinning.") Index.initial in
  ∃ storage s' e,
    Handoff.generatePlans (Some (∅ : gmap string string)) None s = (storage, true, s')
    ∧ loadTranscription storage = "Patient reports hair thinning."
    ∧ (useEffect storage None 1700000000000 (λ _, "TypeError") None initial).1 = [e]
    ∧ accepted (Handoff.planner_request e).
Proof.
  intros s.
  destruct (X23_transcription_reaches_the_gateway (∅ : gmap string string) s None 1700000000000
              (λ _, "TypeError") None (λ _, Planner.Resolved (Planner.JObject "{}"))
              eq_refl ltac:(done))
    as (storage & s' & e & Hgen & _ & Hload & Hrun & Hacc & _).
  by exists storage, s', e.
Defined.

End PlannerRequest.

(** ** The planner page and the reply *)

Section PlannerReply.
Import Tree PlannerPage.

(** *** Copies of parsed values *)

Lemma size_item (items : list jsvalue) x :
  x ∈ items → (size x < size (Arr items))%nat.
Proof.
  cbn [size]. induction 1 as [x items|x y items _ IH]; cbn [foldr]; lia.
Qed.

Lemma size_field (fields : gmap string jsvalue) k x :
  fields !! k = Some x → (size x < size (Obj fields))%nat.
Proof.
  intros Hk. cbn [size].
  rewrite (map_fold_delete_L _ _ k x fields) by (intros; lia || done). lia.
Qed.

Lemma parsed_field (fields : gmap string jsvalue) k x :
  parsed (Obj fields) = true → fields !! k = Some x → parsed x = true.
Proof.
  intros Hp Hk. cbn [parsed] in Hp.
  rewrite (map_fold_delete_L _ _ k x fields) in Hp; [|intros; by destruct (parsed _), (parsed _)|done].
  by apply andb_true_iff in Hp as [? _].
Qed.

Lemma parsed_not_undefined v : parsed v = true → v ≠ Undefined.
Proof. by intros Hp ->. Qed.

Lemma clone_parsed_below n : ∀ v, (size v < n)%nat → parsed v = true → clone v = v.
Proof.
  induction n as [|n IH]; intros v Hn Hp; [lia|].
  destruct v as [| | | | |items|fields]; try done; cbn [clone]; f_equal.
  - cbn [parsed] in Hp. rewrite forallb_forall in Hp.
    rewrite <- (list_fmap_id items) at 2. apply list_fmap_ext.
    intros i x Hx. apply list_elem_of_lookup_2 in Hx.
    assert (Hpx : parsed x = true) by (by apply Hp, list_elem_of_In).
    rewrite (IH x); [by destruct x| |done].
    pose proof (size_item _ _ Hx). lia.
  - apply map_eq. intros k. rewrite lookup_omap.
    destruct (fields !! k) as [x|] eqn:Hk; [|done]. cbn.
    pose proof (parsed_field _ _ _ Hp Hk) as Hpx.
    rewrite (IH x); [by destruct x| |done].
    pose proof (size_field _ _ _ Hk). lia.
Qed.

(** [JSON.parse(JSON.stringify(v))] is [v] for a value that was parsed. *)
Lemma clone_parsed v : parsed v = true → clone v = v.
Proof. apply (clone_parsed_below (S (size v))). lia. Qed.

(** *** The edits made of a reply *)

Lemma prop_defined v name :
  v ≠ Undefined → v ≠ Null → prop v name = inr (opt_prop v name).
Proof. by destruct v. Qed.

Lemma collect_fills nextPlans : ∀ nextEdits,
  Forall (λ plan, plan ≠ Undefined ∧ plan ≠ Null) nextPlans →
  ∃ edits,
    collect nextPlans nextEdits = inr edits
    ∧ (∀ k, Forall (λ plan, plan_key plan ≠ k) nextPlans → edits !! k = nextEdits !! k)
    ∧ (∀ i plan,
         nextPlans !! i = Some plan → plan_key plan ≠ "__proto__" →
         (∀ j other, (i < j)%nat → nextPlans !! j = Some other →
                     plan_key other ≠ plan_key plan) →
         edits !! plan_key plan = Some (clone plan)).
Proof.
  induction nextPlans as [|plan rest IH]; intros nextEdits Hdef.
  - exists nextEdits. split; [done|]. split; [done|]. by intros i plan.
  - apply Forall_cons in Hdef as [[Hu Hn] Hdef]. cbn [collect].
    rewrite (prop_defined _ _ Hu Hn).
    destruct (IH (assign (ToString (opt_prop plan "plan_id")) (clone plan) nextEdits) Hdef)
      as (edits & -> & Hframe & Hlast).
    exists edits. split; [done|]. split.
    + intros k [Hk Hrest]%Forall_cons. rewrite (Hframe k Hrest).
      apply assign_lookup_ne. by intros ->.
    + intros [|i] p Hp Hproto Hlater.
      * injection Hp as <-. rewrite Hframe.
        { by apply assign_lookup; left. }
        apply Forall_lookup. intros j other Hother.
        apply (Hlater (S j) other); [lia|done].
      * apply (Hlast i p Hp Hproto). intros j other Hij Hother.
        apply (Hlater (S j) other); [lia|done].
Qed.

Lemma or_default_nonempty m fallback : fallback ≠ "" → Net.or_default m fallback ≠ "".
Proof. intros Hf. unfold Net.or_default. by destruct (String.eqb_spec m ""). Qed.

(** The state after a call that failed. *)
Lemma error_panel_failed message s :
  error_panel
    (with_status s_error
       (with_error (Net.or_default message "Failed to generate treatment plans") s))
  = Some (Net.or_default message "Failed to generate treatment plans").
Proof.
  unfold error_panel. cbn. unfold Net.or_default.
  destruct (String.eqb_spec message ""); [done|].
  by destruct (String.eqb_spec message "").
Qed.

(** X24. What [callPlanner] makes of the reply.  A successful reply with a
    list of plans makes the page ready with those plans as cards, and files a
    copy of each plan under its plan id, the last plan of an id winning; the
    copy of a parsed plan is that plan, so a card first shows its plan as
    sent.  A successful reply whose [treatment_plans] is absent or falsy makes
    the page ready with no card and no message.  A reply that is not ok makes
    the page show the [error] of its body, or "Failed to generate treatment
    plans" when there is none, and keeps the plans and edits of before. *)
Theorem X24_planner_reply :
  ∀ randomUUID now engine text s,
    let after reply := (callPlanner randomUUID now engine text (Some reply) s).2 in
    (∀ data nextPlans,
       prop data "treatment_plans" = inr (Arr nextPlans) →
       Forall (λ plan, plan ≠ Undefined ∧ plan ≠ Null) nextPlans →
       let s' := after (Http true (inr data)) in
       status s' = s_ready ∧ plans s' = nextPlans ∧ cards s' = nextPlans
       ∧ error_panel s' = None
       ∧ ∀ i plan,
           nextPlans !! i = Some plan → plan_key plan ≠ "__proto__" →
           (∀ j other, (i < j)%nat → nextPlans !! j = Some other →
                       plan_key other ≠ plan_key plan) →
           planEdits s' !! plan_key plan = Some (clone plan)
           ∧ (parsed plan = true → editedPlan (planEdits s') (plan_key plan) plan = plan))
    ∧ (∀ data treatment_plans,
         prop data "treatment_plans" = inr treatment_plans →
         truthy treatment_plans = false →
         let s' := after (Http true (inr data)) in
         status s' = s_ready ∧ plans s' = [] ∧ planEdits s' = ∅ ∧ cards s' = []
         ∧ error_panel s' = None)
    ∧ (∀ body error,
         prop (match body with inl _ => Obj ∅ | inr errBody => errBody end) "error"
         = inr error →
         let s' := after (Http false body) in
         status s' = s_error ∧ plans s' = plans s ∧ planEdits s' = planEdits s
         ∧ cards s' = []
         ∧ error_panel s'
           = Some (Net.or_default
                     (ToString (or error (Str "Failed to generate treatment plans")))
                     "Failed to generate treatment plans")).
Proof.
  intros randomUUID now engine text s after. subst after. cbv beta.
  split; [|split].
  - intros data nextPlans Hprop Hdef. unfold callPlanner. cbn [snd]. rewrite Hprop.
    cbn [or truthy].
    destruct (collect_fills nextPlans ∅ Hdef) as (edits & -> & _ & Hlast).
    cbn. repeat split; try done.
    + apply (Hlast i plan); done.
    + intros Hparsed. unfold editedPlan.
      rewrite (Hlast i plan) by done. cbn [default id].
      rewrite (clone_parsed _ Hparsed). unfold or, id. by destruct (truthy plan).
  - intros data treatment_plans Hprop Hfalsy. unfold callPlanner. cbn [snd].
    rewrite Hprop. unfold or. rewrite Hfalsy. by cbn.
  - intros body error Hprop. unfold callPlanner. cbn [snd]. rewrite Hprop.
    split; [done|]. split; [done|]. split; [done|]. split; [done|].
    apply error_panel_failed.
Qed.

Lemma X24_planner_reply_witness :
  let plan_a : jsvalue := Obj (<[ "plan_id" := Str "A" ]> {[ "plan_name" := Str "Plan A" ]}) in
  let plan_b : jsvalue := Obj {[ "plan_id" := Str "B" ]} in
  let data : jsvalue := Obj {[ "treatment_plans" := Arr [plan_a; plan_b] ]} in
  let s' := (callPlanner None 1700000000000 (λ _, "TypeError") "hair thinning"
               (Some (Http true (inr data))) initial).2 in
  status s' = s_ready ∧ plans s' = [plan_a; plan_b] ∧ cards s' = [plan_a; plan_b]
  ∧ error_panel s' = None.
Proof.
  intros plan_a plan_b data s'.
  destruct (proj1 (X24_planner_reply None 1700000000000 (λ _, "TypeError") "hair thinning"
                     initial) data [plan_a; plan_b])
    as (H1 & H2 & H3 & H4 & _); [reflexivity|by repeat constructor|].
  by repeat split.
Defined.

(** X25. A failure of the gateway, as the page shows it.  Whatever the
    gateway's failure and whatever details the proxy attaches, a request the
    proxy forwarded and could not get answered, with 500 or with 504, leaves
    the page in the error state showing "Failed to generate treatment plans",
    with the plans and edits of before; the details are never shown. *)
Theorem X25_gateway_failure_on_the_page :
  ∀ parse empty_body randomUUID now engine text s req up,
    accepted req →
    let answer := (Planner.handler req up).2 in
    let s' := (callPlanner randomUUID now engine text
                 (Some (Handoff.planner_reply parse empty_body answer)) s).2 in
    Planner.status answer ≠ 200 →
    (Planner.status answer = 500 ∨ Planner.status answer = 504)
    ∧ status s' = s_error
    ∧ error_panel s' = Some "Failed to generate treatment plans"
    ∧ plans s' = plans s ∧ planEdits s' = planEdits s.
Proof.
  intros parse empty_body randomUUID now engine text s req up Hacc answer s' Hst.
  subst s' answer. revert Hst.
  rewrite (handler_accepted _ _ Hacc), planning_call_cases.
  assert (Hfail : ∀ b e,
    let s' := (callPlanner randomUUID now engine text
                 (Some (Handoff.planner_reply parse empty_body (failure b e))) s).2 in
    (Planner.status (failure b e) = 500 ∨ Planner.status (failure b e) = 504)
    ∧ status s' = s_error
    ∧ error_panel s' = Some "Failed to generate treatment plans"
    ∧ plans s' = plans s ∧ planEdits s' = planEdits s).
  { intros b e. split; [destruct b; by auto|].
    unfold callPlanner, Handoff.planner_reply, failure. cbn [snd Planner.status Planner.json].
    rewrite bool_decide_eq_false_2 by (destruct b; lia).
    cbn [prop opt_prop]. rewrite lookup_insert_eq. by cbn. }
  destruct (up 1%nat) as [d|e1]; [done|].
  destruct (Planner.timeoutLike e1); [|intros _; apply Hfail].
  destruct (up 2%nat) as [d|e2]; [done|intros _; apply Hfail].
Qed.

Lemma X25_gateway_failure_witness :
  let req : Planner.Request Planner.field :=
    {| Planner.method := "POST";
       Planner.body :=
         Some (<[ "treatment_planner_text" := Planner.Scalar (VStr "lip filler") ]>
                 {[ "session_id" := Planner.Scalar (VStr "s-1") ]}) |} in
  let up := λ n : nat,
    Planner.Rejected {| Planner.code := Some "ERR_BAD_RESPONSE";
                        Planner.message := Some "Request failed with status code 502";
                        Planner.response_data := Some (Planner.JObject "{}") |} in
  error_panel (callPlanner None 1700000000000 (λ _, "TypeError") "lip filler"
                 (Some (Handoff.planner_reply (λ _, Obj ∅) "Unexpected end of JSON input"
                          (Planner.handler req up).2)) initial).2
  = Some "Failed to generate treatment plans".
Proof.
  intros req up.
  assert (Hacc : accepted req) by (repeat split; reflexivity).
  apply (X25_gateway_failure_on_the_page (λ _, Obj ∅) "Unexpected end of JSON input" None
           1700000000000 (λ _, "TypeError") "lip filler" initial req up Hacc).
  vm_compute. discriminate.
Defined.

(** *** The page from mount on *)

Lemma callPlanner_invariant randomUUID now engine text reply s :
  text ≠ "" → transcriptionText s = text →
  page_invariant (callPlanner randomUUID now engine text reply s).2.
Proof.
  intros Htext Hs. unfold callPlanner. cbn [snd].
  assert (Hcatch : ∀ message,
    page_invariant
      (with_status s_error
         (with_error (Net.or_default message "Failed to generate treatment plans")
            (with_sessionId (createSessionId randomUUID now)
               (with_status s_loading (with_error "" s)))))).
  { intros message. split; [|split]; cbn; try done.
    - intros _. split; [by apply or_default_nonempty|by rewrite Hs].
    - by intros [|[|]]. }
  assert (Hok : ∀ st, st = s_loading ∨ st = s_ready →
    ∀ f, (∀ s, error (f s) = error s ∧ transcriptionText (f s) = transcriptionText s) →
    page_invariant
      (with_status st
         (f (with_sessionId (createSessionId randomUUID now)
               (with_status s_loading (with_error "" s)))))).
  { intros st Hst f Hf. split; [|split]; cbn.
    - by destruct Hst as [-> | ->].
    - intros _. destruct (Hf (with_sessionId (createSessionId randomUUID now)
                                (with_status s_loading (with_error "" s)))) as [-> ->].
      cbn. by rewrite Hs.
    - by destruct Hst as [-> | ->]. }
  destruct reply as [[message|[] [message|data]]|];
    repeat match goal with
           | |- page_invariant (match ?x with _ => _ end) => destruct x
           end;
    first [ apply Hcatch
          | by apply (Hok s_ready (or_intror eq_refl)
                        (λ s, with_planEdits _ (with_plans _ s)))
          | by apply (Hok s_loading (or_introl eq_refl) (λ s, s)) ].
Qed.

Lemma page_step_invariant engine e s s' :
  page_enabled e s = true → page_step engine e s = Some s' →
  page_invariant s → page_invariant s'.
Proof.
  intros He Hstep (Herr & Hok & Hidle). destruct e; cbn in He, Hstep.
  - injection Hstep as <-. unfold useEffect.
    destruct (String.eqb_spec (loadTranscription storage) "") as [Hempty|Htext]; cbn [negb].
    + split; [|split]; cbn; [done|by intros [|[|]]|done].
    + by apply callPlanner_invariant.
  - injection Hstep as <-. apply andb_true_iff in He as [Hst%bool_decide_eq_true _].
    apply (callPlanner_invariant _ _ _ (transcriptionText s)); [by apply Herr|done].
  - injection Hstep as <-. apply bool_decide_eq_true in He.
    split; [|split]; cbn; try done. intros _. apply Hok. by right; left.
  - injection Hstep as <-. apply bool_decide_eq_true in He.
    split; [|split]; cbn; try done. intros _. apply Hok. by right; right.
  - apply bool_decide_eq_true in He.
    destruct (updateServiceSpec _ _ _ _ _) as [d|]; [|done]. injection Hstep as <-.
    split; [|split]; cbn; [done|done|by rewrite He].
  - apply bool_decide_eq_true in He.
    destruct (updateProductField _ _ _ _ _) as [d|]; [|done]. injection Hstep as <-.
    split; [|split]; cbn; [done|done|by rewrite He].
  - apply bool_decide_eq_true in He.
    destruct (updateLabField _ _ _ _ _) as [d|]; [|done]. injection Hstep as <-.
    split; [|split]; cbn; [done|done|by rewrite He].
Qed.

Lemma page_run_invariant engine events : ∀ s s',
  page_run engine events s = Some s' → page_invariant s →
  page_invariant s' ∧ Forall asks_with_text (page_requests engine events s).
Proof.
  induction events as [|e events IH]; intros s s' Hrun Hinv;
    cbn [page_run page_requests] in Hrun |- *.
  - by simplify_eq.
  - destruct (page_enabled e s) eqn:He; [|done].
    destruct (page_step engine e s) as [s1|] eqn:Hstep; [|done]. cbn in Hrun.
    destruct (IH _ _ Hrun (page_step_invariant _ _ _ _ He Hstep Hinv)) as [Hinv' Hreq].
    split; [done|]. apply Forall_app. split; [|done].
    destruct e; try by constructor.
    + unfold useEffect.
      destruct (String.eqb_spec (loadTranscription storage) "") as [Hempty|Htext];
        cbn [negb]; [by constructor|].
      rewrite callPlanner_request. repeat constructor. by eexists _, _.
    + rewrite callPlanner_request. repeat constructor. eexists _, _. split; [|done].
      apply andb_true_iff in He as [Hst%bool_decide_eq_true _].
      destruct Hinv as (Herr & _). by apply Herr.
Qed.

(** X26. In every state the page reaches from its mount: in the error state
    the error text is not empty, so the panel shows that text and never its
    fallback "Unable to generate treatment plans.", and the Retry button is
    always there; while loading, ready or selected the error text is empty;
    a page with another status than idle holds a non-empty transcription, and
    an idle page holds no plans, no edits and no session id.  Every request
    of the run carries a non-empty text. *)
Theorem X26_planner_page_invariants :
  ∀ engine events s,
    page_run engine events initial = Some s →
    (status s = s_error →
       error s ≠ "" ∧ error_panel s = Some (error s) ∧ retry_shown s = true)
    ∧ (status s = s_loading ∨ status s = s_ready ∨ status s = s_selected → error s = "")
    ∧ (status s ≠ s_idle → transcriptionText s ≠ "")
    ∧ (status s = s_idle → plans s = [] ∧ planEdits s = ∅ ∧ sessionId s = "")
    ∧ Forall asks_with_text (page_requests engine events initial).
Proof.
  intros engine events s Hrun.
  assert (Hinit : page_invariant initial).
  { split; [|split]; cbn; [done|by intros [|[|]]|done]. }
  destruct (page_run_invariant _ _ _ _ Hrun Hinit) as [(Herr & Hok & Hidle) Hreq].
  split; [|split; [|split; [|split]]]; try done.
  - intros Hst. destruct (Herr Hst) as [He Ht]. split; [done|].
    unfold error_panel, retry_shown, Net.or_default.
    rewrite decide_True, bool_decide_eq_true_2 by done.
    by rewrite (eqb_empty_false _ He), (eqb_empty_false _ Ht).
  - intros Hst. by apply Hok.
  - intros Hst. destruct (status s) eqn:Hs; try done.
    + apply Hok. by left.
    + apply Hok. by right; left.
    + apply Hok. by right; right.
    + by apply Herr.
Qed.

Lemma X26_planner_page_witness :
  let storage : option (gmap string string) :=
    Some {[ "planner:transcription" := "hair thinning" ]} in
  let events :=
    [Mount storage None 1700000000000 (Some (NetworkError "Failed to fetch"));
     Retry None 1700000005000
       (Some (Http true (inr (Obj {[ "treatment_plans" :=
                                       Arr [Obj {[ "plan_id" := Str "A" ]}] ]}))));
     EditProduct "A" 0 "dosage" (Str "5 mg");
     Select (Str "A")] in
  ∃ s, page_run (λ _, "TypeError") events initial = Some s
       ∧ status s = s_selected
       ∧ (status s = s_loading ∨ status s = s_ready ∨ status s = s_selected → error s = "").
Proof.
  intros storage events. eexists. split; [vm_compute; reflexivity|]. split; [reflexivity|].
  apply (X26_planner_page_invariants (λ _, "TypeError") events). vm_compute; reflexivity.
Defined.

End PlannerReply.

(** ** The plain-script recorder in front of the Express server *)








